(** * weather-route-api: the route forecast service of [server.js]

    A shallow embedding of [RouteWeatherService]: the weather code
    translator, the request key, the cache table, the provider cascade
    and the checkpoint loop, each followed in the second half of the file
    by its properties. The cache lookup is embedded twice, as [server.js]
    has it and as the earlier iteration of the class has it, since the
    two differ on expiry. The place names, the request as a whole with
    its HTTP handler, and the loop and the cascade of the previous
    iteration (to compare with those of [server.js]) come after them.

    Conventions.
    - A JavaScript number is an exact rational ([Q]): the rounding of
      double precision is not modelled. A value that may be missing
      ([undefined], [null], [NaN]) is an [option].
    - A [Date] is its time value, whole milliseconds since the epoch
      ([Z]), within the range of valid dates.
    - User text is a list of UTF-16 code units ([list N]); fixed text
      produced by the service is a [string] of UTF-8 bytes.
    - A call that can throw returns [None] (or an error value) there.
    - The network collaborators (routing endpoints, forecast, reverse
      geocoding) are functions given to the service: what they answer is
      arbitrary, the properties hold for every answer. Whether they
      answer at all is not modelled (the calls of [_getCityName] and
      [_getWeather] have no timeout): a property of a request is a
      property of a request whose calls were answered. *)

From Stdlib Require Import ZArith NArith QArith Qround List String Ascii.
From Stdlib Require Import Bool Lia Lqa DecimalString Sorted.
Import ListNotations.

(* ================================================================= *)
(** ** JavaScript primitives used by the service *)

Module Js.

(** [String(n)] for an integer [n]: plain decimal digits, with a leading
    minus sign below zero (the form [Number::toString] gives every
    integer of magnitude below 10^21). *)
Definition numberToString (n : Z) : string :=
  NilZero.string_of_int (Z.to_int n).

(** Truthiness of a string: every string but the empty one. *)
Definition truthyString (s : string) : bool :=
  match s with EmptyString => false | String _ _ => true end.

(** Truthiness of a value that is a string or [undefined]. *)
Definition truthyOptString (v : option string) : bool :=
  match v with Some s => truthyString s | None => false end.

(** [a || b] on numbers where [a] may be missing: [0], [NaN] and
    [undefined] are falsy, so the result is [b] for them. *)
Definition numOr (a : option Q) (b : Q) : Q :=
  match a with
  | Some x => if Qeq_bool x 0 then b else x
  | None => b
  end.

(** [Math.floor]. *)
Definition floor (x : Q) : Z := Qfloor x.

(** [new Date(tv)] for a finite time value: the fraction of a
    millisecond is dropped, towards zero. *)
Definition newDate (tv : Q) : Z :=
  if Qle_bool 0 tv then Qfloor tv else Qceiling tv.

(** *** Text: [trim] and [toLowerCase] *)

(** A string of user text, as its UTF-16 code units. *)
Definition JsString := list N.

(** The code units [String.prototype.trim] strips: the WhiteSpace and
    LineTerminator code points (all of them in the basic plane). *)
Definition isWhiteSpace (c : N) : bool :=
  ((9 <=? c) && (c <=? 13) || (c =? 32) || (c =? 160) || (c =? 5760)
   || (8192 <=? c) && (c <=? 8202) || (c =? 8232) || (c =? 8233)
   || (c =? 8239) || (c =? 8287) || (c =? 12288) || (c =? 65279))%N.

(** [s.trimStart()]: the string from its first code unit that is not
    white space. *)
Fixpoint trimStart (s : JsString) : JsString :=
  match s with
  | [] => []
  | c :: rest => if isWhiteSpace c then trimStart rest else s
  end.

(** [s.trimEnd()]: the string up to its last code unit that is not white
    space. *)
Fixpoint trimEnd (s : JsString) : JsString :=
  match s with
  | [] => []
  | c :: rest =>
      match trimEnd rest with
      | [] => if isWhiteSpace c then [] else [c]
      | kept => c :: kept
      end
  end.

(** A string that does not begin with white space. *)
Definition headKept (s : JsString) : Prop :=
  match s with
  | [] => True
  | c :: _ => isWhiteSpace c = false
  end.

(** [s.trim()]. *)
Definition trim (s : JsString) : JsString := trimEnd (trimStart s).

(** Lowercase mapping of one code unit, on Basic Latin (A-Z) and the
    Latin-1 Supplement (U+00C0-U+00DE but the multiplication sign); code
    units of other blocks are left as they are. *)
Definition lowerUnit (c : N) : N :=
  (if (65 <=? c) && (c <=? 90) then c + 32
   else if (192 <=? c) && (c <=? 222) && negb (c =? 215) then c + 32
   else c)%N.

(** [s.toLowerCase()] of a text of Basic Latin and Latin-1. The engine
    lowers the letters of the other blocks as well; what is proved of the
    request key holds for every lower-casing with the properties used
    there, this one and the engine's. *)
Definition toLowerCase (s : JsString) : JsString := map lowerUnit s.

(** Code units of an ASCII literal. *)
Definition ofAscii (s : string) : JsString :=
  map N_of_ascii (list_ascii_of_string s).

(** *** Text as the database binds it: UTF-8 *)

Definition isHighSurrogate (c : N) : bool := ((55296 <=? c) && (c <=? 56319))%N.

Definition isLowSurrogate (c : N) : bool := ((56320 <=? c) && (c <=? 57343))%N.

(** The bytes of one code point. *)
Definition utf8OfCodePoint (cp : N) : list N :=
  (if cp <? 128 then [cp]
   else if cp <? 2048 then [192 + cp / 64; 128 + cp mod 64]
   else if cp <? 65536 then
     [224 + cp / 4096; 128 + (cp / 64) mod 64; 128 + cp mod 64]
   else
     [240 + cp / 262144; 128 + (cp / 4096) mod 64; 128 + (cp / 64) mod 64;
      128 + cp mod 64])%N.

(** The bytes U+FFFD is written with; a surrogate without its pair is
    written so. *)
Definition replacementBytes : list N := [239; 191; 189]%N.

(** The UTF-8 text a string becomes when it is bound to a statement: a
    surrogate pair is one code point, a lone surrogate is replaced. *)
Fixpoint utf8 (s : JsString) : list N :=
  match s with
  | [] => []
  | c :: rest =>
      if isHighSurrogate c then
        match rest with
        | d :: rest' =>
            if isLowSurrogate d
            then utf8OfCodePoint
                   (65536 + (c - 55296) * 1024 + (d - 56320))%N
                 ++ utf8 rest'
            else replacementBytes ++ utf8 rest
        | [] => replacementBytes
        end
      else if isLowSurrogate c then replacementBytes ++ utf8 rest
      else utf8OfCodePoint c ++ utf8 rest
  end.

(** *** Dates: [toISOString] *)

(** Year, month and day of a day number counted from 1970-01-01
    (proleptic Gregorian calendar). *)
Definition civilFromDays (days : Z) : Z * Z * Z :=
  (let z := days + 719468 in
   let era := z / 146097 in
   let doe := z - era * 146097 in
   let yoe := (doe - doe / 1460 + doe / 36524 - doe / 146096) / 365 in
   let doy := doe - (365 * yoe + yoe / 4 - yoe / 100) in
   let mp := (5 * doy + 2) / 153 in
   let d := doy - (153 * mp + 2) / 5 + 1 in
   let m := if mp <? 10 then mp + 3 else mp - 9 in
   let y := yoe + era * 400 in
   (if m <=? 2 then y + 1 else y, m, d))%Z.

(** The day number of a year, month and day: the inverse of
    [civilFromDays]. *)
Definition daysFromCivil (y m d : Z) : Z :=
  (let y := if m <=? 2 then y - 1 else y in
   let era := y / 400 in
   let yoe := y - era * 400 in
   let doy := (153 * (if 2 <? m then m - 3 else m + 9) + 2) / 5 + d - 1 in
   let doe := yoe * 365 + yoe / 4 - yoe / 100 + doy in
   era * 146097 + doe - 719468)%Z.

(** [f] holds of the [p] integers from [base] on. *)
Fixpoint allFrom (p : positive) (f : Z -> bool) (base : Z) : bool :=
  match p with
  | xH => f base
  | xO q => allFrom q f base && allFrom q f (base + Z.pos q)%Z
  | xI q =>
      allFrom q f base && allFrom q f (base + Z.pos q)%Z
      && f (base + Z.pos (xO q))%Z
  end.

(** What [civilFromDays] gives for a day of the 400 years from
    0000-03-01, counted from that day: a month, a day of the month, the
    year (400 from the first of January on), and the day number back. *)
Definition eraDayOk (rel : Z) : bool :=
  (let '(y, m, d) := civilFromDays (rel - 719468) in
   (0 <=? y) && (if rel <? 146037 then y <=? 399 else y =? 400)
   && (1 <=? m) && (m <=? 12) && (1 <=? d) && (d <=? 31)
   && (daysFromCivil y m d =? rel - 719468))%Z.

(** The dates of the years 0000 to 9999, whose ISO text has four digits
    for the year. *)
Definition fourDigitYear (date : Z) : Prop :=
  (-62167219200000 <= date <= 253402300799999)%Z.

Definition digit (n : Z) : ascii := ascii_of_nat (48 + Z.to_nat (n mod 10)).

(** The last [k] decimal digits of [n], most significant first. *)
Fixpoint pad (k : nat) (n : Z) : string :=
  match k with
  | O => EmptyString
  | S k' => (pad k' (n / 10) ++ String (digit n) EmptyString)%string
  end.

(** The year field: four digits from 0 to 9999, else a sign and six. *)
Definition isoYear (y : Z) : string :=
  (if (0 <=? y)%Z && (y <=? 9999)%Z then pad 4 y
   else if (y <? 0)%Z then "-" ++ pad 6 (- y)
   else "+" ++ pad 6 y)%string.

(** [date.toISOString()] of a valid date: YYYY-MM-DDTHH:mm:ss.sssZ, UTC. *)
Definition toISOString (date : Z) : string :=
  (let hours := (date / 3600000)%Z in
   let '(y, m, d) := civilFromDays (hours / 24) in
   isoYear y ++ "-" ++ pad 2 m ++ "-" ++ pad 2 d
   ++ "T" ++ pad 2 (hours mod 24)
   ++ ":" ++ pad 2 ((date / 60000) mod 60)
   ++ ":" ++ pad 2 ((date / 1000) mod 60)
   ++ "." ++ pad 3 (date mod 1000) ++ "Z")%string.

(** [s.slice(0, n)] for [n >= 0]. *)
Definition slice0 (n : nat) (s : string) : string := substring 0 n s.

(** Local time, for a zone that stays [offset] minutes east of UTC.
    [fromLocalReading] is [new Date(text)] for a text without zone
    designator, [reading] being the time value the text denotes when read
    as UTC; [localReading] is the wall clock of a date there, to the
    minute (YYYY-MM-DDTHH:mm), which is what [toLocaleTimeString] renders
    from. *)
Definition fromLocalReading (offset reading : Z) : Z :=
  (reading - offset * 60000)%Z.

Definition localReading (offset date : Z) : string :=
  slice0 16 (toISOString (date + offset * 60000)).

End Js.

(* ================================================================= *)
(** ** Weather code translator *)

Module Wmo.

Local Open Scope string_scope.
Local Open Scope Z_scope.

(** The object literal [table] of [_translateWMO], key by key. *)
Definition table : list (Z * string) :=
  [ (0, "Céu Limpo ☀️"); (1, "Predom. Limpo 🌤️");
    (2, "Parcial. Nublado ⛅"); (3, "Encoberto ☁️");
    (45, "Nevoeiro 🌫️"); (48, "Nevoeiro c/ Geada 🌫️");
    (51, "Garoa Leve 🌧️"); (53, "Garoa Moderada 🌧️");
    (55, "Garoa Densa 🌧️"); (61, "Chuva Fraca ☔");
    (63, "Chuva Moderada ☔"); (65, "Chuva Forte ⛈️");
    (80, "Pancadas de Chuva 🌦️"); (81, "Pancadas Fortes ⛈️");
    (95, "Tempestade ⚡"); (96, "Tempestade c/ Granizo ❄️⚡") ].

(** [table[code]]: the value under the key, or [undefined]. *)
Fixpoint lookup (t : list (Z * string)) (code : Z) : option string :=
  match t with
  | [] => None
  | (k, v) :: rest => if k =? code then Some v else lookup rest code
  end.

(** [table[code] || `Clima (${code})`]. *)
Definition _translateWMO (code : Z) : string :=
  match lookup table code with
  | Some label =>
      if Js.truthyString label then label
      else "Clima (" ++ Js.numberToString code ++ ")"
  | None => "Clima (" ++ Js.numberToString code ++ ")"
  end.

Definition knownCodes : list Z := map fst table.

End Wmo.

(* ================================================================= *)
(** ** Request key ([getRouteForecast], first four statements) *)

Module Key.

(** The [dateString] argument as the [Date] constructor reads it. *)
Inductive DateArg : Type :=
| NoDate                (* absent or empty: falsy *)
| BadDate               (* text the constructor cannot parse *)
| GoodDate (tv : Z).    (* text denoting the time value [tv] *)

(** [originText.trim().toLowerCase()], for a given lower-casing of
    texts. *)
Definition normalizeWith (toLowerCase : Js.JsString -> Js.JsString)
    (text : Js.JsString) : Js.JsString :=
  toLowerCase (Js.trim text).

(** The same with the lower-casing of Basic Latin and Latin-1. *)
Definition normalize (text : Js.JsString) : Js.JsString :=
  normalizeWith Js.toLowerCase text.

(** [dateString ? new Date(dateString) : new Date()]; [None] is the
    invalid date. *)
Definition departureDate (dateString : DateArg) (now : Z) : option Z :=
  match dateString with
  | NoDate => Some now
  | BadDate => None
  | GoodDate tv => Some tv
  end.

(** [departureDate.toISOString().slice(0, 13)]. *)
Definition departureIsoKey (date : Z) : string :=
  Js.slice0 13 (Js.toISOString date).

(** The three values handed to [_checkCache] and [_saveToCache]. *)
Record NormalizedKey : Type := mkKey {
  normOrigin : Js.JsString;
  normDest : Js.JsString;
  isoKey : string
}.

(** The key of a request; [toISOString] throws on the invalid date, and
    then the request has no key ([None]). *)
Definition requestKeyWith (toLowerCase : Js.JsString -> Js.JsString)
    (originText destinationText : Js.JsString)
    (dateString : DateArg) (now : Z) : option NormalizedKey :=
  match departureDate dateString now with
  | Some date =>
      Some (mkKey (normalizeWith toLowerCase originText)
                  (normalizeWith toLowerCase destinationText)
                  (departureIsoKey date))
  | None => None
  end.

Definition requestKey (originText destinationText : Js.JsString)
    (dateString : DateArg) (now : Z) : option NormalizedKey :=
  requestKeyWith Js.toLowerCase originText destinationText dateString now.

End Key.

(* ================================================================= *)
(** ** Cache table [route_cache] *)

Module Cache.

Section Store.

(** What [JSON.parse] gives back from the [data] column. *)
Context {Payload : Type}.

Record Row : Type := mkRow {
  id : Z;
  origin_text : Js.JsString;
  dest_text : Js.JsString;
  trip_date : string;
  data : Payload;
  created_at : Z
}.

(** The database as a query sees it: failing, or the rows of the table in
    rowid order. *)
Inductive Db : Type :=
| DbError
| DbRows (rows : list Row).

(** Equality of two texts in the table. A bound text is stored in UTF-8
    and [=] compares the stored bytes, so two texts are equal there when
    their UTF-8 forms are. *)
Definition textEqb (a b : Js.JsString) : bool :=
  if list_eq_dec N.eq_dec (Js.utf8 a) (Js.utf8 b) then true else false.

(** [WHERE origin_text = ? AND dest_text = ? AND trip_date = ?]. *)
Definition keyMatches (origin dest : Js.JsString) (dateKey : string)
    (r : Row) : bool :=
  textEqb (origin_text r) origin && textEqb (dest_text r) dest
  && String.eqb (trip_date r) dateKey.

Definition selectRows (origin dest : Js.JsString) (dateKey : string)
    (rows : list Row) : list Row :=
  filter (keyMatches origin dest dateKey) rows.

(** [ORDER BY created_at DESC LIMIT 1]: a row of greatest [created_at]. *)
Fixpoint newest (rows : list Row) : option Row :=
  match rows with
  | [] => None
  | r :: rest =>
      match newest rest with
      | Some r' => if (created_at r <? created_at r')%Z then Some r' else Some r
      | None => Some r
      end
  end.

(** [INSERT INTO route_cache (...) VALUES (?, ?, ?, ?, ?)] with
    [Date.now()] as [created_at]; a failing database keeps failing. *)
Definition _saveToCache (db : Db) (origin dest : Js.JsString)
    (dateKey : string) (payload : Payload) (now : Z) : Db :=
  match db with
  | DbError => DbError
  | DbRows rows =>
      DbRows (rows ++ [mkRow (Z.of_nat (List.length rows) + 1) origin dest
                             dateKey payload now])
  end.

End Store.

Arguments Row : clear implicits.
Arguments Db : clear implicits.

(** [this.CACHE_TTL = 3600 * 1000]. *)
Definition CACHE_TTL : Z := 3600 * 1000.

(** [server.js]. *)
Module Server.

(** [SELECT data FROM route_cache WHERE ...] without ordering: [db.get]
    hands over the first row of the result, which for a scan of the table
    is the one of least rowid; the callback resolves with that row's data
    whenever there is one, and reads neither [created_at] nor
    [CACHE_TTL]. *)
Definition _checkCache {Payload : Type} (db : Db Payload)
    (origin dest : Js.JsString) (dateKey : string) : option Payload :=
  match db with
  | DbError => None
  | DbRows rows =>
      match selectRows origin dest dateKey rows with
      | row :: _ => Some (data row)
      | [] => None
      end
  end.

End Server.

(** The earlier iteration of the class (OSRM only). *)
Module Part000.

(** [SELECT * ... ORDER BY created_at DESC LIMIT 1]; the callback resolves
    with the row's data only if [Date.now() - row.created_at < CACHE_TTL]. *)
Definition _checkCache {Payload : Type} (now : Z) (db : Db Payload)
    (origin dest : Js.JsString) (dateKey : string) : option Payload :=
  match db with
  | DbError => None
  | DbRows rows =>
      match newest (selectRows origin dest dateKey rows) with
      | Some row =>
          if (now - created_at row <? CACHE_TTL)%Z then Some (data row)
          else None
      | None => None
      end
  end.

End Part000.

End Cache.

(* ================================================================= *)
(** ** Routes *)

Module Route.

(** A point of a route geometry, [[lng, lat]]. *)
Definition Point : Type := (Q * Q)%type.

(** What a provider adapter returns. *)
Record RouteData : Type := mkRouteData {
  duration : option Q;
  distance : option Q;
  path : option (list Point);
  provider : string
}.

(** The result of [_getCoordinates]. *)
Record Coord : Type := mkCoord { lat : Q; lng : Q }.

End Route.

(* ================================================================= *)
(** ** Route resolution cascade *)

Module Cascade.

Import Route.
Local Open Scope string_scope.

Inductive Provider : Type := OSRM | GraphHopper | Mapbox.

(** The route object of a provider response: [routes[0]] of OSRM and
    Mapbox, [paths[0]] of GraphHopper. [r_time] is the field [duration]
    (seconds) or [time] (milliseconds); [r_geometry] is the object
    [geometry] or [points], [None] when the response has none, and inside
    it the field [coordinates]. *)
Record RawRoute : Type := mkRawRoute {
  r_time : option Q;
  r_distance : option Q;
  r_geometry : option (option (list Point))
}.

(** A computation that may throw (left, with the message of the error)
    and that records the providers whose endpoint it has called. *)
Definition Attempt (A : Type) : Type :=
  list Provider -> list Provider * (string + A).

Definition ret {A : Type} (a : A) : Attempt A :=
  fun log => (log, inr a).

Definition throw {A : Type} (msg : string) : Attempt A :=
  fun log => (log, inl msg).

Definition bind {A B : Type} (m : Attempt A) (k : A -> Attempt B)
    : Attempt B :=
  fun log =>
    match m log with
    | (log', inr a) => k a log'
    | (log', inl e) => (log', inl e)
    end.

(** [try { return body } catch (e) { handler }]. *)
Definition tryCatch {A : Type} (body : Attempt A)
    (handler : string -> Attempt A) : Attempt A :=
  fun log =>
    match body log with
    | (log', inr a) => (log', inr a)
    | (log', inl e) => handler e log'
    end.

Section Service.

(** [process.env.GRAPHHOPPER_KEY] and [process.env.MAPBOX_TOKEN]. *)
Variable GRAPHHOPPER_KEY : option string.
Variable MAPBOX_TOKEN : option string.

(** What the endpoint of a provider answers to a request between two
    coordinates: the route list of the response body, or [None] when
    [axios.get] rejects (timeout, status, network) or the body has no
    route list. *)
Variable endpoint : Provider -> Coord -> Coord -> option (list RawRoute).

(** [await axios.get(url, { timeout: 8000 })] on a provider's endpoint. *)
Definition axiosGet (p : Provider) (start end_ : Coord)
    : Attempt (list RawRoute) :=
  fun log =>
    ((log ++ [p])%list,
     match endpoint p start end_ with
     | Some routes => inr routes
     | None => inl "request failed"
     end).

(** Reading [.geometry.coordinates] (or [.points.coordinates]): a
    TypeError when the object is missing. *)
Definition coordinatesOf (r : RawRoute) : Attempt (option (list Point)) :=
  match r_geometry r with
  | Some coords => ret coords
  | None => throw "TypeError: Cannot read properties of undefined"
  end.

Definition _getOSRMRoute (start end_ : Coord) : Attempt RouteData :=
  bind (axiosGet OSRM start end_) (fun routes =>
    match routes with
    | [] => throw "Rota não encontrada no OSRM"
    | r :: _ =>
        bind (coordinatesOf r) (fun coords =>
          ret (mkRouteData (r_time r) (r_distance r) coords "OSRM"))
    end).

Definition _getGraphHopperRoute (start end_ : Coord) : Attempt RouteData :=
  bind (axiosGet GraphHopper start end_) (fun paths =>
    match paths with
    | [] => throw "TypeError: Cannot read properties of undefined"
    | route :: _ =>
        bind (coordinatesOf route) (fun coords =>
          ret (mkRouteData
                 (match r_time route with
                  | Some t => Some (t / 1000)%Q
                  | None => None
                  end)
                 (r_distance route) coords "GraphHopper"))
    end).

Definition _getMapboxRoute (start end_ : Coord) : Attempt RouteData :=
  bind (axiosGet Mapbox start end_) (fun routes =>
    match routes with
    | [] => throw "TypeError: Cannot read properties of undefined"
    | route :: _ =>
        bind (coordinatesOf route) (fun coords =>
          ret (mkRouteData (r_time route) (r_distance route) coords
                           "Mapbox"))
    end).

(** The three attempts of [_getRouteWithFallback], one [try] each: the
    first returns what OSRM returns; the second and third throw inside
    their [try] when the credential is falsy, before any request. *)
Definition _getRouteWithFallback (start end_ : Coord) : Attempt RouteData :=
  tryCatch (_getOSRMRoute start end_) (fun _ =>
  tryCatch
    (if negb (Js.truthyOptString GRAPHHOPPER_KEY)
     then throw "Chave GraphHopper não configurada no .env"
     else _getGraphHopperRoute start end_) (fun _ =>
  tryCatch
    (if negb (Js.truthyOptString MAPBOX_TOKEN)
     then throw "Token Mapbox não configurado no .env"
     else _getMapboxRoute start end_) (fun _ =>
  throw "Serviços de mapas indisponíveis. Verifique as chaves de API no servidor."))).

(** The adapter of a provider. *)
Definition adapter (p : Provider) : Coord -> Coord -> Attempt RouteData :=
  match p with
  | OSRM => _getOSRMRoute
  | GraphHopper => _getGraphHopperRoute
  | Mapbox => _getMapboxRoute
  end.

(** Whether the cascade may call a provider: OSRM needs no credential. *)
Definition configured (p : Provider) : bool :=
  match p with
  | OSRM => true
  | GraphHopper => Js.truthyOptString GRAPHHOPPER_KEY
  | Mapbox => Js.truthyOptString MAPBOX_TOKEN
  end.

(** What a provider's adapter gives when it is called. *)
Definition outcome (p : Provider) (start end_ : Coord) : string + RouteData :=
  snd (adapter p start end_ []).

Definition succeeds (p : Provider) (start end_ : Coord) : bool :=
  match outcome p start end_ with inr _ => true | inl _ => false end.

End Service.

(** The identity a provider writes in its result. *)
Definition providerName (p : Provider) : string :=
  match p with
  | OSRM => "OSRM"
  | GraphHopper => "GraphHopper"
  | Mapbox => "Mapbox"
  end.

(** The message of the error thrown when every attempt has failed. *)
Definition routeUnavailable : string :=
  "Serviços de mapas indisponíveis. Verifique as chaves de API no servidor.".

End Cascade.

(* ================================================================= *)
(** ** Checkpoint loop ([_processCheckpoints]) *)

Module Checkpoints.

Import Route.
Local Open Scope string_scope.
Local Open Scope Q_scope.

(** [this.CHECKPOINT_INTERVAL = 3600]. *)
Definition CHECKPOINT_INTERVAL : Q := 3600.

(** [weather.temp]: a number of degrees, or the two dashes that stand
    for no reading. *)
Inductive Temp : Type :=
| TempValue (degrees : Q)
| TempDashes.

(** What [_getWeather] returns. *)
Record Weather : Type := mkWeather { temp : Temp; code : Z }.

(** The text [toLocaleTimeString('pt-BR', options)] renders, kept as what
    determines it: the date rendered, and whether the options ask for the
    day and month besides hour and minute. *)
Record LocaleTime : Type := mkLocaleTime {
  date : Z;
  withDayMonth : bool
}.

(** An element of the returned array. The checkpoint built for a route
    without geometry has no [lat] and [lng] properties. *)
Record Checkpoint : Type := mkCheckpoint {
  formattedTime : LocaleTime;
  cp_lat : option Q;
  cp_lng : option Q;
  locationName : string;
  distanceFromStart : Z;
  weather_temp : Temp;
  weather_condition : string
}.

Definition Qltb (x y : Q) : bool := negb (Qle_bool y x).

(** The index into the path for a progress value: [Math.floor] and the
    two clamping statements. *)
Definition pathIndexOf (progress : Q) (length : Z) : Z :=
  let pathIndex := Js.floor (progress * inject_Z (length - 1)) in
  let pathIndex := if (pathIndex <? 0)%Z then 0%Z else pathIndex in
  if (pathIndex >=? length)%Z then (length - 1)%Z else pathIndex.

(** [pathPoints[pathIndex]]: [undefined] outside the array. *)
Definition pointAt (pathPoints : list Point) (pathIndex : Z) : option Point :=
  if (pathIndex <? 0)%Z then None
  else nth_error pathPoints (Z.to_nat pathIndex).

(** [timeOffset += CHECKPOINT_INTERVAL] and the clamping statement. *)
Definition nextOffset (totalDuration timeOffset : Q) : Q :=
  let timeOffset := timeOffset + CHECKPOINT_INTERVAL in
  if Qltb totalDuration timeOffset
     && Qltb (timeOffset - CHECKPOINT_INTERVAL) totalDuration
  then totalDuration
  else timeOffset.

Section Loop.

Context {A : Type}.

(** One pass of the loop body up to [checkpoints.push]: the element to
    push, or [None] when the body leaves the loop at [if (!point) break]. *)
Variable body : Q -> option A.

Variable totalDuration : Q.

(** [while (timeOffset <= totalDuration) { ... }], [fuel] bounding the
    number of passes; [None] only when the bound is reached. *)
Fixpoint whileLoop (fuel : nat) (timeOffset : Q) (checkpoints : list A)
    : option (list A) :=
  match fuel with
  | O => None
  | S fuel' =>
      if Qle_bool timeOffset totalDuration then
        match body timeOffset with
        | None => Some checkpoints
        | Some c =>
            let checkpoints := (checkpoints ++ [c])%list in
            if Qle_bool totalDuration timeOffset then Some checkpoints
            else whileLoop fuel' (nextOffset totalDuration timeOffset)
                           checkpoints
        end
      else Some checkpoints
  end.

End Loop.

(** Passes that suffice for a duration. *)
Definition loopFuel (totalDuration : Q) : nat :=
  Z.to_nat (Qfloor (totalDuration / CHECKPOINT_INTERVAL)) + 3.

(** The offsets at which the loop builds a checkpoint when it never
    leaves at a missing point. *)
Definition timeOffsets (totalDuration : Q) : option (list Q) :=
  whileLoop (fun t => Some t) totalDuration (loopFuel totalDuration) 0 [].

Section Service.

(** The collaborators: the forecast of a point at a date and the place
    name of a point, [None] when the call throws. *)
Variable _getWeather : Q -> Q -> Z -> option Weather.
Variable _getCityName : Q -> Q -> option string.

(** The [try] block of the loop body and the two defaults before it. *)
Definition enrich (lat lng : Q) (futureDate : Z) : Weather * string :=
  match _getWeather lat lng futureDate with
  | None => (mkWeather TempDashes 0, "Estrada")
  | Some weather =>
      match _getCityName lat lng with
      | None => (weather, "Estrada")
      | Some cityName => (weather, cityName)
      end
  end.

(** [new Date(departureTime.getTime() + (timeOffset * 1000))]. *)
Definition futureDateAt (departureTime : Z) (timeOffset : Q) : Z :=
  Js.newDate (inject_Z departureTime + timeOffset * 1000).

(** [totalDuration > 0 ? timeOffset / totalDuration : 0]. *)
Definition progressAt (totalDuration timeOffset : Q) : Q :=
  if Qltb 0 totalDuration then timeOffset / totalDuration else 0.

(** The loop body for one [timeOffset]. *)
Definition checkpointAt (pathPoints : list Point)
    (totalDuration totalDistance : Q) (departureTime : Z) (timeOffset : Q)
    : option Checkpoint :=
  let futureDate := futureDateAt departureTime timeOffset in
  let progress := progressAt totalDuration timeOffset in
  let pathIndex :=
    pathIndexOf progress (Z.of_nat (List.length pathPoints)) in
  match pointAt pathPoints pathIndex with
  | None => None
  | Some (lng, lat) =>
      let (weather, cityName) := enrich lat lng futureDate in
      Some (mkCheckpoint
              (mkLocaleTime futureDate true)
              (Some lat) (Some lng)
              cityName
              (Js.floor ((totalDistance * progress) / 1000))
              (temp weather)
              (Wmo._translateWMO (code weather)))
  end.

(** The single element returned for a route without geometry. *)
Definition departureCheckpoint (departureTime : Z) : Checkpoint :=
  mkCheckpoint (mkLocaleTime departureTime false) None None
               "Local de Partida" 0 TempDashes "Dados indisponíveis".

(** [_processCheckpoints(routeData, departureTime)]. [routeData] is [None]
    for a falsy argument, its [path] is [None] for a missing value or one
    that is not an array. *)
Definition _processCheckpoints (routeData : option RouteData)
    (departureTime : Z) : option (list Checkpoint) :=
  match routeData with
  | None => Some [departureCheckpoint departureTime]
  | Some rd =>
      match path rd with
      | None | Some [] => Some [departureCheckpoint departureTime]
      | Some pathPoints =>
          let totalDuration := Js.numOr (duration rd) 0 in
          let totalDistance := Js.numOr (distance rd) 0 in
          whileLoop
            (checkpointAt pathPoints totalDuration totalDistance
                          departureTime)
            totalDuration (loopFuel totalDuration) 0 []
      end
  end.

(** The checkpoint of an offset when the body does not leave the loop. *)
Definition checkpointOf (pathPoints : list Point)
    (totalDuration totalDistance : Q) (departureTime : Z) (timeOffset : Q)
    : Checkpoint :=
  match checkpointAt pathPoints totalDuration totalDistance departureTime
                     timeOffset with
  | Some c => c
  | None => departureCheckpoint departureTime
  end.

End Service.

(** The date a checkpoint's time text renders. *)
Definition cp_date (c : Checkpoint) : Z := date (formattedTime c).

(** The checkpoint lies on a point of the path. *)
Definition onPath (pathPoints : list Point) (c : Checkpoint) : Prop :=
  exists lng lat,
    In (lng, lat) pathPoints /\ cp_lat c = Some lat /\ cp_lng c = Some lng.

(** Fuel that carries the loop from [timeOffset] to its end. *)
Definition enough (totalDuration : Q) (fuel : nat) (timeOffset : Q) : Prop :=
  totalDuration - timeOffset + 2 * CHECKPOINT_INTERVAL
  <= inject_Z (Z.of_nat fuel) * CHECKPOINT_INTERVAL.

(** A checkpoint with the placeholder place name and no weather. *)
Definition isPlaceholder (c : Checkpoint) : Prop :=
  locationName c = "Local de Partida"
  /\ weather_temp c = TempDashes
  /\ weather_condition c = "Dados indisponíveis".

End Checkpoints.

(* ================================================================= *)
(** ** The loop before the guards (the iteration with the cascade) *)

Module Part001.

Import Route Checkpoints.
Local Open Scope string_scope.
Local Open Scope Q_scope.

(** How a call ends: with a value, with an exception, or, in the model
    only, at the bound on the passes of a loop. *)
Inductive Outcome (A : Type) : Type :=
| Returned (a : A)
| Threw
| OutOfFuel.

Arguments Returned {A} a.
Arguments Threw {A}.
Arguments OutOfFuel {A}.

(** [timeOffset / totalDuration]; [None] when the quotient is not a
    finite number (the divisor is zero). *)
Definition progressAt (totalDuration timeOffset : Q) : option Q :=
  if Qeq_bool totalDuration 0 then None
  else Some (timeOffset / totalDuration).

(** [timeOffset += CHECKPOINT_INTERVAL;
     if (timeOffset > totalDuration) timeOffset = totalDuration]. *)
Definition nextOffset (totalDuration timeOffset : Q) : Q :=
  let timeOffset := timeOffset + CHECKPOINT_INTERVAL in
  if Qltb totalDuration timeOffset then totalDuration else timeOffset.

Section Service.

Variable _getWeather : Q -> Q -> Z -> option Weather.
Variable _getCityName : Q -> Q -> option string.

(** The loop body up to [checkpoints.push]; [None] when it throws: at the
    destructuring of a point that is not there, or in a collaborator. *)
Definition checkpointAt (pathPoints : list Point)
    (totalDuration totalDistance : Q) (departureTime : Z) (timeOffset : Q)
    : option Checkpoint :=
  let futureDate :=
    Js.newDate (inject_Z departureTime + timeOffset * 1000) in
  match progressAt totalDuration timeOffset with
  | None => None
  | Some progress =>
      let pathIndex :=
        Js.floor (progress
                  * inject_Z (Z.of_nat (List.length pathPoints) - 1)) in
      match pointAt pathPoints pathIndex with
      | None => None
      | Some (lng, lat) =>
          match _getWeather lat lng futureDate with
          | None => None
          | Some weather =>
              match _getCityName lat lng with
              | None => None
              | Some cityName =>
                  Some (mkCheckpoint
                          (mkLocaleTime futureDate true)
                          (Some lat) (Some lng)
                          cityName
                          (Js.floor ((totalDistance * progress) / 1000))
                          (temp weather)
                          (Wmo._translateWMO (code weather)))
              end
          end
      end
  end.

(** [while (timeOffset <= totalDuration) { ... }]. *)
Fixpoint whileLoop (pathPoints : list Point)
    (totalDuration totalDistance : Q) (departureTime : Z)
    (fuel : nat) (timeOffset : Q) (checkpoints : list Checkpoint)
    : Outcome (list Checkpoint) :=
  match fuel with
  | O => OutOfFuel
  | S fuel' =>
      if Qle_bool timeOffset totalDuration then
        match checkpointAt pathPoints totalDuration totalDistance
                           departureTime timeOffset with
        | None => Threw
        | Some c =>
            let checkpoints := (checkpoints ++ [c])%list in
            if Qle_bool totalDuration timeOffset then Returned checkpoints
            else whileLoop pathPoints totalDuration totalDistance
                           departureTime fuel'
                           (nextOffset totalDuration timeOffset) checkpoints
        end
      else Returned checkpoints
  end.

(** [_processCheckpoints(routeData, departureTime)] for a route whose
    [duration] and [distance] are numbers and whose [path] is an array of
    points. *)
Definition _processCheckpoints (totalDuration totalDistance : Q)
    (pathPoints : list Point) (departureTime : Z)
    : Outcome (list Checkpoint) :=
  whileLoop pathPoints totalDuration totalDistance departureTime
            (loopFuel totalDuration) 0 [].

End Service.

(** [text.includes(needle)]. *)
Fixpoint includes (needle text : string) : bool :=
  String.prefix needle text
  || match text with
     | EmptyString => false
     | String _ rest => includes needle rest
     end.

(** The constructor's credentials, to be replaced by hand. *)
Definition placeholderKey : string := "SUA_CHAVE_GRAPHHOPPER_AQUI".
Definition placeholderToken : string := "SEU_TOKEN_MAPBOX_AQUI".

(** [!key || key.includes('AQUI')], negated: a credential the cascade
    takes as one. *)
Definition usable (key : option string) : bool :=
  match key with
  | Some text => Js.truthyString text && negb (includes "AQUI" text)
  | None => false
  end.

Section Cascade.

Variable GRAPHHOPPER_KEY : option string.
Variable MAPBOX_TOKEN : option string.
Variable endpoint :
  Cascade.Provider -> Coord -> Coord -> option (list Cascade.RawRoute).

(** [_getRouteWithFallback] of this iteration; the three adapters are
    those of [server.js], word for word. *)
Definition _getRouteWithFallback (start end_ : Coord)
    : Cascade.Attempt RouteData :=
  Cascade.tryCatch (Cascade._getOSRMRoute endpoint start end_) (fun _ =>
  Cascade.tryCatch
    (if negb (usable GRAPHHOPPER_KEY)
     then Cascade.throw "Key ausente"
     else Cascade._getGraphHopperRoute endpoint start end_) (fun _ =>
  Cascade.tryCatch
    (if negb (usable MAPBOX_TOKEN)
     then Cascade.throw "Token ausente"
     else Cascade._getMapboxRoute endpoint start end_) (fun _ =>
  Cascade.throw "Serviços de mapas indisponíveis no momento."))).

End Cascade.

End Part001.

(* ================================================================= *)
(** ** Place names ([_getCityName]) *)

Module Places.

Local Open Scope string_scope.

Definition BRAZIL_STATES : list (string * string) :=
  [ ("Acre", "AC"); ("Alagoas", "AL"); ("Amapá", "AP"); ("Amazonas", "AM");
    ("Bahia", "BA"); ("Ceará", "CE"); ("Distrito Federal", "DF");
    ("Espírito Santo", "ES"); ("Goiás", "GO"); ("Maranhão", "MA");
    ("Mato Grosso", "MT"); ("Mato Grosso do Sul", "MS");
    ("Minas Gerais", "MG"); ("Pará", "PA"); ("Paraíba", "PB");
    ("Paraná", "PR"); ("Pernambuco", "PE"); ("Piauí", "PI");
    ("Rio de Janeiro", "RJ"); ("Rio Grande do Norte", "RN");
    ("Rio Grande do Sul", "RS"); ("Rondônia", "RO"); ("Roraima", "RR");
    ("Santa Catarina", "SC"); ("São Paulo", "SP"); ("Sergipe", "SE");
    ("Tocantins", "TO") ].

(** The property names every object literal inherits. *)
Definition inheritedNames : list string :=
  [ "constructor"; "toString"; "toLocaleString"; "valueOf";
    "hasOwnProperty"; "isPrototypeOf"; "propertyIsEnumerable";
    "__proto__"; "__defineGetter__"; "__defineSetter__";
    "__lookupGetter__"; "__lookupSetter__" ].

(** [res.data.address], field by field: [None] for a missing field. *)
Record Address : Type := mkAddress {
  city : option string;
  town : option string;
  village : option string;
  municipality : option string;
  state : option string
}.

Fixpoint assoc (t : list (string * string)) (key : string) : option string :=
  match t with
  | [] => None
  | (k, v) :: rest => if String.eqb k key then Some v else assoc rest key
  end.

(** [a || b] on texts, [a] possibly missing. *)
Definition textOr (a : option string) (b : string) : string :=
  match a with
  | Some s => if Js.truthyString s then s else b
  | None => b
  end.

Section Service.

(** The text a template literal renders for the inherited property of a
    given name. *)
Variable inheritedText : string -> string.

(** [BRAZIL_STATES[addr.state] || addr.state || ""]. *)
Definition ufOf (addr : Address) : string :=
  match state addr with
  | None => ""
  | Some name =>
      match assoc BRAZIL_STATES name with
      | Some code => code
      | None =>
          if existsb (String.eqb name) inheritedNames
          then inheritedText name
          else name
      end
  end.

(** [_getCityName]: [response] is the address of the reverse geocoding
    answer, [None] when the request fails or the answer has no address
    (the [catch] branch). *)
Definition _getCityName (response : option Address) : string :=
  match response with
  | None => "Trajeto"
  | Some addr =>
      let city :=
        textOr (city addr)
          (textOr (town addr)
             (textOr (village addr)
                (textOr (municipality addr) "Estrada"))) in
      let uf := ufOf addr in
      if Js.truthyString uf then city ++ ", " ++ uf else city
  end.

End Service.

End Places.

(* ================================================================= *)
(** ** The request ([getRouteForecast] and the POST handler) *)

Module Forecast.

Import Route Checkpoints.
Local Open Scope string_scope.

(** [finalResult], which is also what the cache stores and gives back. *)
Record ForecastResult : Type := mkForecastResult {
  routeGeo : option (list Point);
  checkpoints : list Checkpoint;
  fr_provider : string;
  distanceTotal : option Q;
  durationTotal : option Q
}.

(** A request sent to a collaborator on behalf of the caller. *)
Inductive Call : Type :=
| GeocodeCall (query : Js.JsString)
| RouteCall (p : Cascade.Provider).

(** What a request leaves: the table, the calls made, and the result or
    the message of the error thrown. *)
Record Reply : Type := mkReply {
  store : Cache.Db ForecastResult;
  calls : list Call;
  answer : string + ForecastResult
}.

(** What the handler sends. *)
Record HttpReply : Type := mkHttpReply {
  http_store : Cache.Db ForecastResult;
  http_calls : list Call;
  status : Z;
  body : string + ForecastResult
}.

(** Truthiness of a body field that is a text or missing. *)
Definition truthyText (v : option Js.JsString) : bool :=
  match v with
  | Some (_ :: _) => true
  | _ => false
  end.

Section Service.

Variable GRAPHHOPPER_KEY : option string.
Variable MAPBOX_TOKEN : option string.
Variable endpoint :
  Cascade.Provider -> Coord -> Coord -> option (list Cascade.RawRoute).
Variable _getWeather : Q -> Q -> Z -> option Weather.
Variable _getCityName : Q -> Q -> option string.

(** [_getCoordinates]: the coordinates found for a text, or [null]. *)
Variable _getCoordinates : Js.JsString -> option Coord.

(** [getRouteForecast]. [now] is the clock when the request starts,
    [savedAt] the clock when the result is written to the cache. The
    result is [None] only when the checkpoint loop reaches its bound. *)
Definition getRouteForecast (db : Cache.Db ForecastResult)
    (originText destinationText : Js.JsString) (dateString : Key.DateArg)
    (now savedAt : Z) : option Reply :=
  let normOrigin := Key.normalize originText in
  let normDest := Key.normalize destinationText in
  match Key.departureDate dateString now with
  | None => Some (mkReply db [] (inl "Invalid time value"))
  | Some departureDate =>
      let departureIsoKey := Key.departureIsoKey departureDate in
      match Cache.Server._checkCache db normOrigin normDest
                                     departureIsoKey with
      | Some cachedData => Some (mkReply db [] (inr cachedData))
      | None =>
          let geocoded :=
            [GeocodeCall originText; GeocodeCall destinationText] in
          match _getCoordinates originText,
                _getCoordinates destinationText with
          | Some origin, Some destination =>
              match Cascade._getRouteWithFallback
                      GRAPHHOPPER_KEY MAPBOX_TOKEN endpoint
                      origin destination [] with
              | (called, inl e) =>
                  Some (mkReply db (geocoded ++ map RouteCall called)
                                (inl e))
              | (called, inr routeData) =>
                  match _processCheckpoints _getWeather _getCityName
                                            (Some routeData)
                                            departureDate with
                  | None => None
                  | Some cps =>
                      let finalResult :=
                        mkForecastResult (path routeData) cps
                                         (provider routeData)
                                         (distance routeData)
                                         (duration routeData) in
                      Some (mkReply
                              (Cache._saveToCache db normOrigin normDest
                                                  departureIsoKey
                                                  finalResult savedAt)
                              (geocoded ++ map RouteCall called)
                              (inr finalResult))
                  end
              end
          | _, _ =>
              Some (mkReply db geocoded (inl "Cidades não encontradas."))
          end
      end
  end.

(** [app.post('/api/forecast', ...)] for a body whose [origin] and
    [destination] are texts or missing. *)
Definition postForecast (db : Cache.Db ForecastResult)
    (origin destination : option Js.JsString) (date : Key.DateArg)
    (now savedAt : Z) : option HttpReply :=
  match origin, destination with
  | Some originText, Some destinationText =>
      if truthyText origin && truthyText destination then
        match getRouteForecast db originText destinationText date
                               now savedAt with
        | Some reply =>
            Some (mkHttpReply (store reply) (calls reply)
                              (match answer reply with
                               | inr _ => 200
                               | inl _ => 500
                               end)
                              (answer reply))
        | None => None
        end
      else
        Some (mkHttpReply db [] 400
                          (inl "Origem e destino são obrigatórios."))
  | _, _ =>
      Some (mkHttpReply db [] 400 (inl "Origem e destino são obrigatórios."))
  end.

End Service.

End Forecast.

(* ================================================================= *)
(** * Properties *)

(* ================================================================= *)
(** ** Weather code translator *)

Module WmoFacts.

Import Wmo.
Local Open Scope string_scope.
Local Open Scope Z_scope.

Lemma lookup_absent (t : list (Z * string)) (code : Z) :
  ~ In code (map fst t) -> lookup t code = None.
Proof.
  induction t as [|[k v] rest IH]; simpl; intros Hnot.
  - reflexivity.
  - destruct (Z.eqb_spec k code) as [Heq|Hne].
    + exfalso. apply Hnot. now left.
    + apply IH. intros Hin. apply Hnot. now right.
Qed.

Lemma lookup_present (t : list (Z * string)) (code : Z) (label : string) :
  NoDup (map fst t) -> In (code, label) t -> lookup t code = Some label.
Proof.
  induction t as [|[k v] rest IH]; simpl; intros Hnd Hin.
  - contradiction.
  - inversion Hnd as [|? ? Hk Hrest]; subst.
    destruct Hin as [Heq|Hin].
    + inversion Heq; subst. now rewrite Z.eqb_refl.
    + destruct (Z.eqb_spec k code) as [->|Hne].
      * exfalso. apply Hk. change code with (fst (code, label)).
        now apply in_map.
      * now apply IH.
Qed.

Lemma table_keys_distinct : NoDup knownCodes.
Proof.
  unfold knownCodes, table; simpl.
  repeat (constructor; [simpl; intuition discriminate|]).
  constructor.
Qed.

Lemma table_labels_truthy (code : Z) (label : string) :
  In (code, label) table -> Js.truthyString label = true.
Proof.
  unfold table; simpl.
  intros H; repeat (destruct H as [H|H]; [inversion H; reflexivity|]).
  contradiction.
Qed.

(** C8. [_translateWMO] is defined on every integer: a code of the table
    (the sixteen codes listed) gives the label written next to it, and
    any other integer gives "Clima (N)" with N the code in decimal
    digits. *)
Theorem translateWMO_total (code : Z) :
  knownCodes = [0; 1; 2; 3; 45; 48; 51; 53; 55; 61; 63; 65; 80; 81; 95; 96]
  /\ (forall label, In (code, label) table -> _translateWMO code = label)
  /\ (~ In code knownCodes ->
      _translateWMO code = "Clima (" ++ Js.numberToString code ++ ")")
  /\ (exists label, _translateWMO code = label).
Proof.
  split; [reflexivity|]. split; [|split].
  - intros label Hin. unfold _translateWMO.
    rewrite (lookup_present table code label table_keys_distinct Hin).
    now rewrite (table_labels_truthy code label Hin).
  - intros Hnot. unfold _translateWMO.
    now rewrite (lookup_absent table code Hnot).
  - now exists (_translateWMO code).
Qed.

Lemma translateWMO_total_witness :
  _translateWMO 95 = "Tempestade ⚡"
  /\ _translateWMO 7 = "Clima (7)"
  /\ _translateWMO (-4) = "Clima (-4)".
Proof.
  destruct (translateWMO_total 95) as (_ & Hin & _ & _).
  destruct (translateWMO_total 7) as (_ & _ & Hout7 & _).
  destruct (translateWMO_total (-4)) as (_ & _ & Hout4 & _).
  split; [|split].
  - apply Hin. unfold table; simpl. do 14 right. left. reflexivity.
  - apply Hout7. unfold knownCodes, table; simpl. intuition discriminate.
  - apply Hout4. unfold knownCodes, table; simpl. intuition discriminate.
Defined.

End WmoFacts.

(* ================================================================= *)
(** ** Rational arithmetic of the loop *)

Module QFacts.
Local Open Scope Q_scope.

Lemma Qle_bool_false (x y : Q) : Qle_bool x y = false -> y < x.
Proof.
  intros H. apply Qnot_le_lt. intros Hle.
  apply Qle_bool_iff in Hle. congruence.
Qed.

Lemma Qltb_true (x y : Q) : Checkpoints.Qltb x y = true <-> x < y.
Proof.
  unfold Checkpoints.Qltb. split.
  - intros H. apply negb_true_iff in H. now apply Qle_bool_false.
  - intros H. apply negb_true_iff.
    destruct (Qle_bool y x) eqn:E; [|reflexivity].
    apply Qle_bool_iff in E. exfalso. now apply (Qlt_not_le x y).
Qed.

Lemma Qltb_false (x y : Q) : Checkpoints.Qltb x y = false <-> y <= x.
Proof.
  unfold Checkpoints.Qltb. rewrite negb_false_iff. apply Qle_bool_iff.
Qed.

Lemma newDate_comp (x y : Q) : x == y -> Js.newDate x = Js.newDate y.
Proof.
  intros H. unfold Js.newDate.
  assert (Hb : Qle_bool 0 x = Qle_bool 0 y).
  { destruct (Qle_bool 0 x) eqn:Ex, (Qle_bool 0 y) eqn:Ey; try reflexivity.
    - apply Qle_bool_iff in Ex. apply Qle_bool_false in Ey. lra.
    - apply Qle_bool_iff in Ey. apply Qle_bool_false in Ex. lra. }
  rewrite Hb. destruct (Qle_bool 0 y).
  - now apply Qfloor_comp.
  - now apply Qceiling_comp.
Qed.

Lemma newDate_mono (x y : Q) : x <= y -> (Js.newDate x <= Js.newDate y)%Z.
Proof.
  intros H. unfold Js.newDate.
  destruct (Qle_bool 0 x) eqn:Ex, (Qle_bool 0 y) eqn:Ey.
  - now apply Qfloor_resp_le.
  - apply Qle_bool_iff in Ex. apply Qle_bool_false in Ey. lra.
  - apply Qle_bool_false in Ex. apply Qle_bool_iff in Ey.
    apply Z.le_trans with 0%Z.
    + change 0%Z with (Qceiling 0). apply Qceiling_resp_le. lra.
    + change 0%Z with (Qfloor 0). now apply Qfloor_resp_le.
  - now apply Qceiling_resp_le.
Qed.

Lemma newDate_whole (z : Z) : Js.newDate (inject_Z z) = z.
Proof.
  unfold Js.newDate. destruct (Qle_bool 0 (inject_Z z)).
  - apply Qfloor_Z.
  - apply Qceiling_Z.
Qed.

End QFacts.

(* ================================================================= *)
(** ** Path index *)

Module PathIndexFacts.

Import Route Checkpoints QFacts.
Local Open Scope Q_scope.

Lemma floor_progress_bounds (progress : Q) (len : Z) :
  0 <= progress <= 1 -> (1 <= len)%Z ->
  (0 <= Js.floor (progress * inject_Z (len - 1)) <= len - 1)%Z.
Proof.
  intros [H0 H1] Hlen. unfold Js.floor.
  assert (Hl : 0 <= inject_Z (len - 1)).
  { change 0 with (inject_Z 0). rewrite <- Zle_Qle. lia. }
  split.
  - change 0%Z with (Qfloor 0). apply Qfloor_resp_le. nra.
  - rewrite <- (Qfloor_Z (len - 1)) at 2. apply Qfloor_resp_le. nra.
Qed.

Lemma pathIndexOf_clamped (progress : Q) (len : Z) :
  (1 <= len)%Z -> (0 <= pathIndexOf progress len <= len - 1)%Z.
Proof.
  intros Hlen. unfold pathIndexOf.
  destruct (Js.floor (progress * inject_Z (len - 1)) <? 0)%Z eqn:E0.
  - destruct (0 >=? len)%Z eqn:E1; lia.
  - apply Z.ltb_ge in E0.
    destruct (Js.floor (progress * inject_Z (len - 1)) >=? len)%Z eqn:E1.
    + lia.
    + rewrite Z.geb_leb in E1. apply Z.leb_gt in E1. lia.
Qed.

Lemma pointAt_in_range (pathPoints : list Point) (i : Z) :
  (0 <= i < Z.of_nat (List.length pathPoints))%Z ->
  exists p, pointAt pathPoints i = Some p /\ In p pathPoints.
Proof.
  intros [Hlo Hhi]. unfold pointAt.
  destruct (i <? 0)%Z eqn:E; [apply Z.ltb_lt in E; lia|].
  destruct (nth_error pathPoints (Z.to_nat i)) as [p|] eqn:En.
  - exists p. split; [reflexivity|]. eapply nth_error_In; eauto.
  - apply nth_error_None in En. lia.
Qed.

(** C7. For a progress value between 0 and 1 and a path of at least one
    point, [Math.floor(progress * (length - 1))] already lies between 0
    and [length - 1], the two clamping statements leave it as it is, the
    point read at that index exists, and progress 1 gives the last
    index. *)
Theorem pathIndex_within_bounds (progress : Q) (pathPoints : list Point) :
  0 <= progress <= 1 ->
  pathPoints <> [] ->
  let len := Z.of_nat (List.length pathPoints) in
  (0 <= pathIndexOf progress len <= len - 1)%Z
  /\ pathIndexOf progress len = Js.floor (progress * inject_Z (len - 1))
  /\ pathIndexOf 1 len = (len - 1)%Z
  /\ exists p, pointAt pathPoints (pathIndexOf progress len) = Some p.
Proof.
  intros Hp Hne len.
  assert (Hlen : (1 <= len)%Z).
  { unfold len. destruct pathPoints; [congruence|simpl; lia]. }
  pose proof (floor_progress_bounds progress len Hp Hlen) as Hraw.
  assert (Hid : forall q, (0 <= Js.floor (q * inject_Z (len - 1)) <= len - 1)%Z ->
                pathIndexOf q len = Js.floor (q * inject_Z (len - 1))).
  { intros q Hq. unfold pathIndexOf.
    destruct (Js.floor (q * inject_Z (len - 1)) <? 0)%Z eqn:E0;
      [apply Z.ltb_lt in E0; lia|].
    destruct (Js.floor (q * inject_Z (len - 1)) >=? len)%Z eqn:E1;
      [|reflexivity].
    rewrite Z.geb_leb in E1. apply Z.leb_le in E1. lia. }
  split; [now apply pathIndexOf_clamped|].
  split; [now apply Hid|].
  split.
  - rewrite Hid.
    + unfold Js.floor. rewrite <- (Qfloor_Z (len - 1)) at 2.
      apply Qfloor_comp. ring.
    + apply floor_progress_bounds; [lra|assumption].
  - destruct (pointAt_in_range pathPoints (pathIndexOf progress len))
      as (p & Hp' & _).
    + pose proof (pathIndexOf_clamped progress len Hlen). fold len. lia.
    + now exists p.
Qed.

Lemma pathIndex_within_bounds_witness :
  (0 <= pathIndexOf (1 # 2) 4 <= 3)%Z /\ pathIndexOf 1 4 = 3%Z.
Proof.
  destruct (pathIndex_within_bounds (1 # 2) [(0, 0); (1, 1); (2, 2); (3, 3)])
    as (Hb & _ & Hlast & _).
  - split; discriminate.
  - discriminate.
  - split; [exact Hb|exact Hlast].
Defined.

End PathIndexFacts.

(* ================================================================= *)
(** ** The loop of [_processCheckpoints] *)

Module LoopFacts.

Import Route Checkpoints QFacts.
Local Open Scope Q_scope.

Lemma nextOffset_cases (D t : Q) :
  t < D ->
  (nextOffset D t = D /\ D < t + CHECKPOINT_INTERVAL)
  \/ (nextOffset D t = t + CHECKPOINT_INTERVAL
      /\ t + CHECKPOINT_INTERVAL <= D).
Proof.
  intros Ht. unfold nextOffset.
  destruct (Qltb D (t + CHECKPOINT_INTERVAL)) eqn:E1; simpl.
  - apply Qltb_true in E1.
    destruct (Qltb (t + CHECKPOINT_INTERVAL - CHECKPOINT_INTERVAL) D) eqn:E2.
    + left. now split.
    + apply Qltb_false in E2. exfalso. lra.
  - apply Qltb_false in E1. right. now split.
Qed.

Lemma nextOffset_bounds (D t : Q) :
  t < D -> t < nextOffset D t /\ nextOffset D t <= D.
Proof.
  intros Ht. unfold CHECKPOINT_INTERVAL in *.
  destruct (nextOffset_cases D t Ht) as [[-> H]|[-> H]];
    unfold CHECKPOINT_INTERVAL in *; lra.
Qed.

Lemma inject_nat_succ (n : nat) :
  inject_Z (Z.of_nat (S n)) == inject_Z (Z.of_nat n) + 1.
Proof. rewrite Nat2Z.inj_succ. unfold Z.succ. now rewrite inject_Z_plus. Qed.

Lemma inject_nat_nonneg (n : nat) : 0 <= inject_Z (Z.of_nat n).
Proof. change 0 with (inject_Z 0). rewrite <- Zle_Qle. lia. Qed.

Lemma inject_nat_ge_1 (n : nat) : 0 < inject_Z (Z.of_nat n) -> 1 <= inject_Z (Z.of_nat n).
Proof.
  change 0 with (inject_Z 0). change 1 with (inject_Z 1).
  rewrite <- Zlt_Qlt, <- Zle_Qle. lia.
Qed.

Lemma enough_next (D : Q) (fuel : nat) (t : Q) :
  t < D -> enough D (S fuel) t -> enough D fuel (nextOffset D t).
Proof.
  unfold enough, CHECKPOINT_INTERVAL. intros Ht H.
  rewrite inject_nat_succ in H.
  destruct (nextOffset_cases D t Ht) as [[-> Hc]|[-> Hc]];
    unfold CHECKPOINT_INTERVAL in *.
  - assert (H1 : 0 < inject_Z (Z.of_nat fuel)) by nra.
    assert (H2 : 1 < inject_Z (Z.of_nat fuel)) by nra.
    assert (H3 : 2 <= inject_Z (Z.of_nat fuel)).
    { revert H2. change 1 with (inject_Z 1). change 2 with (inject_Z 2).
      rewrite <- Zlt_Qlt, <- Zle_Qle. lia. }
    nra.
  - lra.
Qed.

Lemma enough_positive (D : Q) (fuel : nat) (t : Q) :
  t <= D -> enough D fuel t -> (1 <= fuel)%nat.
Proof.
  unfold enough, CHECKPOINT_INTERVAL. intros Ht H.
  destruct fuel; [|lia]. exfalso.
  change (inject_Z (Z.of_nat 0)) with 0 in H. lra.
Qed.

Lemma loopFuel_enough (D : Q) : 0 <= D -> enough D (loopFuel D) 0.
Proof.
  intros HD. unfold enough, loopFuel, CHECKPOINT_INTERVAL.
  assert (Hf : (0 <= Qfloor (D / 3600))%Z).
  { change 0%Z with (Qfloor 0). apply Qfloor_resp_le.
    apply Qle_shift_div_l; lra. }
  rewrite Nat2Z.inj_add, Z2Nat.id by exact Hf.
  rewrite inject_Z_plus.
  pose proof (Qlt_floor (D / 3600)) as Hlt.
  rewrite inject_Z_plus in Hlt.
  assert (Hd : D == (D / 3600) * 3600) by (field).
  change (inject_Z (Z.of_nat 3)) with 3.
  change (inject_Z 1) with 1 in Hlt.
  nra.
Qed.

Section Generic.

Context {A : Type}.
Variable body : Q -> option A.
Variable D : Q.

(** The loop ends within the fuel, whatever the body does. *)
Lemma whileLoop_terminates (fuel : nat) (t : Q) (acc : list A) :
  (1 <= fuel)%nat -> (D < t \/ enough D fuel t) ->
  exists l, whileLoop body D fuel t acc = Some l.
Proof.
  revert t acc. induction fuel as [|fuel IH]; intros t acc Hpos H; [lia|].
  simpl. destruct (Qle_bool t D) eqn:Ele.
  - apply Qle_bool_iff in Ele.
    destruct H as [H|H]; [exfalso; lra|].
    destruct (body t) as [c|]; [|eauto].
    destruct (Qle_bool D t) eqn:Ege; [eauto|].
    apply Qle_bool_false in Ege.
    pose proof (enough_next D fuel t Ege H) as Hn.
    pose proof (nextOffset_bounds D t Ege) as [_ Hb].
    apply IH; [eapply enough_positive; eauto|now right].
  - eauto.
Qed.

(** What the loop has pushed satisfies any property the body's elements
    have. *)
Lemma whileLoop_Forall (P : A -> Prop) (fuel : nat) (t : Q) (acc l : list A) :
  (forall t c, body t = Some c -> P c) ->
  Forall P acc ->
  whileLoop body D fuel t acc = Some l -> Forall P l.
Proof.
  intros Hbody. revert t acc. induction fuel as [|fuel IH]; intros t acc Hacc;
    simpl; [discriminate|].
  destruct (Qle_bool t D); [|intros [= <-]; exact Hacc].
  destruct (body t) as [c|] eqn:Eb; [|intros [= <-]; exact Hacc].
  assert (Hacc' : Forall P (acc ++ [c])).
  { apply Forall_app. split; [exact Hacc|]. constructor; eauto. }
  destruct (Qle_bool D t); [intros [= <-]; exact Hacc'|].
  now apply IH.
Qed.

(** With a body that never leaves the loop, the loop pushes the body's
    element at each offset of the loop over offsets alone. *)
Lemma whileLoop_map (f : Q -> A) (fuel : nat) (t : Q) (acc : list A) :
  (forall t, body t = Some (f t)) ->
  whileLoop body D fuel t acc
  = option_map (fun offs => acc ++ map f offs)%list
               (whileLoop (fun t => Some t) D fuel t []).
Proof.
  intros Hbody. revert t acc.
  assert (Hshift : forall fuel t (pre : list Q),
             whileLoop (fun t => Some t) D fuel t pre
             = option_map (fun offs => pre ++ offs)%list
                          (whileLoop (fun t => Some t) D fuel t [])).
  { clear. induction fuel as [|fuel IH]; intros t pre; simpl; [reflexivity|].
    destruct (Qle_bool t D); simpl; [|now rewrite app_nil_r].
    destruct (Qle_bool D t); simpl; [reflexivity|].
    rewrite (IH _ (pre ++ [t])%list), (IH _ [t]).
    destruct (whileLoop _ D fuel _ []); simpl; [|reflexivity].
    now rewrite <- app_assoc. }
  induction fuel as [|fuel IH]; intros t acc; simpl; [reflexivity|].
  destruct (Qle_bool t D); simpl; [|now rewrite app_nil_r].
  rewrite Hbody.
  destruct (Qle_bool D t); simpl; [reflexivity|].
  rewrite IH, (Hshift _ _ [t]).
  destruct (whileLoop _ D fuel _ []); simpl; [|reflexivity].
  now rewrite <- app_assoc.
Qed.

End Generic.

End LoopFacts.

Module OffsetFacts.

Import Route Checkpoints QFacts LoopFacts.
Local Open Scope Q_scope.

(** The offsets of a loop started at [t <= D]: [t] first, strictly
    increasing, none beyond [D], and [D] last. *)
Lemma offsets_from (D : Q) (fuel : nat) (t : Q) :
  t <= D -> enough D fuel t ->
  exists rest,
    whileLoop (fun t => Some t) D fuel t [] = Some (t :: rest)
    /\ StronglySorted Qlt (t :: rest)
    /\ Forall (fun x => t <= x /\ x <= D) (t :: rest)
    /\ exists front final, t :: rest = (front ++ [final])%list /\ final == D.
Proof.
  revert t. induction fuel as [|fuel IH]; intros t Ht Hen.
  - pose proof (enough_positive D 0 t Ht Hen). lia.
  - simpl. assert (Ele : Qle_bool t D = true) by now apply Qle_bool_iff.
    rewrite Ele. destruct (Qle_bool D t) eqn:Ege.
    + apply Qle_bool_iff in Ege. exists []. repeat split.
      * repeat constructor.
      * constructor; [|constructor]. split; lra.
      * exists [], t. split; [reflexivity|lra].
    + apply Qle_bool_false in Ege.
      destruct (nextOffset_bounds D t Ege) as [Hlt Hle].
      destruct (IH (nextOffset D t) Hle (enough_next D fuel t Ege Hen))
        as (rest & Hrun & Hsorted & Hall & front & final & Hsplit & Hfinal).
      rewrite (whileLoop_map (fun t => Some t) D (fun t => t) fuel _ [t])
        by reflexivity.
      rewrite Hrun. simpl. rewrite map_id.
      exists (nextOffset D t :: rest). repeat split.
      * constructor; [exact Hsorted|].
        eapply Forall_impl; [|exact Hall]. simpl. intros x [Hx _]. lra.
      * constructor; [split; lra|].
        eapply Forall_impl; [|exact Hall]. simpl. intros x [Hx Hx']. lra.
      * exists (t :: front), final. split; [|exact Hfinal].
        simpl. now rewrite Hsplit.
Qed.

Lemma StronglySorted_map_mono {A B : Type} (R : A -> A -> Prop)
    (S : B -> B -> Prop) (g : A -> B) (l : list A) :
  (forall x y, R x y -> S (g x) (g y)) ->
  StronglySorted R l -> StronglySorted S (map g l).
Proof.
  intros Hg. induction 1 as [|x l Hs IH Hall]; simpl; constructor.
  - exact IH.
  - apply Forall_map. eapply Forall_impl; [|exact Hall]. eauto.
Qed.

End OffsetFacts.

(* ================================================================= *)
(** ** Checkpoints *)

Module CheckpointFacts.

Import Route Checkpoints QFacts LoopFacts OffsetFacts PathIndexFacts.
Local Open Scope Q_scope.

Section Service.

Variable _getWeather : Q -> Q -> Z -> option Weather.
Variable _getCityName : Q -> Q -> option string.

Lemma futureDateAt_zero (departureTime : Z) :
  futureDateAt departureTime 0 = departureTime.
Proof.
  unfold futureDateAt.
  rewrite (newDate_comp (inject_Z departureTime + 0 * 1000)
                        (inject_Z departureTime)) by ring.
  apply newDate_whole.
Qed.

Lemma futureDateAt_mono (departureTime : Z) (t1 t2 : Q) :
  t1 <= t2 ->
  (futureDateAt departureTime t1 <= futureDateAt departureTime t2)%Z.
Proof. intros H. unfold futureDateAt. apply newDate_mono. lra. Qed.

Lemma futureDateAt_comp (departureTime : Z) (t1 t2 : Q) :
  t1 == t2 -> futureDateAt departureTime t1 = futureDateAt departureTime t2.
Proof. intros H. unfold futureDateAt. apply newDate_comp. now rewrite H. Qed.

Lemma futureDateAt_whole (departureTime : Z) (t : Q) (k : Z) :
  t * 1000 == inject_Z k ->
  futureDateAt departureTime t = (departureTime + k)%Z.
Proof.
  intros H. unfold futureDateAt.
  rewrite (newDate_comp _ (inject_Z (departureTime + k))).
  - apply newDate_whole.
  - rewrite inject_Z_plus, H. reflexivity.
Qed.

(** What the body builds, read off the definition. *)
Lemma checkpointAt_inv (pathPoints : list Point) (D dist : Q)
    (departureTime : Z) (t : Q) (c : Checkpoint) :
  checkpointAt _getWeather _getCityName pathPoints D dist departureTime t = Some c ->
  cp_date c = futureDateAt departureTime t
  /\ distanceFromStart c = Js.floor ((dist * progressAt D t) / 1000)
  /\ onPath pathPoints c.
Proof.
  unfold checkpointAt.
  set (i := pathIndexOf _ _).
  destruct (pointAt pathPoints i) as [[lng lat]|] eqn:Ep; [|discriminate].
  destruct (enrich _ _ lat lng _) as [w name].
  intros [= <-]. repeat split.
  exists lng, lat. repeat split.
  unfold pointAt in Ep. destruct (i <? 0)%Z; [discriminate|].
  eapply nth_error_In; eauto.
Qed.

(** On a path with a point the body never leaves the loop. *)
Lemma checkpointAt_total (pathPoints : list Point) (D dist : Q)
    (departureTime : Z) (t : Q) :
  pathPoints <> [] ->
  exists c, checkpointAt _getWeather _getCityName pathPoints D dist departureTime t = Some c.
Proof.
  intros Hne. unfold checkpointAt.
  set (len := Z.of_nat (List.length pathPoints)).
  assert (Hlen : (1 <= len)%Z).
  { unfold len. destruct pathPoints; [congruence|simpl; lia]. }
  destruct (pointAt_in_range pathPoints (pathIndexOf (progressAt D t) len))
    as ([lng lat] & -> & _).
  - pose proof (pathIndexOf_clamped (progressAt D t) len Hlen). fold len. lia.
  - destruct (enrich _ _ lat lng _). eauto.
Qed.

Lemma checkpointAt_checkpointOf (pathPoints : list Point) (D dist : Q)
    (departureTime : Z) (t : Q) :
  pathPoints <> [] ->
  checkpointAt _getWeather _getCityName pathPoints D dist departureTime t
  = Some (checkpointOf _getWeather _getCityName pathPoints D dist departureTime t).
Proof.
  intros Hne. unfold checkpointOf.
  destruct (checkpointAt_total pathPoints D dist departureTime t Hne)
    as (c & ->).
  reflexivity.
Qed.

(** The loop over a path with a point: the checkpoints of the offsets. *)
Lemma processCheckpoints_offsets (rd : RouteData) (p : Point)
    (ps : list Point) (departureTime : Z) :
  path rd = Some (p :: ps) ->
  let D := Js.numOr (duration rd) 0 in
  let dist := Js.numOr (distance rd) 0 in
  _processCheckpoints _getWeather _getCityName (Some rd) departureTime
  = option_map (map (checkpointOf _getWeather _getCityName (p :: ps) D dist
                                 departureTime))
               (timeOffsets D).
Proof.
  intros Hpath D dist. unfold _processCheckpoints, timeOffsets.
  rewrite Hpath. fold D dist.
  rewrite (whileLoop_map _ D (checkpointOf _getWeather _getCityName (p :: ps) D dist
                                 departureTime)).
  - reflexivity.
  - intros t. now apply checkpointAt_checkpointOf.
Qed.

Lemma timeOffsets_total (D : Q) : exists offs, timeOffsets D = Some offs.
Proof.
  unfold timeOffsets. apply whileLoop_terminates.
  - unfold loopFuel. lia.
  - destruct (Qlt_le_dec D 0) as [H|H]; [now left|right].
    now apply loopFuel_enough.
Qed.

Lemma checkpointOf_fields (pathPoints : list Point) (D dist : Q)
    (departureTime : Z) (t : Q) :
  pathPoints <> [] ->
  let c := checkpointOf _getWeather _getCityName pathPoints D dist
                        departureTime t in
  cp_date c = futureDateAt departureTime t
  /\ distanceFromStart c = Js.floor ((dist * progressAt D t) / 1000)
  /\ onPath pathPoints c.
Proof.
  intros Hne c. apply (checkpointAt_inv pathPoints D dist departureTime t).
  now apply checkpointAt_checkpointOf.
Qed.

Lemma map_cp_date (pathPoints : list Point) (D dist : Q) (departureTime : Z)
    (offs : list Q) :
  pathPoints <> [] ->
  map cp_date
      (map (checkpointOf _getWeather _getCityName pathPoints D dist
                         departureTime) offs)
  = map (futureDateAt departureTime) offs.
Proof.
  intros Hne. rewrite map_map. apply map_ext. intros t.
  now apply checkpointOf_fields.
Qed.

Lemma numOr_positive (D : Q) : 0 < D -> Js.numOr (Some D) 0 = D.
Proof.
  intros H. unfold Js.numOr. destruct (Qeq_bool D 0) eqn:E; [|reflexivity].
  apply Qeq_bool_iff in E. lra.
Qed.

(** C3. For a route whose path has a point and whose duration [D] is
    positive, the loop returns checkpoints built at offsets that start at
    0, increase strictly and end at [D]; their dates do not decrease, the
    first is the departure date and the last is the date made from the
    departure time plus [D] seconds, which is the departure time plus
    [1000 * D] milliseconds whenever that is a whole number. *)
Theorem checkpoints_monotone (rd : RouteData) (p : Point) (ps : list Point)
    (D : Q) (departureTime : Z) :
  path rd = Some (p :: ps) -> duration rd = Some D -> 0 < D ->
  exists offs cps,
    _processCheckpoints _getWeather _getCityName (Some rd) departureTime
    = Some cps
    /\ Forall2 (fun t c =>
                  checkpointAt _getWeather _getCityName (p :: ps) D
                               (Js.numOr (distance rd) 0) departureTime t
                  = Some c) offs cps
    /\ StronglySorted Qlt offs
    /\ (exists rest, offs = 0 :: rest)
    /\ (exists front final, offs = (front ++ [final])%list /\ final == D)
    /\ StronglySorted Z.le (map cp_date cps)
    /\ (exists rest, map cp_date cps = departureTime :: rest)
    /\ (exists front,
          map cp_date cps
          = (front ++ [futureDateAt departureTime D])%list)
    /\ (forall k, D * 1000 == inject_Z k ->
          exists front,
            map cp_date cps = (front ++ [(departureTime + k)%Z])%list).
Proof.
  intros Hpath Hdur HD.
  assert (Hne : p :: ps <> []) by discriminate.
  pose proof (processCheckpoints_offsets rd p ps departureTime Hpath) as Hrun.
  cbv zeta in Hrun. rewrite Hdur, (numOr_positive D HD) in Hrun.
  destruct (offsets_from D (loopFuel D) 0) as
    (rest & Hoffs & Hsorted & Hall & front & final & Hsplit & Hfinal).
  { lra. } { apply loopFuel_enough. lra. }
  unfold timeOffsets in Hrun. rewrite Hoffs in Hrun. simpl option_map in Hrun.
  set (f := checkpointOf _getWeather _getCityName (p :: ps) D
                         (Js.numOr (distance rd) 0) departureTime) in *.
  assert (Hlast : map cp_date (map f (0 :: rest))
                  = (map (futureDateAt departureTime) front
                     ++ [futureDateAt departureTime D])%list).
  { unfold f. rewrite map_cp_date by exact Hne.
    rewrite Hsplit, map_app. simpl. f_equal. f_equal.
    now apply futureDateAt_comp. }
  exists (0 :: rest), (map f (0 :: rest)).
  split; [exact Hrun|]. split; [|split; [exact Hsorted|]].
  { clear. induction (0 :: rest) as [|t l IH]; simpl; constructor.
    - apply checkpointAt_checkpointOf. discriminate.
    - exact IH. }
  split; [now exists rest|]. split; [now exists front, final|].
  split; [|split; [|split]].
  - unfold f. rewrite map_cp_date by exact Hne.
    apply (StronglySorted_map_mono Qlt Z.le); [|exact Hsorted].
    intros x y Hxy. apply futureDateAt_mono. lra.
  - unfold f. rewrite map_cp_date by exact Hne. simpl.
    rewrite futureDateAt_zero. eauto.
  - eauto.
  - intros k Hk. rewrite Hlast.
    rewrite (futureDateAt_whole departureTime D k Hk). eauto.
Qed.

(** C10. On a route whose path has a point, the loop returns, and every
    checkpoint it returns carries the longitude and latitude of one of the
    points of that path. *)
Theorem checkpoints_on_path (rd : RouteData) (p : Point) (ps : list Point)
    (departureTime : Z) :
  path rd = Some (p :: ps) ->
  exists cps,
    _processCheckpoints _getWeather _getCityName (Some rd) departureTime
    = Some cps
    /\ Forall (onPath (p :: ps)) cps.
Proof.
  intros Hpath.
  rewrite (processCheckpoints_offsets rd p ps departureTime Hpath).
  cbv zeta. destruct (timeOffsets_total (Js.numOr (duration rd) 0))
    as (offs & ->).
  simpl. eexists. split; [reflexivity|].
  apply Forall_map. apply Forall_forall. intros t _.
  apply checkpointOf_fields. discriminate.
Qed.

(** C9. A route of 21600 seconds and 430000 metres over any path with a
    point, left at 2024-06-01T08:00:00 local time, gives seven
    checkpoints, built at the offsets 0, 3600, 7200, 10800, 14400, 18000
    and 21600; their dates are one hour apart, the first reads 08:00 on
    the local clock and the last 14:00, and their distances from the
    start are 0, 71, 143, 215, 286, 358 and 430 kilometres, which never
    decrease. *)
Theorem six_hour_route_example (zone : Z) (p : Point) (ps : list Point)
    (providerName : string) :
  let rd := mkRouteData (Some 21600) (Some 430000) (Some (p :: ps))
                        providerName in
  let departureTime := Js.fromLocalReading zone 1717228800000 in
  exists cps,
    _processCheckpoints _getWeather _getCityName (Some rd) departureTime
    = Some cps
    /\ Forall2 (fun t c =>
                  checkpointAt _getWeather _getCityName (p :: ps) 21600
                               430000 departureTime t = Some c)
               [0; 3600; 7200; 10800; 14400; 18000; 21600] cps
    /\ List.length cps = 7%nat
    /\ map cp_date cps
       = [ departureTime; departureTime + 3600000;
           departureTime + 7200000; departureTime + 10800000;
           departureTime + 14400000; departureTime + 18000000;
           departureTime + 21600000 ]%Z
    /\ map (fun c => Js.localReading zone (cp_date c)) cps
       = [ "2024-06-01T08:00"; "2024-06-01T09:00"; "2024-06-01T10:00";
           "2024-06-01T11:00"; "2024-06-01T12:00"; "2024-06-01T13:00";
           "2024-06-01T14:00" ]%string
    /\ map distanceFromStart cps = [0; 71; 143; 215; 286; 358; 430]%Z
    /\ StronglySorted Z.le (map distanceFromStart cps).
Proof.
  intros rd departureTime.
  assert (Hne : p :: ps <> []) by discriminate.
  rewrite (processCheckpoints_offsets rd p ps departureTime eq_refl).
  cbv zeta. change (Js.numOr (duration rd) 0) with 21600.
  change (Js.numOr (distance rd) 0) with 430000.
  assert (Hoffs : timeOffsets 21600
                  = Some [0; 3600; 7200; 10800; 14400; 18000; 21600])
    by (vm_compute; reflexivity).
  rewrite Hoffs. simpl option_map.
  set (f := checkpointOf _getWeather _getCityName (p :: ps) 21600 430000
                         departureTime).
  assert (Hdates : map cp_date
                     (map f [0; 3600; 7200; 10800; 14400; 18000; 21600])
                   = [ departureTime + 0; departureTime + 3600000;
                       departureTime + 7200000; departureTime + 10800000;
                       departureTime + 14400000; departureTime + 18000000;
                       departureTime + 21600000 ]%Z).
  { unfold f. rewrite map_cp_date by exact Hne. cbn [map].
    rewrite (futureDateAt_whole departureTime 0 0),
            (futureDateAt_whole departureTime 3600 3600000),
            (futureDateAt_whole departureTime 7200 7200000),
            (futureDateAt_whole departureTime 10800 10800000),
            (futureDateAt_whole departureTime 14400 14400000),
            (futureDateAt_whole departureTime 18000 18000000),
            (futureDateAt_whole departureTime 21600 21600000)
      by reflexivity.
    reflexivity. }
  assert (Hread : forall k,
             Js.localReading zone (departureTime + k)%Z
             = Js.slice0 16 (Js.toISOString (1717228800000 + k))).
  { intros k. unfold Js.localReading, departureTime, Js.fromLocalReading.
    f_equal. f_equal. lia. }
  assert (Hdist : map distanceFromStart
                    (map f [0; 3600; 7200; 10800; 14400; 18000; 21600])
                  = [0; 71; 143; 215; 286; 358; 430]%Z).
  { rewrite map_map.
    rewrite (map_ext _ (fun t => Js.floor ((430000 * progressAt 21600 t)
                                           / 1000))).
    - vm_compute. reflexivity.
    - intros t. unfold f. now apply checkpointOf_fields. }
  exists (map f [0; 3600; 7200; 10800; 14400; 18000; 21600]).
  split; [reflexivity|].
  split; [|split; [reflexivity|split; [|split]]].
  - simpl. repeat (constructor; [now apply checkpointAt_checkpointOf|]).
    constructor.
  - rewrite Hdates. now rewrite Z.add_0_r.
  - transitivity
      (map (Js.localReading zone)
           (map cp_date
                (map f [0; 3600; 7200; 10800; 14400; 18000; 21600]))).
    + symmetry. apply map_map.
    + rewrite Hdates. cbn [map]. rewrite !Hread. vm_compute. reflexivity.
  - split; [exact Hdist|]. rewrite Hdist.
    repeat (constructor; [|repeat constructor; lia]). constructor.
Qed.

(** C2, as the code has it. A route that is missing, or has no path, or
    an empty one, gives the single placeholder checkpoint (place name
    "Local de Partida", no temperature, condition "Dados indisponíveis").
    A route whose path has a point and whose duration is zero or missing
    gives a single checkpoint too, the ordinary one of offset 0: at the
    departure date, on the first point of the path, at distance 0, with
    the place name and the weather the collaborators give for that
    point. *)
Theorem degraded_route_single_checkpoint (departureTime : Z) :
  (forall routeData,
     routeData = None
     \/ (exists rd, routeData = Some rd
                    /\ (path rd = None \/ path rd = Some [])) ->
     _processCheckpoints _getWeather _getCityName routeData departureTime
     = Some [departureCheckpoint departureTime]
     /\ isPlaceholder (departureCheckpoint departureTime))
  /\ (forall rd lng lat ps,
        path rd = Some ((lng, lat) :: ps) ->
        duration rd = None \/ (exists d, duration rd = Some d /\ d == 0) ->
        _processCheckpoints _getWeather _getCityName (Some rd) departureTime
        = Some [ mkCheckpoint
                   (mkLocaleTime departureTime true) (Some lat) (Some lng)
                   (snd (enrich _getWeather _getCityName lat lng
                                departureTime))
                   0
                   (temp (fst (enrich _getWeather _getCityName lat lng
                                      departureTime)))
                   (Wmo._translateWMO
                      (code (fst (enrich _getWeather _getCityName lat lng
                                         departureTime)))) ]).
Proof.
  split.
  - intros routeData H. split; [|now repeat split].
    destruct H as [->|(rd & -> & [H|H])]; simpl; now rewrite ?H.
  - intros rd lng lat ps Hpath Hdur.
    assert (HD : Js.numOr (duration rd) 0 = 0).
    { destruct Hdur as [->|(d & -> & Hd)]; [reflexivity|].
      unfold Js.numOr. apply Qeq_bool_iff in Hd. now rewrite Hd. }
    unfold _processCheckpoints. rewrite Hpath, HD.
    change (loopFuel 0) with 3%nat. simpl whileLoop.
    unfold checkpointAt.
    rewrite futureDateAt_zero.
    change (progressAt 0 0) with 0.
    match goal with
    | |- context [pathIndexOf 0 ?n] =>
        set (len := n); assert (Hidx : pathIndexOf 0 len = 0%Z)
    end.
    { assert (Hlen : (1 <= len)%Z) by (unfold len; simpl; lia).
      assert (Hf : Js.floor (0 * inject_Z (len - 1)) = 0%Z).
      { unfold Js.floor. transitivity (Qfloor 0); [|reflexivity].
        apply Qfloor_comp. ring. }
      unfold pathIndexOf. rewrite Hf. simpl (0 <? 0)%Z. cbv iota.
      destruct (0 >=? len)%Z eqn:E; [|reflexivity].
      rewrite Z.geb_leb in E. apply Z.leb_le in E. lia. }
    rewrite Hidx. unfold pointAt. simpl nth_error. cbv iota beta.
    assert (Hkm : Js.floor (Js.numOr (distance rd) 0 * 0 / 1000) = 0%Z).
    { unfold Js.floor. transitivity (Qfloor 0); [|reflexivity].
      apply Qfloor_comp. field. }
    rewrite Hkm. simpl.
    destruct (enrich _ _ lat lng departureTime) as [w name]. reflexivity.
Qed.

End Service.

Lemma checkpoints_monotone_witness :
  exists cps,
    _processCheckpoints (fun _ _ _ => None) (fun _ _ => None)
      (Some (mkRouteData (Some 5000) (Some 9000) (Some [(0, 0); (1, 1)])
                         "OSRM"%string)) 0
    = Some cps
    /\ StronglySorted Z.le (map cp_date cps)
    /\ (exists rest, map cp_date cps = 0%Z :: rest)
    /\ (exists front, map cp_date cps = (front ++ [5000000%Z])%list).
Proof.
  destruct (checkpoints_monotone (fun _ _ _ => None) (fun _ _ => None)
              (mkRouteData (Some 5000) (Some 9000) (Some [(0, 0); (1, 1)])
                           "OSRM"%string)
              (0, 0) [(1, 1)] 5000 0 eq_refl eq_refl eq_refl)
    as (offs & cps & Hrun & _ & _ & _ & _ & Hsorted & Hfirst & _ & Hlast).
  exists cps. split; [exact Hrun|]. split; [exact Hsorted|].
  split; [exact Hfirst|]. apply (Hlast 5000000%Z). reflexivity.
Defined.

Lemma checkpoints_on_path_witness :
  exists cps,
    _processCheckpoints (fun _ _ _ => None) (fun _ _ => None)
      (Some (mkRouteData (Some 5000) (Some 9000) (Some [(0, 0); (1, 1)])
                         "OSRM"%string)) 0
    = Some cps
    /\ Forall (onPath [(0, 0); (1, 1)]) cps.
Proof.
  exact (checkpoints_on_path (fun _ _ _ => None) (fun _ _ => None)
           (mkRouteData (Some 5000) (Some 9000) (Some [(0, 0); (1, 1)])
                        "OSRM"%string)
           (0, 0) [(1, 1)] 0 eq_refl).
Defined.

Lemma degraded_route_single_checkpoint_witness :
  _processCheckpoints (fun _ _ _ => None) (fun _ _ => None)
    (Some (mkRouteData (Some 900) (Some 1000) (Some []) "OSRM"%string)) 7
  = Some [departureCheckpoint 7]
  /\ exists c,
       _processCheckpoints (fun _ _ _ => None) (fun _ _ => None)
         (Some (mkRouteData (Some 0) (Some 1000)
                            (Some [(3, 4); (5, 6)]) "OSRM"%string)) 7
       = Some [c]
       /\ cp_date c = 7%Z /\ cp_lng c = Some 3 /\ cp_lat c = Some 4.
Proof.
  destruct (degraded_route_single_checkpoint
              (fun _ _ _ => None) (fun _ _ => None) 7) as [Hempty Hzero].
  split.
  - apply Hempty. right. eexists. split; [reflexivity|]. now right.
  - eexists. split.
    + apply (Hzero (mkRouteData (Some 0) (Some 1000)
                                (Some [(3, 4); (5, 6)]) "OSRM"%string)
                   3 4 [(5, 6)] eq_refl).
      right. exists 0. split; reflexivity.
    + repeat split.
Defined.

(** C2 fails as stated. With a forecast of 25 degrees under a clear sky
    and the place name "São Paulo, SP" from the collaborators, a route of
    duration 0 over a one-point path gives one checkpoint that is not the
    placeholder; and a route of duration -1 gives no checkpoint. *)
Lemma degraded_route_counterexample :
  let weather := fun (_ _ : Q) (_ : Z) => Some (mkWeather (TempValue 25) 0) in
  let city := fun (_ _ : Q) => Some "São Paulo, SP"%string in
  let pathPoints := [(- (466 # 10), - (235 # 10))] in
  (exists c,
     _processCheckpoints weather city
       (Some (mkRouteData (Some 0) (Some 0) (Some pathPoints) "OSRM"%string))
       1717228800000
     = Some [c]
     /\ locationName c = "São Paulo, SP"%string
     /\ weather_temp c = TempValue 25
     /\ ~ isPlaceholder c)
  /\ _processCheckpoints weather city
       (Some (mkRouteData (Some (-1)) (Some 0) (Some pathPoints)
                          "OSRM"%string))
       1717228800000
     = Some [].
Proof.
  intros weather city pathPoints. split.
  - eexists. split; [vm_compute; reflexivity|].
    split; [reflexivity|]. split; [reflexivity|].
    intros (Hname & _). discriminate Hname.
  - vm_compute. reflexivity.
Qed.

End CheckpointFacts.

(* ================================================================= *)
(** ** Cascade *)

Module CascadeFacts.

Import Route Cascade.
Local Open Scope string_scope.

Section Service.

Variable GRAPHHOPPER_KEY : option string.
Variable MAPBOX_TOKEN : option string.
Variable endpoint : Provider -> Coord -> Coord -> option (list RawRoute).

(** An adapter adds its own provider to the record of calls, once, and
    its result does not depend on the calls made before. *)
Lemma adapter_run (p : Provider) (start end_ : Coord) (log : list Provider) :
  adapter endpoint p start end_ log
  = ((log ++ [p])%list, outcome endpoint p start end_).
Proof.
  unfold outcome.
  destruct p; simpl; unfold _getOSRMRoute, _getGraphHopperRoute,
    _getMapboxRoute, bind, axiosGet; simpl;
    destruct (endpoint _ start end_) as [[|r rs]|]; simpl; try reflexivity;
    unfold coordinatesOf, bind, ret, throw;
    destruct (r_geometry r); reflexivity.
Qed.

(** A result of an adapter names the adapter's provider. *)
Lemma adapter_provider (p : Provider) (start end_ : Coord) (r : RouteData) :
  outcome endpoint p start end_ = inr r -> provider r = providerName p.
Proof.
  unfold outcome.
  destruct p; simpl; unfold _getOSRMRoute, _getGraphHopperRoute,
    _getMapboxRoute, bind, axiosGet; simpl;
    destruct (endpoint _ start end_) as [[|r0 rs]|]; simpl; try discriminate;
    unfold coordinatesOf, bind, ret, throw;
    destruct (r_geometry r0); simpl; try discriminate;
    intros [= <-]; reflexivity.
Qed.

(** The cascade, attempt by attempt. *)
Lemma cascade_run (start end_ : Coord) :
  _getRouteWithFallback GRAPHHOPPER_KEY MAPBOX_TOKEN endpoint start end_ []
  = match outcome endpoint OSRM start end_ with
    | inr r => ([OSRM], inr r)
    | inl _ =>
        let log2 :=
          if configured GRAPHHOPPER_KEY MAPBOX_TOKEN GraphHopper
          then [OSRM; GraphHopper] else [OSRM] in
        match (if configured GRAPHHOPPER_KEY MAPBOX_TOKEN GraphHopper
               then outcome endpoint GraphHopper start end_
               else inl "Chave GraphHopper não configurada no .env") with
        | inr r => (log2, inr r)
        | inl _ =>
            if configured GRAPHHOPPER_KEY MAPBOX_TOKEN Mapbox then
              match outcome endpoint Mapbox start end_ with
              | inr r => ((log2 ++ [Mapbox])%list, inr r)
              | inl _ => ((log2 ++ [Mapbox])%list, inl routeUnavailable)
              end
            else (log2, inl routeUnavailable)
        end
    end.
Proof.
  pose proof (fun log => adapter_run OSRM start end_ log) as H1.
  pose proof (fun log => adapter_run GraphHopper start end_ log) as H2.
  pose proof (fun log => adapter_run Mapbox start end_ log) as H3.
  cbn [adapter] in H1, H2, H3.
  unfold _getRouteWithFallback, tryCatch, configured, routeUnavailable.
  rewrite H1. cbn [app].
  destruct (outcome endpoint OSRM start end_) as [e1|r1]; [|reflexivity].
  destruct (Js.truthyOptString GRAPHHOPPER_KEY); cbn [negb].
  - rewrite H2. cbn [app].
    destruct (outcome endpoint GraphHopper start end_) as [e2|r2];
      [|reflexivity].
    destruct (Js.truthyOptString MAPBOX_TOKEN); cbn [negb].
    + rewrite H3. cbn [app].
      destruct (outcome endpoint Mapbox start end_); reflexivity.
    + reflexivity.
  - unfold throw at 1.
    destruct (Js.truthyOptString MAPBOX_TOKEN); cbn [negb].
    + rewrite H3. cbn [app].
      destruct (outcome endpoint Mapbox start end_); reflexivity.
    + reflexivity.
Qed.

(** C4. The cascade calls OSRM first, then GraphHopper, then Mapbox, each
    at most once and only while no earlier call has succeeded; a provider
    whose credential is missing is never called; the route returned is
    the one of the last provider called and carries that provider's name.
    In particular, when OSRM fails and GraphHopper is configured and
    succeeds, the cascade returns GraphHopper's route, named
    "GraphHopper", and Mapbox is not called. *)
Theorem cascade_order (start end_ : Coord) :
  let run := _getRouteWithFallback GRAPHHOPPER_KEY MAPBOX_TOKEN endpoint
                                   start end_ [] in
  let configured := configured GRAPHHOPPER_KEY MAPBOX_TOKEN in
  let succeeds p := succeeds endpoint p start end_ in
  fst run = filter (fun p =>
                      configured p
                      && match p with
                         | OSRM => true
                         | GraphHopper => negb (succeeds OSRM)
                         | Mapbox =>
                             negb (succeeds OSRM)
                             && negb (configured GraphHopper
                                      && succeeds GraphHopper)
                         end)
                   [OSRM; GraphHopper; Mapbox]
  /\ (forall p, configured p = false -> ~ In p (fst run))
  /\ (forall r, snd run = inr r ->
        exists front p,
          fst run = (front ++ [p])%list
          /\ outcome endpoint p start end_ = inr r
          /\ provider r = providerName p
          /\ Forall (fun q => succeeds q = false) front)
  /\ (forall e r,
        outcome endpoint OSRM start end_ = inl e ->
        configured GraphHopper = true ->
        outcome endpoint GraphHopper start end_ = inr r ->
        run = ([OSRM; GraphHopper], inr r)
        /\ provider r = "GraphHopper"
        /\ ~ In Mapbox (fst run)).
Proof.
  intros run cfg ok. unfold run, cfg, ok. clear run cfg ok.
  rewrite cascade_run. unfold succeeds, configured.
  pose proof (adapter_provider OSRM start end_) as P1.
  pose proof (adapter_provider GraphHopper start end_) as P2.
  pose proof (adapter_provider Mapbox start end_) as P3.
  destruct (outcome endpoint OSRM start end_) as [e1|r1] eqn:E1;
  destruct (Js.truthyOptString GRAPHHOPPER_KEY) eqn:C2;
  destruct (outcome endpoint GraphHopper start end_) as [e2|r2] eqn:E2;
  destruct (Js.truthyOptString MAPBOX_TOKEN) eqn:C3;
  destruct (outcome endpoint Mapbox start end_) as [e3|r3] eqn:E3;
  cbn -[providerName].
  all: split; [reflexivity|].
  all: split; [intros [| |]; cbn; rewrite ?C2, ?C3; intuition discriminate|].
  all: split.
  all: try (intros r [= <-]).
  all: try (intros e r He Hc Hr;
            first [discriminate He|discriminate Hc|discriminate Hr|idtac]).
  all: try (injection Hr as <-;
            split; [reflexivity|split; [now apply P2|intuition discriminate]]).
  all: first
      [ exists [], OSRM; split; [reflexivity|]; split; [exact E1|];
        split; [now apply P1|constructor]
      | exists [OSRM], GraphHopper; split; [reflexivity|];
        split; [exact E2|]; split; [now apply P2|];
        repeat constructor; now rewrite E1
      | exists [OSRM], Mapbox; split; [reflexivity|];
        split; [exact E3|]; split; [now apply P3|];
        repeat constructor; now rewrite E1
      | exists [OSRM; GraphHopper], Mapbox; split; [reflexivity|];
        split; [exact E3|]; split; [now apply P3|];
        repeat constructor; [now rewrite E1|now rewrite E2] ].
Qed.

(** C5. The cascade throws exactly when every provider it is allowed to
    call fails, and what it throws then is the one error of the last
    attempt; so a failure of one provider alone never reaches the caller
    while another configured provider succeeds. *)
Theorem cascade_failure (start end_ : Coord) :
  let run := _getRouteWithFallback GRAPHHOPPER_KEY MAPBOX_TOKEN endpoint
                                   start end_ [] in
  let configured := configured GRAPHHOPPER_KEY MAPBOX_TOKEN in
  let succeeds p := succeeds endpoint p start end_ in
  ((exists msg, snd run = inl msg)
   <-> (forall p, configured p = true -> succeeds p = false))
  /\ (forall msg, snd run = inl msg -> msg = routeUnavailable)
  /\ ((exists r, snd run = inr r)
      <-> (exists p, configured p = true /\ succeeds p = true)).
Proof.
  intros run cfg ok. unfold run, cfg, ok. clear run cfg ok.
  rewrite cascade_run. unfold succeeds, configured.
  destruct (outcome endpoint OSRM start end_) as [e1|r1] eqn:E1;
  destruct (Js.truthyOptString GRAPHHOPPER_KEY) eqn:C2;
  destruct (outcome endpoint GraphHopper start end_) as [e2|r2] eqn:E2;
  destruct (Js.truthyOptString MAPBOX_TOKEN) eqn:C3;
  destruct (outcome endpoint Mapbox start end_) as [e3|r3] eqn:E3;
  cbn.
  all: split; [split|split; [|split]].
  all: try (intros msg [= <-]; reflexivity).
  all: try (intros msg Hmsg; discriminate Hmsg).
  all: try (intros [msg Hmsg]; discriminate Hmsg).
  all: try (intros _; eexists; reflexivity).
  all: try (intros _ [| |] Hc; cbn in Hc |- *;
            rewrite ?E1, ?E2, ?E3; first [reflexivity|congruence]).
  all: try (intros H;
            first [ specialize (H OSRM eq_refl); cbn in H; rewrite E1 in H;
                    discriminate H
                  | specialize (H GraphHopper eq_refl); cbn in H; rewrite E2 in H;
                    discriminate H
                  | specialize (H Mapbox eq_refl); cbn in H; rewrite E3 in H;
                    discriminate H ]).
  all: try (intros _;
            first [ exists OSRM; cbn; rewrite E1; now split
                  | exists GraphHopper; cbn; rewrite E2; now split
                  | exists Mapbox; cbn; rewrite E3; now split ]).
  all: try (intros [[| |] [Hc Hs]]; cbn in Hc, Hs;
            rewrite ?E1, ?E2, ?E3 in Hs; congruence).
Qed.

End Service.

Lemma cascade_order_witness :
  let endpoint := fun (p : Provider) (_ _ : Coord) =>
    match p with
    | OSRM => None
    | _ => Some [mkRawRoute (Some 7200000) (Some 90000)
                            (Some (Some [(0, 0); (1, 1)]))]
    end in
  let origin := mkCoord 0 0 in
  let destination := mkCoord 1 1 in
  exists r,
    _getRouteWithFallback (Some "key") (Some "token") endpoint
                          origin destination []
    = ([OSRM; GraphHopper], inr r)
    /\ provider r = "GraphHopper".
Proof.
  intros endpoint origin destination.
  destruct (cascade_order (Some "key") (Some "token") endpoint
                          origin destination) as (_ & _ & _ & H).
  eexists.
  destruct (H "request failed" _ eq_refl eq_refl eq_refl) as (Hrun & Hname & _).
  split; [exact Hrun|exact Hname].
Defined.

Lemma cascade_failure_witness :
  exists msg,
    snd (_getRouteWithFallback None (Some "token") (fun _ _ _ => None)
                               (mkCoord 0 0) (mkCoord 1 1) [])
    = inl msg.
Proof.
  destruct (cascade_failure None (Some "token") (fun _ _ _ => None)
                            (mkCoord 0 0) (mkCoord 1 1)) as ([_ H] & _ & _).
  apply H. intros [| |] _; reflexivity.
Defined.

End CascadeFacts.

(* ================================================================= *)
(** ** Calendar *)

Module CalendarFacts.

Import Js.
Local Open Scope Z_scope.

Lemma allFrom_spec (p : positive) (f : Z -> bool) (base : Z) :
  allFrom p f base = true ->
  forall z, base <= z < base + Z.pos p -> f z = true.
Proof.
  revert base. induction p as [q IH|q IH|]; intros base H z Hz;
    cbn [allFrom] in H.
  - apply andb_true_iff in H. destruct H as [H H3].
    apply andb_true_iff in H. destruct H as [H1 H2].
    destruct (Z_lt_ge_dec z (base + Z.pos q)) as [Hlt|Hge];
      [apply (IH base H1); lia|].
    destruct (Z_lt_ge_dec z (base + Z.pos (xO q))) as [Hlt'|Hge'];
      [apply (IH _ H2); lia|].
    replace z with (base + Z.pos (xO q)) by lia. exact H3.
  - apply andb_true_iff in H. destruct H as [H1 H2].
    destruct (Z_lt_ge_dec z (base + Z.pos q)) as [Hlt|Hge];
      [apply (IH base H1); lia|apply (IH _ H2); lia].
  - replace z with base by lia. exact H.
Qed.

Lemma era_checked : allFrom 146097 eraDayOk 0 = true.
Proof. vm_cast_no_check (eq_refl true). Qed.

Lemma civilFromDays_shift (z k : Z) :
  civilFromDays (z + 146097 * k)
  = let '(y, m, d) := civilFromDays z in (y + 400 * k, m, d).
Proof.
  unfold civilFromDays. cbv zeta.
  replace (z + 146097 * k + 719468) with (z + 719468 + k * 146097) by ring.
  rewrite Z.div_add by lia.
  replace (z + 719468 + k * 146097 - ((z + 719468) / 146097 + k) * 146097)
    with (z + 719468 - (z + 719468) / 146097 * 146097) by ring.
  set (doe := z + 719468 - (z + 719468) / 146097 * 146097).
  set (yoe := (doe - doe / 1460 + doe / 36524 - doe / 146096) / 365).
  set (doy := doe - (365 * yoe + yoe / 4 - yoe / 100)).
  set (mp := (5 * doy + 2) / 153).
  destruct ((if mp <? 10 then mp + 3 else mp - 9) <=? 2);
    f_equal; f_equal; ring.
Qed.

Lemma daysFromCivil_shift (y m d k : Z) :
  daysFromCivil (y + 400 * k) m d = daysFromCivil y m d + 146097 * k.
Proof.
  unfold daysFromCivil. cbv zeta.
  replace (if m <=? 2 then y + 400 * k - 1 else y + 400 * k)
    with ((if m <=? 2 then y - 1 else y) + k * 400)
    by (destruct (m <=? 2); ring).
  set (y' := if m <=? 2 then y - 1 else y).
  rewrite Z.div_add by lia.
  replace (y' + k * 400 - (y' / 400 + k) * 400) with (y' - y' / 400 * 400)
    by ring.
  ring.
Qed.

(** What [civilFromDays] gives for any day: a month, a day of the month,
    the day number back, and the year as the place [k] of the day among the
    periods of 400 years and the year [y0] in that period. *)
Lemma civilFromDays_spec (z : Z) :
  let '(y, m, d) := civilFromDays z in
  1 <= m <= 12 /\ 1 <= d <= 31 /\ daysFromCivil y m d = z
  /\ exists k rel y0,
       z + 719468 = 146097 * k + rel /\ 0 <= rel < 146097
       /\ y = y0 + 400 * k /\ 0 <= y0
       /\ (rel < 146037 -> y0 <= 399) /\ (146037 <= rel -> y0 = 400).
Proof.
  set (k := (z + 719468) / 146097).
  set (rel := (z + 719468) mod 146097).
  assert (Hz : z + 719468 = 146097 * k + rel)
    by (apply Z.div_mod; lia).
  assert (Hrel : 0 <= rel < 146097) by (apply Z.mod_pos_bound; lia).
  pose proof (civilFromDays_shift (rel - 719468) k) as Hs.
  replace (rel - 719468 + 146097 * k) with z in Hs by lia.
  rewrite Hs. clear Hs.
  pose proof (allFrom_spec _ _ _ era_checked rel) as Hok.
  unfold eraDayOk in Hok.
  destruct (civilFromDays (rel - 719468)) as [[y0 m] d].
  specialize (Hok ltac:(lia)).
  repeat (apply andb_true_iff in Hok; destruct Hok as [Hok ?]).
  repeat match goal with
         | H : (_ <=? _) = true |- _ => apply Z.leb_le in H
         | H : (_ =? _) = true |- _ => apply Z.eqb_eq in H
         end.
  split; [lia|]. split; [lia|]. split.
  - rewrite daysFromCivil_shift. lia.
  - exists k, rel, y0. repeat split; try lia.
    + intros Hlt. apply Z.ltb_lt in Hlt. rewrite Hlt in *.
      now apply Z.leb_le.
    + intros Hge. apply Z.ltb_ge in Hge. rewrite Hge in *.
      now apply Z.eqb_eq.
Qed.

Lemma civilFromDays_inj (z1 z2 : Z) :
  civilFromDays z1 = civilFromDays z2 -> z1 = z2.
Proof.
  intros H. pose proof (civilFromDays_spec z1) as H1.
  pose proof (civilFromDays_spec z2) as H2. rewrite H in H1.
  destruct (civilFromDays z2) as [[y m] d].
  destruct H1 as (_ & _ & <- & _). now destruct H2 as (_ & _ & <- & _).
Qed.

(** The years 0000 to 9999 are the days -719528 to 2932896. *)
Lemma civilFromDays_year (z : Z) :
  let '(y, _, _) := civilFromDays z in
  (-719528 <= z <= 2932896 <-> 0 <= y <= 9999).
Proof.
  pose proof (civilFromDays_spec z) as H.
  destruct (civilFromDays z) as [[y m] d].
  destruct H as (_ & _ & _ & k & rel & y0 & Hz & Hrel & -> & Hy0 & Hlo & Hhi).
  lia.
Qed.

End CalendarFacts.

(* ================================================================= *)
(** ** Request key *)

Module KeyFacts.

Import Js Key.

Lemma isWhiteSpace_spec (c : N) :
  isWhiteSpace c = true
  <-> (9 <= c <= 13 \/ c = 32 \/ c = 160 \/ c = 5760 \/ 8192 <= c <= 8202
       \/ c = 8232 \/ c = 8233 \/ c = 8239 \/ c = 8287 \/ c = 12288
       \/ c = 65279)%N.
Proof.
  unfold isWhiteSpace.
  rewrite !orb_true_iff, !andb_true_iff, !N.leb_le, !N.eqb_eq. tauto.
Qed.

Lemma isWhiteSpace_lowerUnit (c : N) :
  isWhiteSpace (lowerUnit c) = isWhiteSpace c.
Proof.
  unfold lowerUnit.
  destruct ((65 <=? c) && (c <=? 90))%N eqn:E1.
  - apply andb_true_iff in E1. destruct E1 as [H1 H2].
    apply N.leb_le in H1, H2.
    destruct (isWhiteSpace (c + 32)) eqn:Ea;
      [apply isWhiteSpace_spec in Ea; lia|].
    destruct (isWhiteSpace c) eqn:Eb;
      [apply isWhiteSpace_spec in Eb; lia|reflexivity].
  - destruct ((192 <=? c) && (c <=? 222) && negb (c =? 215))%N eqn:E2;
      [|reflexivity].
    apply andb_true_iff in E2. destruct E2 as [E2 _].
    apply andb_true_iff in E2. destruct E2 as [H1 H2].
    apply N.leb_le in H1, H2.
    destruct (isWhiteSpace (c + 32)) eqn:Ea;
      [apply isWhiteSpace_spec in Ea; lia|].
    destruct (isWhiteSpace c) eqn:Eb;
      [apply isWhiteSpace_spec in Eb; lia|reflexivity].
Qed.

Lemma lowerUnit_idempotent (c : N) : lowerUnit (lowerUnit c) = lowerUnit c.
Proof.
  unfold lowerUnit.
  destruct ((65 <=? c) && (c <=? 90))%N eqn:E1.
  - apply andb_true_iff in E1. destruct E1 as [H1 H2].
    apply N.leb_le in H1, H2.
    assert (Ha : ((65 <=? c + 32) && (c + 32 <=? 90) = false)%N).
    { apply andb_false_iff. right. apply N.leb_gt. lia. }
    assert (Hb : ((192 <=? c + 32) && (c + 32 <=? 222)
                  && negb (c + 32 =? 215) = false)%N).
    { apply andb_false_iff. left. apply andb_false_iff. left.
      apply N.leb_gt. lia. }
    now rewrite Ha, Hb.
  - destruct ((192 <=? c) && (c <=? 222) && negb (c =? 215))%N eqn:E2.
    + apply andb_true_iff in E2. destruct E2 as [E2 _].
      apply andb_true_iff in E2. destruct E2 as [H1 H2].
      apply N.leb_le in H1, H2.
      assert (Ha : ((65 <=? c + 32) && (c + 32 <=? 90) = false)%N).
      { apply andb_false_iff. right. apply N.leb_gt. lia. }
      assert (Hb : ((192 <=? c + 32) && (c + 32 <=? 222)
                    && negb (c + 32 =? 215) = false)%N).
      { apply andb_false_iff. left. apply andb_false_iff. right.
        apply N.leb_gt. lia. }
      now rewrite Ha, Hb.
    + now rewrite E1, E2.
Qed.

Lemma toLowerCase_idempotent (s : JsString) :
  toLowerCase (toLowerCase s) = toLowerCase s.
Proof.
  unfold toLowerCase. rewrite map_map. apply map_ext.
  apply lowerUnit_idempotent.
Qed.

Lemma trimStart_toLowerCase (s : JsString) :
  trimStart (toLowerCase s) = toLowerCase (trimStart s).
Proof.
  unfold toLowerCase.
  induction s as [|c rest IH]; cbn [map trimStart]; [reflexivity|].
  rewrite isWhiteSpace_lowerUnit. destruct (isWhiteSpace c); [exact IH|].
  reflexivity.
Qed.

Lemma trimEnd_toLowerCase (s : JsString) :
  trimEnd (toLowerCase s) = toLowerCase (trimEnd s).
Proof.
  unfold toLowerCase.
  induction s as [|c rest IH]; cbn [map trimEnd]; [reflexivity|].
  rewrite IH, isWhiteSpace_lowerUnit.
  destruct (trimEnd rest); cbn [map]; [|reflexivity].
  destruct (isWhiteSpace c); reflexivity.
Qed.

Lemma trim_toLowerCase (s : JsString) :
  trim (toLowerCase s) = toLowerCase (trim s).
Proof.
  unfold trim. now rewrite trimStart_toLowerCase, trimEnd_toLowerCase.
Qed.

Lemma trimStart_headKept (s : JsString) : headKept (trimStart s).
Proof.
  induction s as [|c rest IH]; simpl; [exact I|].
  destruct (isWhiteSpace c) eqn:E; [exact IH|exact E].
Qed.

Lemma trimStart_fixed (s : JsString) : headKept s -> trimStart s = s.
Proof. destruct s as [|c rest]; simpl; [reflexivity|]. now intros ->. Qed.

Lemma trimEnd_headKept (s : JsString) : headKept s -> headKept (trimEnd s).
Proof.
  destruct s as [|c rest]; simpl; [trivial|]. intros H.
  destruct (trimEnd rest); simpl; [now rewrite H|exact H].
Qed.

Lemma trimEnd_idempotent (s : JsString) : trimEnd (trimEnd s) = trimEnd s.
Proof.
  induction s as [|c rest IH]; simpl; [reflexivity|].
  destruct (trimEnd rest) as [|x kept] eqn:E.
  - destruct (isWhiteSpace c) eqn:Ec; simpl; [reflexivity|now rewrite Ec].
  - change (trimEnd (c :: x :: kept))
      with (match trimEnd (x :: kept) with
            | [] => if isWhiteSpace c then [] else [c]
            | k => c :: k
            end).
    now rewrite IH.
Qed.

Lemma trim_idempotent (s : JsString) : trim (trim s) = trim s.
Proof.
  unfold trim.
  rewrite (trimStart_fixed (trimEnd (trimStart s))).
  - apply trimEnd_idempotent.
  - apply trimEnd_headKept, trimStart_headKept.
Qed.

Lemma trimStart_blank_prefix (pre s : JsString) :
  forallb isWhiteSpace pre = true -> trimStart (pre ++ s) = trimStart s.
Proof.
  induction pre as [|c pre IH]; simpl; [reflexivity|].
  intros H. apply andb_true_iff in H. destruct H as [-> H]. now apply IH.
Qed.

Lemma trimEnd_blank (post : JsString) :
  forallb isWhiteSpace post = true -> trimEnd post = [].
Proof.
  induction post as [|c post IH]; simpl; [reflexivity|].
  intros H. apply andb_true_iff in H. destruct H as [Hc H].
  now rewrite (IH H), Hc.
Qed.

Lemma trimEnd_blank_suffix (s post : JsString) :
  forallb isWhiteSpace post = true -> trimEnd (s ++ post) = trimEnd s.
Proof.
  intros H. induction s as [|c rest IH]; simpl.
  - now apply trimEnd_blank.
  - now rewrite IH.
Qed.

Lemma trimStart_app (s post : JsString) :
  trimStart (s ++ post) = (trimStart s ++ post)%list
  \/ (trimStart s = [] /\ trimStart (s ++ post) = trimStart post).
Proof.
  induction s as [|c rest IH]; simpl.
  - right. now split.
  - destruct (isWhiteSpace c); [exact IH|now left].
Qed.

Lemma trimStart_blank (post : JsString) :
  forallb isWhiteSpace post = true -> trimStart post = [].
Proof.
  intros H. rewrite <- (app_nil_r post).
  now rewrite (trimStart_blank_prefix post [] H).
Qed.

Lemma trim_blank_around (pre s post : JsString) :
  forallb isWhiteSpace pre = true -> forallb isWhiteSpace post = true ->
  trim (pre ++ s ++ post) = trim s.
Proof.
  intros Hpre Hpost. unfold trim.
  rewrite (trimStart_blank_prefix pre _ Hpre).
  destruct (trimStart_app s post) as [->|[-> ->]].
  - now apply trimEnd_blank_suffix.
  - now rewrite (trimStart_blank post Hpost).
Qed.

(** *** The hour key *)

Lemma length_app (a b : string) :
  String.length (a ++ b) = (String.length a + String.length b)%nat.
Proof. induction a as [|ch a IH]; simpl; [reflexivity|now rewrite IH]. Qed.

Lemma length_pad (k : nat) (n : Z) : String.length (pad k n) = k.
Proof.
  revert n. induction k as [|k IH]; intros n; cbn [pad]; [reflexivity|].
  rewrite length_app, IH. simpl. lia.
Qed.

Lemma length_isoYear (y : Z) : (4 <= String.length (isoYear y))%nat.
Proof.
  unfold isoYear.
  destruct ((0 <=? y)%Z && (y <=? 9999)%Z); [now rewrite length_pad|].
  destruct (y <? 0)%Z; rewrite length_app, length_pad; simpl; lia.
Qed.

(** Two strings with a common beginning have the same first [n]
    characters as soon as what follows it has. *)
Lemma slice0_app (n : nat) (a b c : string) :
  slice0 (n - String.length a) b = slice0 (n - String.length a) c ->
  slice0 n (a ++ b) = slice0 n (a ++ c).
Proof.
  unfold slice0. revert n. induction a as [|ch a IH]; intros n; simpl.
  - now rewrite Nat.sub_0_r.
  - destruct n as [|n]; simpl; [reflexivity|].
    intros H. f_equal. now apply IH.
Qed.

Lemma slice0_zero (s : string) : slice0 0 s = ""%string.
Proof. unfold slice0. destruct s; reflexivity. Qed.

(** The first characters of a string that begins with [a], when [a] is
    among them. *)
Lemma slice0_peel (k n : nat) (a b : string) :
  String.length a = k -> slice0 (k + n) (a ++ b) = (a ++ slice0 n b)%string.
Proof.
  intros <-. unfold slice0.
  induction a as [|ch a IH]; simpl; [reflexivity|now rewrite IH].
Qed.

Lemma append_inj (a b c d : string) :
  String.length a = String.length b ->
  (a ++ c)%string = (b ++ d)%string -> a = b /\ c = d.
Proof.
  revert b. induction a as [|x a IH]; intros [|y b] Hlen H;
    try discriminate Hlen; simpl in H.
  - now split.
  - injection H as -> H. injection Hlen as Hlen.
    destruct (IH b Hlen H) as [-> ->]. now split.
Qed.

Lemma digit_inj (a b : Z) : digit a = digit b -> (a mod 10 = b mod 10)%Z.
Proof.
  unfold digit. intros H. apply (f_equal nat_of_ascii) in H.
  pose proof (Z.mod_pos_bound a 10 ltac:(lia)) as Ha.
  pose proof (Z.mod_pos_bound b 10 ltac:(lia)) as Hb.
  rewrite !nat_ascii_embedding in H by lia. lia.
Qed.

(** [pad k] tells apart the numbers of at most [k] digits. *)
Lemma pad_inj (k : nat) (a b : Z) :
  (0 <= a < 10 ^ Z.of_nat k)%Z -> (0 <= b < 10 ^ Z.of_nat k)%Z ->
  pad k a = pad k b -> a = b.
Proof.
  revert a b. induction k as [|k IH]; intros a b Ha Hb H.
  - change (10 ^ Z.of_nat 0)%Z with 1%Z in Ha, Hb. lia.
  - rewrite Nat2Z.inj_succ, Z.pow_succ_r in Ha, Hb by lia.
    cbn [pad] in H.
    apply append_inj in H; [|now rewrite !length_pad].
    destruct H as [Hhigh Hlow].
    assert (Hdigit : digit a = digit b) by congruence.
    clear Hlow. rename Hdigit into Hlow.
    apply digit_inj in Hlow.
    assert (Hd : (a / 10 = b / 10)%Z).
    { apply IH; [| |exact Hhigh]; split;
        first [ apply Z.div_pos; lia
              | apply Z.div_lt_upper_bound; lia ]. }
    rewrite (Z.div_mod a 10), (Z.div_mod b 10) by lia. lia.
Qed.

(** Dates of the same hour have the same key. *)
Lemma departureIsoKey_same_hour (date1 date2 : Z) :
  (date1 / 3600000 = date2 / 3600000)%Z ->
  departureIsoKey date1 = departureIsoKey date2.
Proof.
  intros H. unfold departureIsoKey, toISOString. rewrite H.
  destruct (civilFromDays (date2 / 3600000 / 24)) as [[y m] d].
  pose proof (length_isoYear y) as Hy.
  repeat (apply slice0_app; rewrite ?length_pad; simpl String.length).
  replace (13 - String.length (isoYear y) - 1 - 2 - 1 - 2 - 1 - 2)%nat
    with 0%nat by lia.
  now rewrite !slice0_zero.
Qed.

(** The key of a date of the years 0000 to 9999: year, month, day and
    hour. *)
Lemma departureIsoKey_fields (date y m d : Z) :
  civilFromDays (date / 3600000 / 24) = (y, m, d) ->
  (0 <= y <= 9999)%Z ->
  departureIsoKey date
  = (pad 4 y ++ "-" ++ pad 2 m ++ "-" ++ pad 2 d ++ "T"
     ++ pad 2 ((date / 3600000) mod 24) ++ "")%string.
Proof.
  intros Hc Hy. unfold departureIsoKey, toISOString. cbv zeta. rewrite Hc.
  unfold isoYear.
  replace ((0 <=? y)%Z && (y <=? 9999)%Z) with true
    by (symmetry; apply andb_true_iff; split; apply Z.leb_le; lia).
  rewrite (slice0_peel 4 9) by apply length_pad.
  rewrite (slice0_peel 1 8 "-") by reflexivity.
  rewrite (slice0_peel 2 6) by apply length_pad.
  rewrite (slice0_peel 1 5 "-") by reflexivity.
  rewrite (slice0_peel 2 3) by apply length_pad.
  rewrite (slice0_peel 1 2 "T") by reflexivity.
  rewrite (slice0_peel 2 0) by apply length_pad.
  now rewrite slice0_zero.
Qed.

(** The key of a date of another year: sign, year, month and day. *)
Lemma departureIsoKey_long_year (date y m d : Z) :
  civilFromDays (date / 3600000 / 24) = (y, m, d) ->
  ~ (0 <= y <= 9999)%Z ->
  departureIsoKey date
  = ((if (y <? 0)%Z then "-" ++ pad 6 (- y) else "+" ++ pad 6 y)
     ++ "-" ++ pad 2 m ++ "-" ++ pad 2 d ++ "")%string.
Proof.
  intros Hc Hy. unfold departureIsoKey, toISOString. cbv zeta. rewrite Hc.
  unfold isoYear.
  replace ((0 <=? y)%Z && (y <=? 9999)%Z) with false.
  2:{ symmetry. apply andb_false_iff.
      destruct (Z_lt_ge_dec y 0);
        [left; apply Z.leb_gt; lia|right; apply Z.leb_gt; lia]. }
  rewrite (slice0_peel 7 6).
  2:{ destruct (y <? 0)%Z; rewrite length_app, length_pad; reflexivity. }
  rewrite (slice0_peel 1 5 "-") by reflexivity.
  rewrite (slice0_peel 2 3) by apply length_pad.
  rewrite (slice0_peel 1 2 "-") by reflexivity.
  rewrite (slice0_peel 2 0) by apply length_pad.
  now rewrite slice0_zero.
Qed.

Lemma fourDigitYear_days (date : Z) :
  fourDigitYear date
  <-> (-719528 <= date / 3600000 / 24 <= 2932896)%Z.
Proof.
  unfold fourDigitYear. rewrite Z.div_div by lia.
  change (3600000 * 24)%Z with 86400000%Z.
  pose proof (Z.div_mod date 86400000 ltac:(lia)) as Hd.
  pose proof (Z.mod_pos_bound date 86400000 ltac:(lia)) as Hm.
  lia.
Qed.

(** In the years 0000 to 9999 the key tells the hours apart. *)
Lemma departureIsoKey_inj (date1 date2 : Z) :
  fourDigitYear date1 -> fourDigitYear date2 ->
  departureIsoKey date1 = departureIsoKey date2 ->
  (date1 / 3600000 = date2 / 3600000)%Z.
Proof.
  intros R1 R2 H.
  apply fourDigitYear_days in R1. apply fourDigitYear_days in R2.
  set (h1 := (date1 / 3600000)%Z) in *. set (h2 := (date2 / 3600000)%Z) in *.
  pose proof (CalendarFacts.civilFromDays_spec (h1 / 24)) as S1.
  pose proof (CalendarFacts.civilFromDays_spec (h2 / 24)) as S2.
  pose proof (CalendarFacts.civilFromDays_year (h1 / 24)) as Y1.
  pose proof (CalendarFacts.civilFromDays_year (h2 / 24)) as Y2.
  destruct (civilFromDays (h1 / 24)) as [[y1 m1] d1] eqn:C1.
  destruct (civilFromDays (h2 / 24)) as [[y2 m2] d2] eqn:C2.
  apply Y1 in R1. apply Y2 in R2.
  rewrite (departureIsoKey_fields date1 y1 m1 d1 C1 R1) in H.
  rewrite (departureIsoKey_fields date2 y2 m2 d2 C2 R2) in H.
  fold h1 h2 in H.
  destruct S1 as (Hm1 & Hd1 & Hback1 & _).
  destruct S2 as (Hm2 & Hd2 & Hback2 & _).
  pose proof (Z.mod_pos_bound h1 24 ltac:(lia)) as Hh1.
  pose proof (Z.mod_pos_bound h2 24 ltac:(lia)) as Hh2.
  apply append_inj in H; [|now rewrite !length_pad].
  destruct H as [Hy H].
  apply (append_inj "-" "-") in H; [|reflexivity]. destruct H as [_ H].
  apply append_inj in H; [|now rewrite !length_pad].
  destruct H as [Hm H].
  apply (append_inj "-" "-") in H; [|reflexivity]. destruct H as [_ H].
  apply append_inj in H; [|now rewrite !length_pad].
  destruct H as [Hd H].
  apply (append_inj "T" "T") in H; [|reflexivity]. destruct H as [_ H].
  apply append_inj in H; [|now rewrite !length_pad].
  destruct H as [Hh _].
  apply (pad_inj 4) in Hy;
    [|change (10 ^ Z.of_nat 4)%Z with 10000%Z; lia ..].
  apply (pad_inj 2) in Hm; [|change (10 ^ Z.of_nat 2)%Z with 100%Z; lia ..].
  apply (pad_inj 2) in Hd; [|change (10 ^ Z.of_nat 2)%Z with 100%Z; lia ..].
  apply (pad_inj 2) in Hh; [|change (10 ^ Z.of_nat 2)%Z with 100%Z; lia ..].
  subst y2 m2 d2.
  assert (Hday : (h1 / 24 = h2 / 24)%Z) by congruence.
  rewrite (Z.div_mod h1 24), (Z.div_mod h2 24) by lia. lia.
Qed.

(** In the other years the key has no hour: dates of the same day have
    the same key. *)
Lemma departureIsoKey_same_day (date1 date2 : Z) :
  ~ fourDigitYear date1 ->
  (date1 / 86400000 = date2 / 86400000)%Z ->
  departureIsoKey date1 = departureIsoKey date2.
Proof.
  intros R1 Hday.
  assert (Hd : (date1 / 3600000 / 24 = date2 / 3600000 / 24)%Z)
    by (rewrite !Z.div_div by lia; exact Hday).
  assert (R2 : ~ fourDigitYear date2).
  { rewrite fourDigitYear_days in R1 |- *. now rewrite <- Hd. }
  rewrite fourDigitYear_days in R1, R2.
  pose proof (CalendarFacts.civilFromDays_year (date1 / 3600000 / 24)) as Y1.
  pose proof (CalendarFacts.civilFromDays_year (date2 / 3600000 / 24)) as Y2.
  destruct (civilFromDays (date1 / 3600000 / 24)) as [[y1 m1] d1] eqn:C1.
  destruct (civilFromDays (date2 / 3600000 / 24)) as [[y2 m2] d2] eqn:C2.
  rewrite (departureIsoKey_long_year date1 y1 m1 d1 C1) by tauto.
  rewrite (departureIsoKey_long_year date2 y2 m2 d2 C2) by tauto.
  rewrite Hd, C2 in C1. injection C1 as <- <- <-. reflexivity.
Qed.

Lemma keyMatches_spec {Payload : Type} (row : Cache.Row Payload)
    (k : NormalizedKey) :
  Cache.keyMatches (normOrigin k) (normDest k) (isoKey k) row = true
  <-> utf8 (Cache.origin_text row) = utf8 (normOrigin k)
      /\ utf8 (Cache.dest_text row) = utf8 (normDest k)
      /\ Cache.trip_date row = isoKey k.
Proof.
  unfold Cache.keyMatches, Cache.textEqb.
  rewrite !andb_true_iff, String.eqb_eq.
  destruct (list_eq_dec N.eq_dec (utf8 (Cache.origin_text row))
                        (utf8 (normOrigin k)));
  destruct (list_eq_dec N.eq_dec (utf8 (Cache.dest_text row))
                        (utf8 (normDest k)));
    intuition congruence.
Qed.

Section Identity.

(** [String.prototype.toLowerCase], by three of its properties: doing it
    twice is doing it once; it leaves white space at the ends white space
    and the rest not, so that it commutes with [trim]; and on a text of
    Basic Latin and Latin-1 it is [lowerUnit] on every code unit. *)
Variable lower : JsString -> JsString.
Hypothesis lower_twice : forall s, lower (lower s) = lower s.
Hypothesis lower_trim : forall s, trim (lower s) = lower (trim s).
Hypothesis lower_latin1 :
  forall s, forallb (fun c => c <? 256)%N s = true ->
            lower s = map lowerUnit s.

(** C6, as the code has it. Normalising twice is normalising once; texts
    with one lower case have one normal form, and so have a text and the
    same text wrapped in white space: " São Paulo ", "SÃO PAULO" and
    "são paulo" have the normal form "são paulo". Two requests with a
    valid date have the same key exactly when their normalised origins,
    their normalised destinations and their date keys are equal. Dates of
    the same UTC hour have the same date key; for dates of the years 0000
    to 9999 the converse holds, so that there two requests have the same
    key exactly when origins and destinations agree after normalisation
    and the dates fall in the same UTC hour; for a date of another year
    the date key stops at the day, and all dates of that day have it. A
    cache row is selected for a key exactly when its origin and
    destination columns have the UTF-8 text of the key's and its date
    column is the key's. *)
Theorem request_key_identity :
  (forall s, normalizeWith lower (normalizeWith lower s)
             = normalizeWith lower s)
  /\ (forall s s', lower s = lower s' ->
                   normalizeWith lower s = normalizeWith lower s')
  /\ (forall pre s post,
        forallb isWhiteSpace pre = true ->
        forallb isWhiteSpace post = true ->
        normalizeWith lower (pre ++ s ++ post) = normalizeWith lower s)
  /\ (normalizeWith lower
        [32; 83; 227; 111; 32; 80; 97; 117; 108; 111; 32]%N
      = [115; 227; 111; 32; 112; 97; 117; 108; 111]%N
      /\ normalizeWith lower [83; 195; 79; 32; 80; 65; 85; 76; 79]%N
         = [115; 227; 111; 32; 112; 97; 117; 108; 111]%N
      /\ normalizeWith lower [115; 227; 111; 32; 112; 97; 117; 108; 111]%N
         = [115; 227; 111; 32; 112; 97; 117; 108; 111]%N)
  /\ (forall o1 d1 a1 now1 t1 o2 d2 a2 now2 t2,
        departureDate a1 now1 = Some t1 ->
        departureDate a2 now2 = Some t2 ->
        (requestKeyWith lower o1 d1 a1 now1
         = requestKeyWith lower o2 d2 a2 now2
         <-> normalizeWith lower o1 = normalizeWith lower o2
             /\ normalizeWith lower d1 = normalizeWith lower d2
             /\ departureIsoKey t1 = departureIsoKey t2))
  /\ (forall t1 t2,
        (t1 / 3600000 = t2 / 3600000)%Z ->
        departureIsoKey t1 = departureIsoKey t2)
  /\ (forall t1 t2,
        fourDigitYear t1 -> fourDigitYear t2 ->
        (departureIsoKey t1 = departureIsoKey t2
         <-> (t1 / 3600000 = t2 / 3600000)%Z))
  /\ (forall o1 d1 a1 now1 t1 o2 d2 a2 now2 t2,
        departureDate a1 now1 = Some t1 -> fourDigitYear t1 ->
        departureDate a2 now2 = Some t2 -> fourDigitYear t2 ->
        (requestKeyWith lower o1 d1 a1 now1
         = requestKeyWith lower o2 d2 a2 now2
         <-> normalizeWith lower o1 = normalizeWith lower o2
             /\ normalizeWith lower d1 = normalizeWith lower d2
             /\ (t1 / 3600000 = t2 / 3600000)%Z))
  /\ (forall t1 t2,
        ~ fourDigitYear t1 ->
        (t1 / 86400000 = t2 / 86400000)%Z ->
        departureIsoKey t1 = departureIsoKey t2)
  /\ (forall (Payload : Type) (row : Cache.Row Payload) k,
        Cache.keyMatches (normOrigin k) (normDest k) (isoKey k) row = true
        <-> utf8 (Cache.origin_text row) = utf8 (normOrigin k)
            /\ utf8 (Cache.dest_text row) = utf8 (normDest k)
            /\ Cache.trip_date row = isoKey k).
Proof.
  assert (Hkey : forall o1 d1 a1 now1 t1 o2 d2 a2 now2 t2,
             departureDate a1 now1 = Some t1 ->
             departureDate a2 now2 = Some t2 ->
             (requestKeyWith lower o1 d1 a1 now1
              = requestKeyWith lower o2 d2 a2 now2
              <-> normalizeWith lower o1 = normalizeWith lower o2
                  /\ normalizeWith lower d1 = normalizeWith lower d2
                  /\ departureIsoKey t1 = departureIsoKey t2)).
  { intros o1 d1 a1 now1 t1 o2 d2 a2 now2 t2 H1 H2.
    unfold requestKeyWith. rewrite H1, H2. split.
    - intros [= Ho Hd Hi]. now repeat split.
    - intros (-> & -> & ->). reflexivity. }
  assert (Hhour : forall t1 t2,
             fourDigitYear t1 -> fourDigitYear t2 ->
             (departureIsoKey t1 = departureIsoKey t2
              <-> (t1 / 3600000 = t2 / 3600000)%Z)).
  { intros t1 t2 R1 R2. split.
    - now apply departureIsoKey_inj.
    - apply departureIsoKey_same_hour. }
  split.
  { intros s. unfold normalizeWith.
    now rewrite lower_trim, trim_idempotent, lower_twice. }
  split.
  { intros s s' H. unfold normalizeWith.
    now rewrite <- !lower_trim, H. }
  split.
  { intros pre s post Hpre Hpost. unfold normalizeWith.
    now rewrite trim_blank_around. }
  split.
  { unfold normalizeWith. repeat split;
      (rewrite lower_latin1; [reflexivity|reflexivity]). }
  split; [exact Hkey|].
  split; [exact departureIsoKey_same_hour|].
  split; [exact Hhour|].
  split.
  { intros o1 d1 a1 now1 t1 o2 d2 a2 now2 t2 H1 R1 H2 R2.
    rewrite (Hkey o1 d1 a1 now1 t1 o2 d2 a2 now2 t2 H1 H2).
    now rewrite (Hhour t1 t2 R1 R2). }
  split; [exact departureIsoKey_same_day|].
  intros Payload row k. apply keyMatches_spec.
Qed.

End Identity.

(** C6 fails as stated. Two requests for the same places, departing at
    00:00 and at 05:00 UTC of the first of January of the year 10000,
    have one key: the date key of both is "+010000-01-01", which stops at
    the day. *)
Lemma request_key_identity_counterexample :
  requestKey [114; 105; 111]%N [115; 112]%N (GoodDate 253402300800000) 0
  = requestKey [114; 105; 111]%N [115; 112]%N (GoodDate 253402318800000) 0
  /\ (253402300800000 / 3600000 <> 253402318800000 / 3600000)%Z
  /\ departureIsoKey 253402300800000 = "+010000-01-01"%string
  /\ toISOString 253402318800000 = "+010000-01-01T05:00:00.000Z"%string.
Proof.
  split; [vm_compute; reflexivity|].
  split; [vm_compute; discriminate|].
  split; vm_compute; reflexivity.
Qed.

Lemma request_key_identity_witness :
  normalize ([32; 9] ++ [82; 105; 111] ++ [32])%N = normalize [82; 105; 111]%N
  /\ requestKey [32; 82; 105; 111]%N [83; 80]%N (GoodDate 1717228800000) 0
     = requestKey [114; 105; 111; 32]%N [115; 112; 32]%N NoDate 1717230000000
  /\ (1717228800000 / 3600000 = 1717230000000 / 3600000)%Z.
Proof.
  destruct (request_key_identity toLowerCase toLowerCase_idempotent
              trim_toLowerCase (fun s _ => eq_refl))
    as (_ & _ & Hblank & _ & Hkey & Hhour & Hinj & Hboth & _).
  assert (Hsame : requestKey [32; 82; 105; 111]%N [83; 80]%N
                             (GoodDate 1717228800000) 0
                  = requestKey [114; 105; 111; 32]%N [115; 112; 32]%N
                               NoDate 1717230000000).
  { apply (Hkey _ _ (GoodDate 1717228800000) 0%Z 1717228800000%Z
                _ _ NoDate 1717230000000%Z 1717230000000%Z);
      [reflexivity|reflexivity|].
    split; [reflexivity|split; [reflexivity|]].
    apply Hhour. reflexivity. }
  split; [apply Hblank; reflexivity|].
  split; [exact Hsame|].
  apply (Hboth [32; 82; 105; 111]%N [83; 80]%N (GoodDate 1717228800000) 0%Z
               1717228800000%Z [114; 105; 111; 32]%N [115; 112; 32]%N
               NoDate 1717230000000%Z 1717230000000%Z);
    [reflexivity|unfold fourDigitYear; lia|reflexivity
    |unfold fourDigitYear; lia|exact Hsame].
Defined.

End KeyFacts.

(* ================================================================= *)
(** ** Cache *)

Module CacheFacts.

Import Cache.
Local Open Scope Z_scope.

Section Store.

Context {Payload : Type}.

Lemma textEqb_refl (a : Js.JsString) : textEqb a a = true.
Proof.
  unfold textEqb.
  destruct (list_eq_dec N.eq_dec (Js.utf8 a) (Js.utf8 a)); congruence.
Qed.

Lemma keyMatches_own (r : Row Payload) :
  keyMatches (origin_text r) (dest_text r) (trip_date r) r = true.
Proof.
  unfold keyMatches. now rewrite !textEqb_refl, String.eqb_refl.
Qed.

(** [newest] picks a row of the list, none of the list being more
    recent. *)
Lemma newest_spec (rows : list (Row Payload)) :
  match newest rows with
  | None => rows = []
  | Some r =>
      In r rows /\ Forall (fun r' => created_at r' <= created_at r) rows
  end.
Proof.
  induction rows as [|r rest IH]; simpl; [reflexivity|].
  destruct (newest rest) as [r'|].
  - destruct IH as [Hin Hall].
    destruct (created_at r <? created_at r') eqn:E.
    + apply Z.ltb_lt in E. split; [now right|]. constructor; [lia|exact Hall].
    + apply Z.ltb_ge in E. split; [now left|]. constructor; [lia|].
      eapply Forall_impl; [|exact Hall]. simpl. intros; lia.
  - subst rest. split; [now left|]. repeat constructor. lia.
Qed.

(** The earlier iteration of [_checkCache]: a miss when no row has the
    key or when the most recent row of the key is one hour old or more;
    otherwise the data of a most recent row of the key. *)
Lemma part000_checkCache_spec (now : Z) (rows : list (Row Payload))
    (origin dest : Js.JsString) (dateKey : string) :
  let hits := selectRows origin dest dateKey rows in
  (hits = [] ->
   Part000._checkCache now (DbRows rows) origin dest dateKey = None)
  /\ (Forall (fun r => CACHE_TTL <= now - created_at r) hits ->
      Part000._checkCache now (DbRows rows) origin dest dateKey = None)
  /\ (forall payload,
        Part000._checkCache now (DbRows rows) origin dest dateKey
        = Some payload ->
        exists r,
          In r rows
          /\ keyMatches origin dest dateKey r = true
          /\ data r = payload
          /\ now - created_at r < CACHE_TTL
          /\ Forall (fun r' => created_at r' <= created_at r) hits).
Proof.
  intros hits. unfold Part000._checkCache. fold hits.
  pose proof (newest_spec hits) as Hn.
  destruct (newest hits) as [r|].
  - destruct Hn as [Hin Hall]. split; [|split].
    + intros H. rewrite H in Hin. contradiction.
    + intros Hold. rewrite Forall_forall in Hold. specialize (Hold r Hin).
      destruct (now - created_at r <? CACHE_TTL) eqn:E; [|reflexivity].
      apply Z.ltb_lt in E. simpl in Hold. lia.
    + intros payload.
      destruct (now - created_at r <? CACHE_TTL) eqn:E; [|discriminate].
      intros [= <-]. apply Z.ltb_lt in E.
      unfold hits, selectRows in Hin. apply filter_In in Hin.
      exists r. tauto.
  - split; [reflexivity|split; [reflexivity|discriminate]].
Qed.

(** C1, on [server.js]. A table whose only row has the key looked up and
    was created one hour and one second before the lookup: [_checkCache]
    of [server.js] answers with the data of that row, where the earlier
    iteration answers with a miss. And with two rows of the same key,
    [server.js] answers with the data of the first of the table, the
    older one, where the earlier iteration answers with the newer. *)
Theorem server_checkCache_serves_expired (payload older newer : Payload)
    (origin dest : Js.JsString) (dateKey : string) (now : Z) :
  let expired :=
    mkRow 1 origin dest dateKey payload (now - CACHE_TTL - 1000) in
  let first := mkRow 1 origin dest dateKey older (now - 2000) in
  let second := mkRow 2 origin dest dateKey newer (now - 1000) in
  Server._checkCache (DbRows [expired]) origin dest dateKey = Some payload
  /\ Part000._checkCache now (DbRows [expired]) origin dest dateKey = None
  /\ Server._checkCache (DbRows [first; second]) origin dest dateKey
     = Some older
  /\ Part000._checkCache now (DbRows [first; second]) origin dest dateKey
     = Some newer.
Proof.
  intros expired first second.
  pose proof (keyMatches_own expired) as He.
  pose proof (keyMatches_own first) as H1.
  pose proof (keyMatches_own second) as H2.
  unfold Server._checkCache, Part000._checkCache, selectRows.
  cbn [filter]. cbn [origin_text dest_text trip_date expired first second]
    in He, H1, H2.
  rewrite He, H1, H2. cbn [newest created_at data expired first second].
  assert (E1 : (now - (now - CACHE_TTL - 1000) <? CACHE_TTL) = false).
  { apply Z.ltb_ge. unfold CACHE_TTL. lia. }
  assert (E2 : (now - 2000 <? now - 1000) = true) by (apply Z.ltb_lt; lia).
  assert (E3 : (now - (now - 1000) <? CACHE_TTL) = true).
  { apply Z.ltb_lt. unfold CACHE_TTL. lia. }
  rewrite E1, E2. cbv beta iota. cbn [created_at data second]. rewrite E3.
  repeat split.
Qed.

End Store.

End CacheFacts.

(* ================================================================= *)
(** ** Cache: saving and looking up *)

Module CacheRoundTrip.

Import Cache.
Local Open Scope Z_scope.

Section Store.

Context {Payload : Type}.

Lemma keyMatches_iff (origin dest : Js.JsString) (dateKey : string)
    (r : Row Payload) :
  keyMatches origin dest dateKey r = true
  <-> Js.utf8 (origin_text r) = Js.utf8 origin
      /\ Js.utf8 (dest_text r) = Js.utf8 dest /\ trip_date r = dateKey.
Proof.
  unfold keyMatches, textEqb.
  rewrite !andb_true_iff, String.eqb_eq.
  destruct (list_eq_dec N.eq_dec (Js.utf8 (origin_text r)) (Js.utf8 origin));
  destruct (list_eq_dec N.eq_dec (Js.utf8 (dest_text r)) (Js.utf8 dest));
    intuition congruence.
Qed.

Lemma selectRows_saved (rows : list (Row Payload))
    (origin dest : Js.JsString) (dateKey : string) (r : Row Payload) :
  selectRows origin dest dateKey (rows ++ [r])
  = (selectRows origin dest dateKey rows
     ++ if keyMatches origin dest dateKey r then [r] else [])%list.
Proof. unfold selectRows. now rewrite filter_app. Qed.

Lemma newest_with_latest (rows : list (Row Payload)) (r : Row Payload) :
  Forall (fun r' => created_at r' < created_at r) rows ->
  newest (rows ++ [r]) = Some r.
Proof.
  induction 1 as [|r' rows Hlt Hall IH]; simpl; [reflexivity|].
  rewrite IH. apply Z.ltb_lt in Hlt. now rewrite Hlt.
Qed.

(** X1. In [server.js], looking a key up right after saving under it
    gives the saved data only if the table had no row of the key; if it
    had one, the lookup still gives the data of the first such row: a
    later save never replaces what the cache serves for a key. *)
Theorem server_save_then_check (rows : list (Row Payload))
    (origin dest : Js.JsString) (dateKey : string) (payload : Payload)
    (now : Z) :
  Server._checkCache
    (_saveToCache (DbRows rows) origin dest dateKey payload now)
    origin dest dateKey
  = match Server._checkCache (DbRows rows) origin dest dateKey with
    | Some served => Some served
    | None => Some payload
    end.
Proof.
  unfold Server._checkCache, _saveToCache.
  rewrite selectRows_saved.
  destruct (selectRows origin dest dateKey rows) as [|first rest];
    [|reflexivity].
  cbn [app].
  assert (H : keyMatches origin dest dateKey
                (mkRow (Z.of_nat (List.length rows) + 1) origin dest dateKey
                       payload now) = true)
    by (apply keyMatches_iff; repeat split).
  now rewrite H.
Qed.

(** X2. The table tells keys apart by the UTF-8 text of origin and
    destination and by the date key. Saving under one key changes no
    lookup of a key that differs from it in one of these, in [server.js]
    and in the earlier iteration alike. Two keys that agree in them are
    one key for the table, also when their code units differ, as a lone
    surrogate and U+FFFD do: after a save, a lookup of either that missed
    before gives the saved data. *)
Theorem save_leaves_other_keys (db : Db Payload)
    (origin dest : Js.JsString) (dateKey : string) (payload : Payload)
    (now : Z) (origin' dest' : Js.JsString) (dateKey' : string) (now' : Z) :
  ((Js.utf8 origin, Js.utf8 dest, dateKey)
   <> (Js.utf8 origin', Js.utf8 dest', dateKey') ->
   Server._checkCache (_saveToCache db origin dest dateKey payload now)
                      origin' dest' dateKey'
   = Server._checkCache db origin' dest' dateKey'
   /\ Part000._checkCache now'
        (_saveToCache db origin dest dateKey payload now)
        origin' dest' dateKey'
      = Part000._checkCache now' db origin' dest' dateKey')
  /\ ((Js.utf8 origin, Js.utf8 dest, dateKey)
      = (Js.utf8 origin', Js.utf8 dest', dateKey') ->
      forall rows,
        db = DbRows rows ->
        Server._checkCache db origin' dest' dateKey' = None ->
        Server._checkCache (_saveToCache db origin dest dateKey payload now)
                           origin' dest' dateKey'
        = Some payload).
Proof.
  split.
  - intros Hne. destruct db as [|rows]; [now split|].
    unfold Server._checkCache, Part000._checkCache, _saveToCache.
    rewrite selectRows_saved.
    destruct (keyMatches origin' dest' dateKey' _) eqn:E.
    + apply keyMatches_iff in E. cbn in E. destruct E as (Ho & Hd & Hk).
      contradiction Hne. now rewrite Ho, Hd, Hk.
    + now rewrite app_nil_r.
  - intros [= Ho Hd Hk] rows -> Hmiss.
    unfold Server._checkCache, _saveToCache in *.
    rewrite selectRows_saved.
    destruct (selectRows origin' dest' dateKey' rows) as [|first rest];
      [|discriminate Hmiss].
    cbn [app].
    assert (H : keyMatches origin' dest' dateKey'
                  (mkRow (Z.of_nat (List.length rows) + 1) origin dest
                         dateKey payload now) = true)
      by (apply keyMatches_iff; cbn; now repeat split).
    now rewrite H.
Qed.


(** X3. In the earlier iteration, when every row of a key is older than
    the save, a lookup of the key after the save gives the saved data
    for one hour from the save, and a miss from then on. *)
Theorem part000_save_then_check (rows : list (Row Payload))
    (origin dest : Js.JsString) (dateKey : string) (payload : Payload)
    (now now' : Z) :
  Forall (fun r => created_at r < now)
         (selectRows origin dest dateKey rows) ->
  Part000._checkCache now'
    (_saveToCache (DbRows rows) origin dest dateKey payload now)
    origin dest dateKey
  = if now' - now <? CACHE_TTL then Some payload else None.
Proof.
  intros Hold. unfold Part000._checkCache, _saveToCache.
  rewrite selectRows_saved.
  set (saved := mkRow (Z.of_nat (List.length rows) + 1) origin dest dateKey
                      payload now).
  assert (H : keyMatches origin dest dateKey saved = true)
    by (apply keyMatches_iff; repeat split).
  rewrite H, (newest_with_latest _ saved Hold). reflexivity.
Qed.


(** X4. The lookup of the earlier iteration misses when the table has no
    row of the key, and when every row of the key is an hour old or
    more; and when it hits, what it gives is the data of a row of the
    key that is younger than an hour and that no row of the key is more
    recent than. *)
Theorem part000_lookup (now : Z) (rows : list (Row Payload))
    (origin dest : Js.JsString) (dateKey : string) :
  let hits := selectRows origin dest dateKey rows in
  (hits = [] ->
   Part000._checkCache now (DbRows rows) origin dest dateKey = None)
  /\ (Forall (fun r => CACHE_TTL <= now - created_at r) hits ->
      Part000._checkCache now (DbRows rows) origin dest dateKey = None)
  /\ (forall payload,
        Part000._checkCache now (DbRows rows) origin dest dateKey
        = Some payload ->
        exists r,
          In r rows
          /\ keyMatches origin dest dateKey r = true
          /\ data r = payload
          /\ now - created_at r < CACHE_TTL
          /\ Forall (fun r' => created_at r' <= created_at r) hits).
Proof.
  intros hits. unfold Part000._checkCache. fold hits.
  pose proof (CacheFacts.newest_spec hits) as Hnewest.
  destruct (newest hits) as [r|].
  - destruct Hnewest as [Hin Hall]. split; [|split].
    + intros Hnone. rewrite Hnone in Hin. contradiction.
    + intros Hold. rewrite Forall_forall in Hold.
      specialize (Hold r Hin). cbn beta in Hold.
      destruct (now - created_at r <? CACHE_TTL) eqn:E; [|reflexivity].
      apply Z.ltb_lt in E. lia.
    + intros payload.
      destruct (now - created_at r <? CACHE_TTL) eqn:E; [|discriminate].
      intros [= <-]. apply Z.ltb_lt in E.
      unfold hits, selectRows in Hin. apply filter_In in Hin.
      exists r. tauto.
  - split; [reflexivity|split; [reflexivity|discriminate]].
Qed.

End Store.

Lemma save_leaves_other_keys_witness :
  Server._checkCache
    (_saveToCache (DbRows []) [114; 105; 111]%N [115; 112]%N
                  "2024-06-01T08"%string 5 100)
    [114; 105; 111]%N [115; 112]%N "2024-06-01T09"%string
  = None
  /\ Server._checkCache
       (_saveToCache (DbRows []) [55296]%N [115; 112]%N
                     "2024-06-01T08"%string 5 100)
       [65533]%N [115; 112]%N "2024-06-01T08"%string
     = Some 5.
Proof.
  split.
  - destruct (save_leaves_other_keys (Payload := Z) (DbRows [])
                [114; 105; 111]%N [115; 112]%N "2024-06-01T08"%string 5 100
                [114; 105; 111]%N [115; 112]%N "2024-06-01T09"%string 0)
      as [H _].
    destruct H as [H _]; [discriminate|exact H].
  - destruct (save_leaves_other_keys (Payload := Z) (DbRows [])
                [55296]%N [115; 112]%N "2024-06-01T08"%string 5 100
                [65533]%N [115; 112]%N "2024-06-01T08"%string 0)
      as [_ H].
    apply (H eq_refl [] eq_refl eq_refl).
Defined.

Lemma part000_save_then_check_witness :
  Part000._checkCache 3600099
    (_saveToCache (DbRows [mkRow 1 [97]%N [98]%N "2024-06-01T08"%string 1 50])
                  [97]%N [98]%N "2024-06-01T08"%string 2 100)
    [97]%N [98]%N "2024-06-01T08"%string
  = Some 2
  /\ Part000._checkCache 3600100
       (_saveToCache
          (DbRows [mkRow 1 [97]%N [98]%N "2024-06-01T08"%string 1 50])
          [97]%N [98]%N "2024-06-01T08"%string 2 100)
       [97]%N [98]%N "2024-06-01T08"%string
     = None.
Proof.
  split.
  - apply (part000_save_then_check
             [mkRow 1 [97]%N [98]%N "2024-06-01T08"%string 1 50]
             [97]%N [98]%N "2024-06-01T08"%string 2 100 3600099).
    repeat constructor.
  - apply (part000_save_then_check
             [mkRow 1 [97]%N [98]%N "2024-06-01T08"%string 1 50]
             [97]%N [98]%N "2024-06-01T08"%string 2 100 3600100).
    repeat constructor.
Defined.

Lemma part000_lookup_witness :
  let rows :=
    [ mkRow 1 [97]%N [98]%N "k"%string 10 100;
      mkRow 2 [97]%N [98]%N "k"%string 20 300;
      mkRow 3 [97]%N [99]%N "k"%string 30 400 ] in
  (exists r,
     In r rows /\ data r = 20 /\ 500 - created_at r < CACHE_TTL
     /\ Forall (fun r' => created_at r' <= created_at r)
               (selectRows [97]%N [98]%N "k"%string rows))
  /\ Part000._checkCache 3600300 (DbRows rows) [97]%N [98]%N "k"%string
     = None.
Proof.
  intros rows.
  destruct (part000_lookup 500 rows [97]%N [98]%N "k"%string)
    as (_ & _ & Hhit).
  destruct (part000_lookup 3600300 rows [97]%N [98]%N "k"%string)
    as (_ & Hold & _).
  split.
  - destruct (Hhit 20 eq_refl) as (r & Hin & _ & Hd & Hfresh & Hall).
    exists r. repeat split; assumption.
  - apply Hold. repeat constructor; vm_compute; discriminate.
Defined.

End CacheRoundTrip.

(* ================================================================= *)
(** ** Checkpoints: how many, where and when *)

Module OffsetCount.

Import Route Checkpoints QFacts LoopFacts OffsetFacts.
Local Open Scope Q_scope.

Lemma inject_Z_pred (z : Z) : inject_Z (z - 1) == inject_Z z - 1.
Proof.
  unfold Z.sub. rewrite inject_Z_plus, inject_Z_opp. reflexivity.
Qed.

Lemma Qceiling_unique (x : Q) (z : Z) :
  inject_Z z - 1 < x -> x <= inject_Z z -> Qceiling x = z.
Proof.
  intros Hlo Hhi.
  pose proof (Qle_ceiling x) as H1.
  pose proof (Qceiling_lt x) as H2.
  rewrite inject_Z_pred in H2.
  assert (Ha : inject_Z z < inject_Z (Qceiling x) + 1) by lra.
  assert (Hb : inject_Z (Qceiling x) < inject_Z z + 1) by lra.
  change 1 with (inject_Z 1) in Ha, Hb.
  rewrite <- inject_Z_plus in Ha, Hb.
  rewrite <- Zlt_Qlt in Ha, Hb. lia.
Qed.

Lemma Qceiling_succ (x : Q) : Qceiling (x + 1) = (Qceiling x + 1)%Z.
Proof.
  apply Qceiling_unique.
  - pose proof (Qceiling_lt x) as H. rewrite inject_Z_pred in H.
    rewrite inject_Z_plus. change (inject_Z 1) with 1 in *. lra.
  - pose proof (Qle_ceiling x) as H.
    rewrite inject_Z_plus. change (inject_Z 1) with 1. lra.
Qed.

Lemma Qceiling_nonneg (x : Q) : 0 <= x -> (0 <= Qceiling x)%Z.
Proof.
  intros H. change 0%Z with (Qceiling 0). now apply Qceiling_resp_le.
Qed.

(** The offsets of a loop started at [t <= D] are [t], [t + 3600],
    [t + 2 * 3600] and so on, all but the last one, and there are
    [ceiling ((D - t) / 3600) + 1] of them. *)
Lemma offsets_count (D : Q) (fuel : nat) (t : Q) (offs : list Q) :
  t <= D ->
  whileLoop (fun t => Some t) D fuel t [] = Some offs ->
  List.length offs
  = (Z.to_nat (Qceiling ((D - t) / CHECKPOINT_INTERVAL)) + 1)%nat
  /\ forall i x,
       nth_error offs i = Some x -> (S i < List.length offs)%nat ->
       x == t + inject_Z (Z.of_nat i) * CHECKPOINT_INTERVAL.
Proof.
  unfold CHECKPOINT_INTERVAL.
  revert t offs. induction fuel as [|fuel IH]; intros t offs Ht;
    [discriminate|].
  simpl. assert (Ele : Qle_bool t D = true) by now apply Qle_bool_iff.
  rewrite Ele. destruct (Qle_bool D t) eqn:Ege.
  - apply Qle_bool_iff in Ege. intros [= <-]. split.
    + rewrite (Qceiling_comp ((D - t) / 3600) 0); [reflexivity|].
      assert (D - t == 0) by lra. rewrite H. reflexivity.
    + intros i x _ Hi. simpl in Hi. lia.
  - apply Qle_bool_false in Ege.
    rewrite (whileLoop_map (fun t => Some t) D (fun t => t) fuel _ [t])
      by reflexivity.
    destruct (whileLoop (fun t => Some t) D fuel (nextOffset D t) [])
      as [rest|] eqn:Erun; [|discriminate].
    simpl. rewrite map_id. intros [= <-].
    destruct (nextOffset_bounds D t Ege) as [Hlt Hle].
    destruct (IH (nextOffset D t) rest Hle Erun) as [Hlen Hnth].
    destruct (nextOffset_cases D t Ege) as [[Hn Hc]|[Hn Hc]];
      unfold CHECKPOINT_INTERVAL in Hc, Hn; rewrite Hn in Hlen, Hnth.
    + assert (Hz : Qceiling ((D - D) / 3600) = 0%Z).
      { rewrite (Qceiling_comp ((D - D) / 3600) 0); [reflexivity|].
        assert (H : D - D == 0) by ring. rewrite H. reflexivity. }
      rewrite Hz in Hlen.
      assert (Ho : Qceiling ((D - t) / 3600) = 1%Z).
      { apply Qceiling_unique.
        - change (inject_Z 1 - 1) with (1 - 1).
          apply Qlt_shift_div_l; lra.
        - change (inject_Z 1) with 1. apply Qle_shift_div_r; lra. }
      split.
      * simpl. rewrite Hlen, Ho. reflexivity.
      * intros [|i] x Hx Hi.
        -- injection Hx as <-. change (inject_Z (Z.of_nat 0)) with 0. ring.
        -- simpl in Hi. rewrite Hlen in Hi. simpl in Hi. lia.
    + assert (Hshift : (D - t) / 3600 == (D - (t + 3600)) / 3600 + 1)
        by field.
      assert (Hnn : (0 <= Qceiling ((D - (t + 3600)) / 3600))%Z).
      { apply Qceiling_nonneg. apply Qle_shift_div_l; lra. }
      split.
      * simpl. rewrite Hlen.
        rewrite (Qceiling_comp _ _ Hshift), Qceiling_succ.
        rewrite Z2Nat.inj_add by lia. simpl (Z.to_nat 1). lia.
      * intros [|i] x Hx Hi.
        -- injection Hx as <-. change (inject_Z (Z.of_nat 0)) with 0. ring.
        -- simpl in Hx, Hi. rewrite (Hnth i x Hx) by lia.
           rewrite (inject_nat_succ i). ring.
Qed.

End OffsetCount.

Module CheckpointShape.

Import Route Checkpoints QFacts LoopFacts OffsetFacts PathIndexFacts.
Import CheckpointFacts OffsetCount.
Local Open Scope Q_scope.

Lemma numOr_some (D : Q) : Js.numOr (Some D) 0 == D.
Proof.
  unfold Js.numOr. destruct (Qeq_bool D 0) eqn:E; [|reflexivity].
  apply Qeq_bool_iff in E. now rewrite E.
Qed.

Lemma timeOffsets_negative (D : Q) : D < 0 -> timeOffsets D = Some [].
Proof.
  intros H. unfold timeOffsets, loopFuel. rewrite Nat.add_comm. simpl.
  destruct (Qle_bool 0 D) eqn:E; [|reflexivity].
  apply Qle_bool_iff in E. lra.
Qed.

Lemma nth_error_map_inv {A B : Type} (f : A -> B) (l : list A) (i : nat)
    (b : B) :
  nth_error (map f l) i = Some b ->
  exists a, nth_error l i = Some a /\ b = f a.
Proof.
  revert i. induction l as [|a l IH]; intros [|i]; simpl; try discriminate.
  - intros [= <-]. eauto.
  - apply IH.
Qed.

Section Service.

Variable _getWeather : Q -> Q -> Z -> option Weather.
Variable _getCityName : Q -> Q -> option string.

(** The loop returns on every route whose path has a point. *)
Lemma checkpoints_total_on_path (rd : RouteData) (p : Point)
    (ps : list Point) (departureTime : Z) :
  path rd = Some (p :: ps) ->
  exists cps,
    _processCheckpoints _getWeather _getCityName (Some rd) departureTime
    = Some cps.
Proof.
  intros Hpath. unfold _processCheckpoints. rewrite Hpath.
  apply whileLoop_terminates.
  - unfold loopFuel. lia.
  - destruct (Qlt_le_dec (Js.numOr (duration rd) 0) 0) as [H|H];
      [now left|right].
    now apply loopFuel_enough.
Qed.

(** The run of the loop on a route with a point and a duration. *)
Lemma run_with_duration (rd : RouteData) (p : Point) (ps : list Point)
    (D : Q) (departureTime : Z) :
  path rd = Some (p :: ps) -> duration rd = Some D ->
  exists T offs,
    T == D
    /\ timeOffsets T = Some offs
    /\ _processCheckpoints _getWeather _getCityName (Some rd) departureTime
       = Some (map (checkpointOf _getWeather _getCityName (p :: ps) T
                                 (Js.numOr (distance rd) 0) departureTime)
                   offs).
Proof.
  intros Hpath Hdur.
  pose proof (processCheckpoints_offsets _getWeather _getCityName rd p ps
                departureTime Hpath) as Hrun.
  cbv zeta in Hrun. rewrite Hdur in Hrun.
  destruct (timeOffsets_total (Js.numOr (Some D) 0)) as (offs & Hoffs).
  exists (Js.numOr (Some D) 0), offs.
  split; [apply numOr_some|]. split; [exact Hoffs|].
  now rewrite Hrun, Hoffs.
Qed.

(** X5. On a route whose path has a point the loop returns
    [ceiling (D / 3600) + 1] checkpoints when the duration [D] is zero or
    more, and none at all when it is negative. *)
Theorem checkpoint_count (rd : RouteData) (p : Point) (ps : list Point)
    (D : Q) (departureTime : Z) :
  path rd = Some (p :: ps) -> duration rd = Some D ->
  exists cps,
    _processCheckpoints _getWeather _getCityName (Some rd) departureTime
    = Some cps
    /\ (D < 0 -> cps = [])
    /\ (0 <= D ->
        List.length cps
        = (Z.to_nat (Qceiling (D / CHECKPOINT_INTERVAL)) + 1)%nat).
Proof.
  intros Hpath Hdur.
  destruct (run_with_duration rd p ps D departureTime Hpath Hdur)
    as (T & offs & HT & Hoffs & Hrun).
  eexists. split; [exact Hrun|]. split.
  - intros Hneg. rewrite timeOffsets_negative in Hoffs by lra.
    now injection Hoffs as <-.
  - intros Hpos. rewrite length_map.
    destruct (offsets_count T (loopFuel T) 0 offs) as [Hlen _];
      [lra|exact Hoffs|].
    rewrite Hlen. f_equal. f_equal. apply Qceiling_comp.
    rewrite HT. unfold CHECKPOINT_INTERVAL. field.
Qed.

(** X6. Every checkpoint but the last is dated a whole number of hours
    after the departure: the checkpoint of index [i] at
    [departureTime + i * 3600000] milliseconds. *)
Theorem checkpoints_on_the_hour (rd : RouteData) (p : Point)
    (ps : list Point) (D : Q) (departureTime : Z) :
  path rd = Some (p :: ps) -> duration rd = Some D ->
  exists cps,
    _processCheckpoints _getWeather _getCityName (Some rd) departureTime
    = Some cps
    /\ forall i c,
         nth_error cps i = Some c -> (S i < List.length cps)%nat ->
         cp_date c = (departureTime + Z.of_nat i * 3600000)%Z.
Proof.
  intros Hpath Hdur.
  destruct (run_with_duration rd p ps D departureTime Hpath Hdur)
    as (T & offs & HT & Hoffs & Hrun).
  eexists. split; [exact Hrun|].
  intros i c Hc Hi. rewrite length_map in Hi.
  destruct (nth_error_map_inv _ _ _ _ Hc) as (x & Hx & ->).
  destruct (Qlt_le_dec T 0) as [Hneg|Hpos].
  - rewrite timeOffsets_negative in Hoffs by exact Hneg.
    injection Hoffs as <-. simpl in Hi. lia.
  - destruct (offsets_count T (loopFuel T) 0 offs Hpos Hoffs) as [_ Hnth].
    specialize (Hnth i x Hx Hi). unfold CHECKPOINT_INTERVAL in Hnth.
    destruct (checkpointOf_fields _getWeather _getCityName (p :: ps) T
                (Js.numOr (distance rd) 0) departureTime x) as (-> & _);
      [discriminate|].
    apply futureDateAt_whole.
    rewrite Hnth, inject_Z_mult. change (inject_Z 3600000) with 3600000.
    ring.
Qed.


Lemma progressAt_positive (D t : Q) : 0 < D -> progressAt D t = t / D.
Proof.
  intros H. unfold progressAt. apply Qltb_true in H. now rewrite H.
Qed.

Lemma Qdiv_le_mono (D x y : Q) : 0 < D -> x <= y -> x / D <= y / D.
Proof.
  intros HD Hxy. unfold Qdiv.
  pose proof (Qinv_lt_0_compat D HD) as Hinv. nra.
Qed.

(** The run of the loop on a route of positive duration: the offsets are
    those of [offsets_from]. *)
Lemma run_positive (rd : RouteData) (p : Point) (ps : list Point)
    (D : Q) (departureTime : Z) :
  path rd = Some (p :: ps) -> duration rd = Some D -> 0 < D ->
  exists rest,
    _processCheckpoints _getWeather _getCityName (Some rd) departureTime
    = Some (map (checkpointOf _getWeather _getCityName (p :: ps) D
                              (Js.numOr (distance rd) 0) departureTime)
                (0 :: rest))
    /\ StronglySorted Qlt (0 :: rest)
    /\ Forall (fun x => 0 <= x /\ x <= D) (0 :: rest)
    /\ exists front final,
         0 :: rest = (front ++ [final])%list /\ final == D.
Proof.
  intros Hpath Hdur HD.
  pose proof (processCheckpoints_offsets _getWeather _getCityName rd p ps
                departureTime Hpath) as Hrun.
  cbv zeta in Hrun. rewrite Hdur, (numOr_positive D HD) in Hrun.
  destruct (offsets_from D (loopFuel D) 0) as (rest & Hoffs & Hrest);
    [lra|apply loopFuel_enough; lra|].
  unfold timeOffsets in Hrun. rewrite Hoffs in Hrun.
  exists rest. split; [exact Hrun|exact Hrest].
Qed.

(** X7. On a route of positive duration and with a distance of zero or
    more, the distances of the checkpoints from the start never decrease
    along the list, the first is 0 and the last is the whole number of
    kilometres in the total distance. *)
Theorem distances_monotone (rd : RouteData) (p : Point) (ps : list Point)
    (D dist : Q) (departureTime : Z) :
  path rd = Some (p :: ps) -> duration rd = Some D -> 0 < D ->
  distance rd = Some dist -> 0 <= dist ->
  exists cps,
    _processCheckpoints _getWeather _getCityName (Some rd) departureTime
    = Some cps
    /\ StronglySorted Z.le (map distanceFromStart cps)
    /\ (exists rest, map distanceFromStart cps = 0%Z :: rest)
    /\ (exists front,
          map distanceFromStart cps
          = (front ++ [Js.floor (dist / 1000)])%list).
Proof.
  intros Hpath Hdur HD Hdist Hnn.
  destruct (run_positive rd p ps D departureTime Hpath Hdur HD)
    as (rest & Hrun & Hsorted & Hall & front & final & Hsplit & Hfinal).
  rewrite Hdist in Hrun.
  pose proof (numOr_some dist) as Hd.
  set (dist' := Js.numOr (Some dist) 0) in *.
  set (km := fun t => Js.floor ((dist' * (t / D)) / 1000)).
  assert (Hmap : map distanceFromStart
                   (map (checkpointOf _getWeather _getCityName (p :: ps) D
                                      dist' departureTime) (0 :: rest))
                 = map km (0 :: rest)).
  { rewrite map_map. apply map_ext. intros t.
    destruct (checkpointOf_fields _getWeather _getCityName (p :: ps) D
                dist' departureTime t) as (_ & -> & _); [discriminate|].
    now rewrite progressAt_positive. }
  eexists. split; [exact Hrun|]. rewrite Hmap. split; [|split].
  - apply (StronglySorted_map_mono Qlt Z.le); [|exact Hsorted].
    intros x y Hxy. unfold km, Js.floor. apply Qfloor_resp_le.
    assert (Hq : x / D <= y / D) by (apply Qdiv_le_mono; lra).
    apply Qdiv_le_mono; [lra|]. nra.
  - exists (map km rest). cbn [map]. f_equal. unfold km, Js.floor.
    transitivity (Qfloor 0); [|reflexivity]. apply Qfloor_comp. field. lra.
  - exists (map km front). rewrite Hsplit, map_app. cbn [map]. f_equal.
    f_equal. unfold km, Js.floor. apply Qfloor_comp.
    rewrite Hd, Hfinal. field. lra.
Qed.

Lemma pathIndexOf_comp (x y : Q) (len : Z) :
  x == y -> pathIndexOf x len = pathIndexOf y len.
Proof.
  intros H. unfold pathIndexOf, Js.floor.
  rewrite (Qfloor_comp (x * inject_Z (len - 1)) (y * inject_Z (len - 1)));
    [reflexivity|now rewrite H].
Qed.

Lemma pathIndexOf_mono (x y : Q) (len : Z) :
  (1 <= len)%Z -> x <= y -> (pathIndexOf x len <= pathIndexOf y len)%Z.
Proof.
  intros Hlen Hxy. unfold pathIndexOf, Js.floor.
  assert (Hl : 0 <= inject_Z (len - 1)).
  { change 0 with (inject_Z 0). rewrite <- Zle_Qle. lia. }
  assert (Hf : (Qfloor (x * inject_Z (len - 1))
                <= Qfloor (y * inject_Z (len - 1)))%Z).
  { apply Qfloor_resp_le. nra. }
  destruct (Qfloor (x * inject_Z (len - 1)) <? 0)%Z eqn:Ex;
  destruct (Qfloor (y * inject_Z (len - 1)) <? 0)%Z eqn:Ey;
    rewrite ?Z.ltb_lt, ?Z.ltb_ge in Ex, Ey;
    repeat match goal with
           | |- context [(?a >=? ?b)%Z] =>
               let E := fresh "E" in
               destruct (a >=? b)%Z eqn:E;
               rewrite Z.geb_leb in E;
               rewrite ?Z.leb_le, ?Z.leb_gt in E
           end; lia.
Qed.

Lemma pathIndexOf_zero (len : Z) : (1 <= len)%Z -> pathIndexOf 0 len = 0%Z.
Proof.
  intros Hlen. unfold pathIndexOf, Js.floor.
  rewrite (Qfloor_comp (0 * inject_Z (len - 1)) 0) by ring.
  change (Qfloor 0) with 0%Z. change (0 <? 0)%Z with false. cbv iota.
  destruct (0 >=? len)%Z eqn:E; [|reflexivity].
  rewrite Z.geb_leb in E. apply Z.leb_le in E. lia.
Qed.

Lemma pathIndexOf_one (len : Z) :
  (1 <= len)%Z -> pathIndexOf 1 len = (len - 1)%Z.
Proof.
  intros Hlen. unfold pathIndexOf, Js.floor.
  rewrite (Qfloor_comp (1 * inject_Z (len - 1)) (inject_Z (len - 1)))
    by ring.
  rewrite Qfloor_Z.
  destruct (len - 1 <? 0)%Z eqn:E0; [apply Z.ltb_lt in E0; lia|].
  destruct (len - 1 >=? len)%Z eqn:E1; [|reflexivity].
  rewrite Z.geb_leb in E1. apply Z.leb_le in E1. lia.
Qed.

(** The point a checkpoint lies on, by its index in the path. *)
Lemma checkpointOf_index (pathPoints : list Point) (D dist : Q)
    (departureTime : Z) (t : Q) :
  pathPoints <> [] ->
  let c := checkpointOf _getWeather _getCityName pathPoints D dist
                        departureTime t in
  let i := pathIndexOf (progressAt D t)
                       (Z.of_nat (List.length pathPoints)) in
  exists lng lat,
    nth_error pathPoints (Z.to_nat i) = Some (lng, lat)
    /\ cp_lng c = Some lng /\ cp_lat c = Some lat.
Proof.
  intros Hne c i.
  pose proof (checkpointAt_checkpointOf _getWeather _getCityName pathPoints
                D dist departureTime t Hne) as Hc.
  fold c in Hc. unfold checkpointAt in Hc. fold i in Hc.
  destruct (pointAt pathPoints i) as [[lng lat]|] eqn:Ep; [|discriminate].
  destruct (enrich _ _ lat lng _) as [w name].
  injection Hc as Hc. exists lng, lat. rewrite <- Hc. repeat split.
  unfold pointAt in Ep. now destruct (i <? 0)%Z.
Qed.

(** X8. On a route of positive duration the checkpoints lie on points of
    the path whose indices never decrease along the list: the first lies
    on the first point of the path and the last on its last point. *)
Theorem checkpoints_advance_along_path (rd : RouteData) (p : Point)
    (ps : list Point) (D : Q) (departureTime : Z) :
  path rd = Some (p :: ps) -> duration rd = Some D -> 0 < D ->
  exists cps idxs,
    _processCheckpoints _getWeather _getCityName (Some rd) departureTime
    = Some cps
    /\ Forall2 (fun i c =>
                  exists lng lat,
                    nth_error (p :: ps) i = Some (lng, lat)
                    /\ cp_lng c = Some lng /\ cp_lat c = Some lat)
               idxs cps
    /\ StronglySorted le idxs
    /\ (exists rest, idxs = 0%nat :: rest)
    /\ (exists front, idxs = (front ++ [List.length ps])%list).
Proof.
  intros Hpath Hdur HD.
  destruct (run_positive rd p ps D departureTime Hpath Hdur HD)
    as (rest & Hrun & Hsorted & Hall & front & final & Hsplit & Hfinal).
  set (len := Z.of_nat (List.length (p :: ps))).
  assert (Hlen : (1 <= len)%Z) by (unfold len; simpl; lia).
  set (idx := fun t => Z.to_nat (pathIndexOf (progressAt D t) len)).
  exists (map (checkpointOf _getWeather _getCityName (p :: ps) D
                            (Js.numOr (distance rd) 0) departureTime)
              (0 :: rest)),
         (map idx (0 :: rest)).
  split; [exact Hrun|]. split; [|split; [|split]].
  - clear. induction (0 :: rest) as [|t l IH]; simpl; constructor;
      [|exact IH].
    apply checkpointOf_index. discriminate.
  - apply (StronglySorted_map_mono Qlt le); [|exact Hsorted].
    intros x y Hxy. unfold idx. apply Z2Nat.inj_le.
    + apply pathIndexOf_clamped. exact Hlen.
    + apply pathIndexOf_clamped. exact Hlen.
    + apply pathIndexOf_mono; [exact Hlen|].
      rewrite !progressAt_positive by exact HD.
      apply Qdiv_le_mono; lra.
  - exists (map idx rest). cbn [map]. f_equal. unfold idx.
    rewrite progressAt_positive by exact HD.
    rewrite (pathIndexOf_comp (0 / D) 0) by (field; lra).
    now rewrite pathIndexOf_zero.
  - exists (map idx front). rewrite Hsplit, map_app. cbn [map]. f_equal.
    f_equal. unfold idx. rewrite progressAt_positive by exact HD.
    rewrite (pathIndexOf_comp (final / D) 1) by (rewrite Hfinal; field; lra).
    rewrite pathIndexOf_one by exact Hlen. unfold len. simpl List.length.
    lia.
Qed.

(** X9. When the forecast of every point is missing (the call throws, or
    answers with what its [catch] returns, two dashes and code 0), every
    checkpoint of the loop has the two dashes for temperature and the
    label of code 0, "Céu Limpo ☀️", for condition. *)
Theorem missing_forecast_reads_clear_sky (rd : RouteData) (p : Point)
    (ps : list Point) (departureTime : Z) :
  (forall lat lng futureDate,
     _getWeather lat lng futureDate = None
     \/ _getWeather lat lng futureDate = Some (mkWeather TempDashes 0)) ->
  path rd = Some (p :: ps) ->
  exists cps,
    _processCheckpoints _getWeather _getCityName (Some rd) departureTime
    = Some cps
    /\ Forall (fun c =>
                 weather_temp c = TempDashes
                 /\ weather_condition c = "Céu Limpo ☀️"%string) cps.
Proof.
  intros Hw Hpath.
  destruct (checkpoints_total_on_path rd p ps departureTime Hpath)
    as (cps & Hrun).
  exists cps. split; [exact Hrun|].
  unfold _processCheckpoints in Hrun. rewrite Hpath in Hrun.
  eapply whileLoop_Forall; [|constructor|exact Hrun].
  intros t c. unfold checkpointAt.
  destruct (pointAt _ _) as [[lng lat]|]; [|discriminate].
  unfold enrich.
  destruct (Hw lat lng (futureDateAt departureTime t)) as [-> | ->].
  - intros [= <-]. now split.
  - destruct (_getCityName lat lng); intros [= <-]; now split.
Qed.

End Service.

Lemma checkpoint_count_witness :
  exists cps,
    _processCheckpoints (fun _ _ _ => None) (fun _ _ => None)
      (Some (mkRouteData (Some 5000) (Some 9000) (Some [(0, 0); (1, 1)])
                         "OSRM"%string)) 0
    = Some cps
    /\ List.length cps = 3%nat.
Proof.
  destruct (checkpoint_count (fun _ _ _ => None) (fun _ _ => None)
              (mkRouteData (Some 5000) (Some 9000) (Some [(0, 0); (1, 1)])
                           "OSRM"%string)
              (0, 0) [(1, 1)] 5000 0 eq_refl eq_refl)
    as (cps & Hrun & _ & Hlen).
  exists cps. split; [exact Hrun|]. apply Hlen. discriminate.
Defined.

Lemma checkpoints_on_the_hour_witness :
  exists cps c,
    _processCheckpoints (fun _ _ _ => None) (fun _ _ => None)
      (Some (mkRouteData (Some 5000) (Some 9000) (Some [(0, 0); (1, 1)])
                         "OSRM"%string)) 7
    = Some cps
    /\ nth_error cps 1 = Some c
    /\ cp_date c = 3600007%Z.
Proof.
  destruct (checkpoints_on_the_hour (fun _ _ _ => None) (fun _ _ => None)
              (mkRouteData (Some 5000) (Some 9000) (Some [(0, 0); (1, 1)])
                           "OSRM"%string)
              (0, 0) [(1, 1)] 5000 7 eq_refl eq_refl)
    as (cps & Hrun & Hdate).
  pose proof Hrun as Hval. vm_compute in Hval.
  destruct cps as [|c0 [|c1 [|c2 [|c3 cps]]]]; try discriminate Hval.
  exists [c0; c1; c2], c1. split; [exact Hrun|]. split; [reflexivity|].
  apply (Hdate 1%nat c1); [reflexivity|simpl; lia].
Defined.

Lemma distances_monotone_witness :
  exists cps,
    _processCheckpoints (fun _ _ _ => None) (fun _ _ => None)
      (Some (mkRouteData (Some 5000) (Some 9000) (Some [(0, 0); (1, 1)])
                         "OSRM"%string)) 0
    = Some cps
    /\ StronglySorted Z.le (map distanceFromStart cps)
    /\ (exists front, map distanceFromStart cps = (front ++ [9%Z])%list).
Proof.
  destruct (distances_monotone (fun _ _ _ => None) (fun _ _ => None)
              (mkRouteData (Some 5000) (Some 9000) (Some [(0, 0); (1, 1)])
                           "OSRM"%string)
              (0, 0) [(1, 1)] 5000 9000 0 eq_refl eq_refl eq_refl eq_refl)
    as (cps & Hrun & Hsorted & _ & Hlast).
  - discriminate.
  - exists cps. split; [exact Hrun|]. split; [exact Hsorted|exact Hlast].
Defined.

Lemma checkpoints_advance_along_path_witness :
  exists cps idxs,
    _processCheckpoints (fun _ _ _ => None) (fun _ _ => None)
      (Some (mkRouteData (Some 5000) (Some 9000) (Some [(0, 0); (1, 1)])
                         "OSRM"%string)) 0
    = Some cps
    /\ StronglySorted le idxs
    /\ (exists rest, idxs = 0%nat :: rest)
    /\ (exists front, idxs = (front ++ [1%nat])%list).
Proof.
  destruct (checkpoints_advance_along_path
              (fun _ _ _ => None) (fun _ _ => None)
              (mkRouteData (Some 5000) (Some 9000) (Some [(0, 0); (1, 1)])
                           "OSRM"%string)
              (0, 0) [(1, 1)] 5000 0 eq_refl eq_refl eq_refl)
    as (cps & idxs & Hrun & _ & Hsorted & Hfirst & Hlast).
  exists cps, idxs. repeat split; assumption.
Defined.

Lemma missing_forecast_reads_clear_sky_witness :
  exists cps,
    _processCheckpoints (fun _ _ _ => Some (mkWeather TempDashes 0))
      (fun _ _ => Some "Trajeto"%string)
      (Some (mkRouteData (Some 5000) (Some 9000) (Some [(0, 0); (1, 1)])
                         "OSRM"%string)) 0
    = Some cps
    /\ Forall (fun c =>
                 weather_temp c = TempDashes
                 /\ weather_condition c = "Céu Limpo ☀️"%string) cps.
Proof.
  apply (missing_forecast_reads_clear_sky
           (fun _ _ _ => Some (mkWeather TempDashes 0))
           (fun _ _ => Some "Trajeto"%string)
           (mkRouteData (Some 5000) (Some 9000) (Some [(0, 0); (1, 1)])
                        "OSRM"%string)
           (0, 0) [(1, 1)] 0).
  - intros. now right.
  - reflexivity.
Defined.

End CheckpointShape.

(* ================================================================= *)
(** ** The loop with and without its guards *)

Module GuardFacts.

Import Route Checkpoints QFacts LoopFacts PathIndexFacts.
Import CheckpointFacts CheckpointShape.
Local Open Scope Q_scope.

Section Service.

Variable _getWeather : Q -> Q -> Z -> option Weather.
Variable _getCityName : Q -> Q -> option string.

Lemma nextOffset_agree (D t : Q) :
  t < D -> Part001.nextOffset D t = nextOffset D t.
Proof.
  intros Ht. unfold Part001.nextOffset, nextOffset.
  destruct (Qltb D (t + CHECKPOINT_INTERVAL)) eqn:E; [|reflexivity].
  assert (H : Qltb (t + CHECKPOINT_INTERVAL - CHECKPOINT_INTERVAL) D = true).
  { apply Qltb_true. lra. }
  now rewrite H.
Qed.

Lemma pathIndexOf_unclamped (progress : Q) (len : Z) :
  0 <= progress <= 1 -> (1 <= len)%Z ->
  pathIndexOf progress len = Js.floor (progress * inject_Z (len - 1)).
Proof.
  intros Hp Hlen.
  pose proof (floor_progress_bounds progress len Hp Hlen) as Hb.
  unfold pathIndexOf.
  destruct (Js.floor (progress * inject_Z (len - 1)) <? 0)%Z eqn:E0;
    [apply Z.ltb_lt in E0; lia|].
  destruct (Js.floor (progress * inject_Z (len - 1)) >=? len)%Z eqn:E1;
    [|reflexivity].
  rewrite Z.geb_leb in E1. apply Z.leb_le in E1. lia.
Qed.

Lemma progress_in_unit (D t : Q) :
  0 < D -> 0 <= t <= D -> 0 <= t / D <= 1.
Proof.
  intros HD [H0 H1]. split.
  - apply Qle_shift_div_l; lra.
  - apply Qle_shift_div_r; lra.
Qed.

(** On an offset of a route of positive duration the unguarded body,
    when it does not throw, builds what the guarded body builds. *)
Lemma body_agree (pathPoints : list Point) (D dist dist' : Q)
    (departureTime : Z) (t : Q) (c : Checkpoint) :
  pathPoints <> [] -> 0 < D -> 0 <= t <= D -> dist' == dist ->
  Part001.checkpointAt _getWeather _getCityName pathPoints D dist
                       departureTime t = Some c ->
  checkpointAt _getWeather _getCityName pathPoints D dist' departureTime t
  = Some c.
Proof.
  intros Hne HD Ht Hd.
  assert (Hlen : (1 <= Z.of_nat (List.length pathPoints))%Z).
  { destruct pathPoints; [congruence|simpl; lia]. }
  unfold Part001.checkpointAt, checkpointAt, Part001.progressAt.
  rewrite (progressAt_positive D t HD).
  destruct (Qeq_bool D 0) eqn:E; [apply Qeq_bool_iff in E; lra|].
  rewrite (pathIndexOf_unclamped (t / D) _ (progress_in_unit D t HD Ht) Hlen).
  destruct (pointAt pathPoints _) as [[lng lat]|]; [|discriminate].
  unfold enrich, futureDateAt.
  destruct (_getWeather lat lng _) as [w|]; [|discriminate].
  destruct (_getCityName lat lng) as [name|]; [|discriminate].
  assert (Hkm : Js.floor (dist' * (t / D) / 1000)
                = Js.floor (dist * (t / D) / 1000)).
  { unfold Js.floor. apply Qfloor_comp. now rewrite Hd. }
  rewrite Hkm. trivial.
Qed.

Lemma body_total (pathPoints : list Point) (D dist : Q)
    (departureTime : Z) (t : Q) :
  (forall lat lng futureDate, _getWeather lat lng futureDate <> None) ->
  (forall lat lng, _getCityName lat lng <> None) ->
  pathPoints <> [] -> 0 < D -> 0 <= t <= D ->
  exists c,
    Part001.checkpointAt _getWeather _getCityName pathPoints D dist
                         departureTime t = Some c.
Proof.
  intros Hw Hn Hne HD Ht.
  assert (Hlen : (1 <= Z.of_nat (List.length pathPoints))%Z).
  { destruct pathPoints; [congruence|simpl; lia]. }
  unfold Part001.checkpointAt, Part001.progressAt.
  destruct (Qeq_bool D 0) eqn:E; [apply Qeq_bool_iff in E; lra|].
  pose proof (floor_progress_bounds (t / D) _
                (progress_in_unit D t HD Ht) Hlen) as Hb.
  destruct (pointAt_in_range pathPoints
              (Js.floor (t / D
                         * inject_Z (Z.of_nat (List.length pathPoints) - 1))))
    as ([lng lat] & -> & _); [lia|].
  destruct (_getWeather lat lng _) as [w|] eqn:Ew;
    [|exfalso; eapply Hw; eauto].
  destruct (_getCityName lat lng) as [name|] eqn:En;
    [|exfalso; eapply Hn; eauto].
  eauto.
Qed.

Lemma loop_agree (pathPoints : list Point) (D dist dist' : Q)
    (departureTime : Z) (fuel : nat) (t : Q) (acc cps : list Checkpoint) :
  pathPoints <> [] -> 0 < D -> 0 <= t -> dist' == dist ->
  Part001.whileLoop _getWeather _getCityName pathPoints D dist departureTime
                    fuel t acc = Part001.Returned cps ->
  whileLoop (checkpointAt _getWeather _getCityName pathPoints D dist'
                          departureTime) D fuel t acc
  = Some cps.
Proof.
  intros Hne HD Ht Hd. revert t acc Ht.
  induction fuel as [|fuel IH]; intros t acc Ht; simpl; [discriminate|].
  destruct (Qle_bool t D) eqn:Ele; [|now intros [= <-]].
  apply Qle_bool_iff in Ele.
  destruct (Part001.checkpointAt _ _ _ _ _ _ t) as [c|] eqn:Eb;
    [|discriminate].
  rewrite (body_agree pathPoints D dist dist' departureTime t c Hne HD
             (conj Ht Ele) Hd Eb).
  destruct (Qle_bool D t) eqn:Ege; [now intros [= <-]|].
  apply Qle_bool_false in Ege. rewrite (nextOffset_agree D t Ege).
  apply IH. destruct (nextOffset_bounds D t Ege). lra.
Qed.

Lemma loop_returns (pathPoints : list Point) (D dist : Q)
    (departureTime : Z) (fuel : nat) (t : Q) (acc : list Checkpoint) :
  (forall lat lng futureDate, _getWeather lat lng futureDate <> None) ->
  (forall lat lng, _getCityName lat lng <> None) ->
  pathPoints <> [] -> 0 < D -> 0 <= t <= D -> enough D fuel t ->
  exists cps,
    Part001.whileLoop _getWeather _getCityName pathPoints D dist
                      departureTime fuel t acc = Part001.Returned cps.
Proof.
  intros Hw Hn Hne HD. revert t acc.
  induction fuel as [|fuel IH]; intros t acc Ht Hen.
  - pose proof (enough_positive D 0 t (proj2 Ht) Hen). lia.
  - simpl. assert (Ele : Qle_bool t D = true) by (apply Qle_bool_iff; lra).
    rewrite Ele.
    destruct (body_total pathPoints D dist departureTime t Hw Hn Hne HD Ht)
      as (c & ->).
    destruct (Qle_bool D t) eqn:Ege; [eauto|].
    apply Qle_bool_false in Ege. rewrite (nextOffset_agree D t Ege).
    destruct (nextOffset_bounds D t Ege).
    apply IH; [split; lra|now apply enough_next].
Qed.

(** X10. The loop of the previous iteration has no guard: it divides by
    the duration as it is and reads the path at the index as it is. On a
    route with numbers for duration and distance and a path with a point:
    whatever list that loop returns, the loop of [server.js] returns the
    same list; on a duration of zero that loop throws; and on a positive
    duration, with collaborators that answer, it returns. *)
Theorem guards_preserve_results (D dist : Q) (p : Point) (ps : list Point)
    (providerName : string) (departureTime : Z) :
  let rd := mkRouteData (Some D) (Some dist) (Some (p :: ps))
                        providerName in
  (forall cps,
     Part001._processCheckpoints _getWeather _getCityName D dist (p :: ps)
                                 departureTime = Part001.Returned cps ->
     _processCheckpoints _getWeather _getCityName (Some rd) departureTime
     = Some cps)
  /\ (D == 0 ->
      Part001._processCheckpoints _getWeather _getCityName D dist (p :: ps)
                                  departureTime = Part001.Threw)
  /\ (0 < D ->
      (forall lat lng futureDate, _getWeather lat lng futureDate <> None) ->
      (forall lat lng, _getCityName lat lng <> None) ->
      exists cps,
        Part001._processCheckpoints _getWeather _getCityName D dist
                                    (p :: ps) departureTime
        = Part001.Returned cps).
Proof.
  intros rd.
  assert (Hfuel : exists n, loopFuel D = S n).
  { unfold loopFuel. rewrite Nat.add_comm. simpl. eauto. }
  assert (Hzero : D == 0 ->
            Part001._processCheckpoints _getWeather _getCityName D dist
              (p :: ps) departureTime = Part001.Threw).
  { intros H0. unfold Part001._processCheckpoints.
    destruct Hfuel as (n & ->). simpl.
    assert (E1 : Qle_bool 0 D = true) by (apply Qle_bool_iff; lra).
    rewrite E1. unfold Part001.checkpointAt, Part001.progressAt.
    apply Qeq_bool_iff in H0. now rewrite H0. }
  split; [|split; [exact Hzero|]].
  - intros cps Hrun.
    destruct (Q_dec D 0) as [[Hneg|Hpos]|H0].
    + unfold Part001._processCheckpoints in Hrun.
      unfold _processCheckpoints. cbn [rd path duration distance].
      assert (HT : Js.numOr (Some D) 0 = D).
      { unfold Js.numOr. destruct (Qeq_bool D 0) eqn:E; [|reflexivity].
        apply Qeq_bool_iff in E. lra. }
      rewrite HT. destruct Hfuel as (n & Hn). rewrite Hn in *.
      simpl in *.
      assert (E1 : Qle_bool 0 D = false).
      { destruct (Qle_bool 0 D) eqn:E; [|reflexivity].
        apply Qle_bool_iff in E. lra. }
      rewrite E1 in *. now injection Hrun as <-.
    + unfold _processCheckpoints. cbn [rd path duration distance].
      rewrite (numOr_positive D Hpos).
      apply (loop_agree (p :: ps) D dist); try assumption;
        [discriminate|lra|apply numOr_some].
    + rewrite (Hzero H0) in Hrun. discriminate.
  - intros HD Hw Hn. unfold Part001._processCheckpoints.
    apply loop_returns; try assumption; [discriminate|lra|].
    apply loopFuel_enough. lra.
Qed.

End Service.

Lemma guards_preserve_results_witness :
  let weather := fun (_ _ : Q) (_ : Z) => Some (mkWeather (TempValue 21) 2) in
  let city := fun (_ _ : Q) => Some "Resende, RJ"%string in
  (exists cps,
     Part001._processCheckpoints weather city 5000 9000 [(0, 0); (1, 1)] 0
     = Part001.Returned cps
     /\ _processCheckpoints weather city
          (Some (mkRouteData (Some 5000) (Some 9000)
                             (Some [(0, 0); (1, 1)]) "OSRM"%string)) 0
        = Some cps)
  /\ Part001._processCheckpoints weather city 0 9000 [(0, 0); (1, 1)] 0
     = Part001.Threw.
Proof.
  intros weather city.
  destruct (guards_preserve_results weather city 5000 9000 (0, 0) [(1, 1)]
              "OSRM"%string 0) as (Hsame & _ & Hret).
  destruct (guards_preserve_results weather city 0 9000 (0, 0) [(1, 1)]
              "OSRM"%string 0) as (_ & Hthrow & _).
  split.
  - destruct Hret as (cps & Hcps); [reflexivity|discriminate|discriminate|].
    exists cps. split; [exact Hcps|]. apply Hsame. exact Hcps.
  - apply Hthrow. reflexivity.
Defined.

End GuardFacts.

(* ================================================================= *)
(** ** Place names *)

Module PlaceFacts.

Import Places.
Local Open Scope string_scope.

Lemma textOr_truthy (a : option string) (b : string) :
  Js.truthyString b = true -> Js.truthyString (textOr a b) = true.
Proof.
  intros Hb. unfold textOr. destruct a as [s|]; [|exact Hb].
  destruct (Js.truthyString s) eqn:E; [exact E|exact Hb].
Qed.

Lemma truthy_append (a b : string) :
  Js.truthyString a = true -> Js.truthyString (a ++ b) = true.
Proof. destruct a; [discriminate|reflexivity]. Qed.

Lemma states_abbreviated (name code : string) :
  In (name, code) BRAZIL_STATES ->
  assoc BRAZIL_STATES name = Some code /\ String.length code = 2%nat.
Proof.
  unfold BRAZIL_STATES. simpl In.
  intros H.
  repeat (destruct H as [H|H];
          [injection H as <- <-; split; reflexivity|]).
  contradiction.
Qed.

(** X11. The place name of a checkpoint is never empty: "Trajeto" when
    the reverse geocoding fails, and otherwise the first non-empty of
    city, town, village and municipality, or "Estrada", followed, when
    the address names a state, by a comma and the state. For each of the
    27 states of the table what follows the comma is the two-letter
    code of the state. *)
Theorem place_name_never_blank (inheritedText : string -> string)
    (response : option Address) :
  Js.truthyString (_getCityName inheritedText response) = true
  /\ (response = None -> _getCityName inheritedText response = "Trajeto")
  /\ (forall addr name code,
        response = Some addr -> state addr = Some name ->
        In (name, code) BRAZIL_STATES ->
        String.length code = 2%nat
        /\ exists place,
             Js.truthyString place = true
             /\ _getCityName inheritedText response
                = place ++ ", " ++ code).
Proof.
  split; [|split].
  - destruct response as [addr|]; [|reflexivity].
    unfold _getCityName.
    set (place := textOr (city addr) _).
    assert (Hp : Js.truthyString place = true).
    { unfold place. repeat apply textOr_truthy. reflexivity. }
    destruct (Js.truthyString (ufOf inheritedText addr));
      [now apply truthy_append|exact Hp].
  - now intros ->.
  - intros addr name code -> Hstate Hin.
    destruct (states_abbreviated name code Hin) as [Hassoc Hlen].
    split; [exact Hlen|].
    unfold _getCityName, ufOf. rewrite Hstate, Hassoc.
    set (place := textOr (city addr) _).
    exists place. split.
    + unfold place. repeat apply textOr_truthy. reflexivity.
    + destruct code as [|a code]; [discriminate Hlen|reflexivity].
Qed.

Lemma place_name_never_blank_witness :
  exists place,
    Js.truthyString place = true
    /\ _getCityName (fun _ => "")
         (Some (mkAddress None (Some "Resende") None None
                          (Some "Rio de Janeiro")))
       = place ++ ", " ++ "RJ".
Proof.
  destruct (place_name_never_blank (fun _ => "")
              (Some (mkAddress None (Some "Resende") None None
                               (Some "Rio de Janeiro"))))
    as (_ & _ & H).
  destruct (H _ "Rio de Janeiro" "RJ" eq_refl eq_refl)
    as (_ & place & Hp & Heq).
  - unfold BRAZIL_STATES. simpl. do 18 right. left. reflexivity.
  - exists place. split; [exact Hp|exact Heq].
Defined.

End PlaceFacts.

(* ================================================================= *)
(** ** The request *)

Module ForecastFacts.

Import Route Checkpoints Forecast QFacts LoopFacts OffsetFacts.
Import CheckpointFacts CascadeFacts CacheRoundTrip.
Local Open Scope string_scope.

Section Service.

Variable GRAPHHOPPER_KEY : option string.
Variable MAPBOX_TOKEN : option string.
Variable endpoint :
  Cascade.Provider -> Coord -> Coord -> option (list Cascade.RawRoute).
Variable _getWeather : Q -> Q -> Z -> option Weather.
Variable _getCityName : Q -> Q -> option string.
Variable _getCoordinates : Js.JsString -> option Coord.

(** The checkpoint loop returns on every route. *)
Lemma processCheckpoints_total (routeData : option RouteData)
    (departureTime : Z) :
  exists cps,
    _processCheckpoints _getWeather _getCityName routeData departureTime
    = Some cps.
Proof.
  unfold _processCheckpoints.
  destruct routeData as [rd|]; [|eauto].
  destruct (path rd) as [[|p ps]|]; eauto.
  apply whileLoop_terminates.
  - unfold loopFuel. lia.
  - destruct (Qlt_le_dec (Js.numOr (duration rd) 0) 0) as [H|H];
      [now left|right].
    now apply loopFuel_enough.
Qed.

(** When the cascade throws, every provider it may call has failed, and
    what it throws is the error of its last [catch]. *)
Lemma cascade_error (origin destination : Coord)
    (called : list Cascade.Provider) (e : string) :
  Cascade._getRouteWithFallback GRAPHHOPPER_KEY MAPBOX_TOKEN endpoint
                                origin destination [] = (called, inl e) ->
  e = Cascade.routeUnavailable
  /\ forall p,
       Cascade.configured GRAPHHOPPER_KEY MAPBOX_TOKEN p = true ->
       Cascade.succeeds endpoint p origin destination = false.
Proof.
  rewrite cascade_run. unfold Cascade.succeeds, Cascade.configured.
  destruct (Cascade.outcome endpoint Cascade.OSRM origin destination)
    as [e1|r1] eqn:E1; [|discriminate].
  destruct (Js.truthyOptString GRAPHHOPPER_KEY) eqn:C2;
  destruct (Cascade.outcome endpoint Cascade.GraphHopper origin destination)
    as [e2|r2] eqn:E2;
  destruct (Js.truthyOptString MAPBOX_TOKEN) eqn:C3;
  destruct (Cascade.outcome endpoint Cascade.Mapbox origin destination)
    as [e3|r3] eqn:E3;
  cbn; intros H; try discriminate H; injection H as _ <-;
  (split; [reflexivity|]);
  intros [| |] Hc; rewrite ?E1, ?E2, ?E3; first [reflexivity|discriminate Hc].
Qed.

(** Once the collaborators have answered, the request returns, the
    checkpoint loop staying within its bound; and when it returns an
    error the table is as it was. *)
Lemma getRouteForecast_returns (db : Cache.Db ForecastResult)
    (originText destinationText : Js.JsString) (dateString : Key.DateArg)
    (now savedAt : Z) :
  exists reply,
    getRouteForecast GRAPHHOPPER_KEY MAPBOX_TOKEN endpoint _getWeather
                     _getCityName _getCoordinates db originText
                     destinationText dateString now savedAt
    = Some reply
    /\ forall msg, answer reply = inl msg -> store reply = db.
Proof.
  unfold getRouteForecast.
  destruct (Key.departureDate dateString now) as [date|];
    [|eexists; split; [reflexivity|reflexivity]].
  destruct (Cache.Server._checkCache db _ _ _) as [cached|];
    [eexists; split; [reflexivity|reflexivity]|].
  destruct (_getCoordinates originText) as [origin|];
    destruct (_getCoordinates destinationText) as [destination|];
    try (eexists; split; [reflexivity|reflexivity]).
  destruct (Cascade._getRouteWithFallback _ _ _ origin destination [])
    as [called [e|routeData]];
    [eexists; split; [reflexivity|reflexivity]|].
  destruct (processCheckpoints_total (Some routeData) date) as (cps & ->).
  eexists. split; [reflexivity|]. cbn. discriminate.
Qed.

(** X12. A request that comes back with an error has left the table as
    it was, and the error is one of three: the date cannot be read, and
    then nothing was called; or one of the two places was not found,
    after exactly the two geocoding calls and no call to a routing
    provider; or both places were found and every routing provider the
    cascade may call has failed. *)
Theorem request_errors (db : Cache.Db ForecastResult)
    (originText destinationText : Js.JsString) (dateString : Key.DateArg)
    (now savedAt : Z) (reply : Reply) (msg : string) :
  getRouteForecast GRAPHHOPPER_KEY MAPBOX_TOKEN endpoint _getWeather
                   _getCityName _getCoordinates db originText
                   destinationText dateString now savedAt
  = Some reply ->
  answer reply = inl msg ->
  store reply = db
  /\ ((msg = "Invalid time value" /\ dateString = Key.BadDate
       /\ calls reply = [])
      \/ (msg = "Cidades não encontradas."
          /\ (_getCoordinates originText = None
              \/ _getCoordinates destinationText = None)
          /\ calls reply
             = [GeocodeCall originText; GeocodeCall destinationText])
      \/ (msg = Cascade.routeUnavailable
          /\ exists origin destination,
               _getCoordinates originText = Some origin
               /\ _getCoordinates destinationText = Some destination
               /\ calls reply
                  = ([GeocodeCall originText; GeocodeCall destinationText]
                     ++ map RouteCall
                          (fst (Cascade._getRouteWithFallback
                                  GRAPHHOPPER_KEY MAPBOX_TOKEN endpoint
                                  origin destination [])))%list
               /\ forall p,
                    Cascade.configured GRAPHHOPPER_KEY MAPBOX_TOKEN p
                    = true ->
                    Cascade.succeeds endpoint p origin destination
                    = false)).
Proof.
  unfold getRouteForecast. intros Hrun Hans.
  destruct dateString as [| |tv]; cbn [Key.departureDate] in Hrun.
  2:{ injection Hrun as <-. cbn in Hans |- *. injection Hans as <-.
      split; [reflexivity|]. left. now repeat split. }
  all: destruct (Cache.Server._checkCache db _ _ _) as [cached|];
    [injection Hrun as <-; discriminate Hans|].
  all: destruct (_getCoordinates originText) as [origin|] eqn:Eo;
    destruct (_getCoordinates destinationText) as [destination|] eqn:Ed;
    try (injection Hrun as <-; cbn in Hans |- *; injection Hans as <-;
         split; [reflexivity|]; right; left;
         split; [reflexivity|split; [tauto|reflexivity]]).
  all: destruct (Cascade._getRouteWithFallback _ _ _ origin destination [])
    as [called [e|routeData]] eqn:Ec.
  all: try (injection Hrun as <-; cbn in Hans |- *; injection Hans as <-;
            destruct (cascade_error origin destination called e Ec)
              as [-> Hall];
            split; [reflexivity|]; right; right;
            split; [reflexivity|]; exists origin, destination;
            rewrite Ec; now repeat split).
  all: destruct (_processCheckpoints _ _ _ _) as [cps|];
    [injection Hrun as <-; discriminate Hans|discriminate Hrun].
Qed.


(** X13. Once a request on a working table has succeeded, any request
    that normalises to the same origin and destination and whose date
    falls in the same hour key gets the same result from the table it
    left, with no call to a collaborator and no change of the table - at
    whatever time it comes, since [server.js] never looks at the age of a
    row. *)
Theorem repeated_request_served_from_cache
    (rows : list (Cache.Row ForecastResult))
    (originText destinationText : Js.JsString) (dateString : Key.DateArg)
    (now savedAt : Z) (reply : Reply) (result : ForecastResult)
    (originText' destinationText' : Js.JsString) (dateString' : Key.DateArg)
    (now' savedAt' : Z) (date date' : Z) :
  getRouteForecast GRAPHHOPPER_KEY MAPBOX_TOKEN endpoint _getWeather
                   _getCityName _getCoordinates (Cache.DbRows rows)
                   originText destinationText dateString now savedAt
  = Some reply ->
  answer reply = inr result ->
  Key.departureDate dateString now = Some date ->
  Key.departureDate dateString' now' = Some date' ->
  Key.normalize originText' = Key.normalize originText ->
  Key.normalize destinationText' = Key.normalize destinationText ->
  Key.departureIsoKey date' = Key.departureIsoKey date ->
  getRouteForecast GRAPHHOPPER_KEY MAPBOX_TOKEN endpoint _getWeather
                   _getCityName _getCoordinates (store reply)
                   originText' destinationText' dateString' now' savedAt'
  = Some (mkReply (store reply) [] (inr result)).
Proof.
  intros Hrun Hans Hdate Hdate' Ho Hd Hk.
  assert (Hhit : Cache.Server._checkCache (store reply)
                   (Key.normalize originText)
                   (Key.normalize destinationText)
                   (Key.departureIsoKey date) = Some result).
  { unfold getRouteForecast in Hrun. rewrite Hdate in Hrun.
    destruct (Cache.Server._checkCache (Cache.DbRows rows) _ _ _)
      as [cached|] eqn:Ecache.
    - injection Hrun as <-. cbn in Hans. injection Hans as <-.
      exact Ecache.
    - destruct (_getCoordinates originText) as [origin|];
      destruct (_getCoordinates destinationText) as [destination|];
        try (injection Hrun as <-; discriminate Hans).
      destruct (Cascade._getRouteWithFallback _ _ _ origin destination [])
        as [called [e|routeData]];
        [injection Hrun as <-; discriminate Hans|].
      destruct (_processCheckpoints _ _ _ _) as [cps|]; [|discriminate].
      injection Hrun as <-. cbn in Hans. injection Hans as <-.
      cbn [store].
      match goal with
      | |- Cache.Server._checkCache _ ?o ?d ?k = Some ?r =>
          pose proof (server_save_then_check rows o d k r savedAt) as H
      end.
      rewrite Ecache in H. exact H. }
  unfold getRouteForecast. rewrite Hdate', Ho, Hd, Hk, Hhit. reflexivity.
Qed.

(** X14. A result that is computed (the table has no row for the key,
    both places are found, the cascade gives a route) carries the path,
    the distance, the duration and the provider name of that route, and
    the name is that of the last provider called. It has no checkpoint
    only when the provider reported a negative duration over a path with
    a point. *)
Theorem computed_result (db : Cache.Db ForecastResult)
    (originText destinationText : Js.JsString) (dateString : Key.DateArg)
    (now savedAt date : Z) (origin destination : Coord)
    (called : list Cascade.Provider) (routeData : RouteData) :
  Key.departureDate dateString now = Some date ->
  Cache.Server._checkCache db (Key.normalize originText)
                           (Key.normalize destinationText)
                           (Key.departureIsoKey date) = None ->
  _getCoordinates originText = Some origin ->
  _getCoordinates destinationText = Some destination ->
  Cascade._getRouteWithFallback GRAPHHOPPER_KEY MAPBOX_TOKEN endpoint origin
                                destination [] = (called, inr routeData) ->
  exists cps front p,
    getRouteForecast GRAPHHOPPER_KEY MAPBOX_TOKEN endpoint _getWeather
                     _getCityName _getCoordinates db originText
                     destinationText dateString now savedAt
    = Some (mkReply
              (Cache._saveToCache db (Key.normalize originText)
                                  (Key.normalize destinationText)
                                  (Key.departureIsoKey date)
                                  (mkForecastResult (path routeData) cps
                                     (provider routeData)
                                     (distance routeData)
                                     (duration routeData))
                                  savedAt)
              ([GeocodeCall originText; GeocodeCall destinationText]
               ++ map RouteCall called)
              (inr (mkForecastResult (path routeData) cps
                      (provider routeData) (distance routeData)
                      (duration routeData))))
    /\ _processCheckpoints _getWeather _getCityName (Some routeData) date
       = Some cps
    /\ called = (front ++ [p])%list
    /\ provider routeData = Cascade.providerName p
    /\ (cps = [] ->
        exists D q qs,
          duration routeData = Some D /\ (D < 0)%Q
          /\ path routeData = Some (q :: qs)).
Proof.
  intros Hdate Hmiss Ho Hd Hc.
  destruct (processCheckpoints_total (Some routeData) date) as (cps & Hcps).
  assert (Hlast : exists front p,
             called = (front ++ [p])%list
             /\ provider routeData = Cascade.providerName p).
  { rewrite cascade_run in Hc.
    pose proof (adapter_provider endpoint Cascade.OSRM origin destination)
      as P1.
    pose proof (adapter_provider endpoint Cascade.GraphHopper origin
                                 destination) as P2.
    pose proof (adapter_provider endpoint Cascade.Mapbox origin destination)
      as P3.
    unfold Cascade.configured in Hc.
    destruct (Cascade.outcome endpoint Cascade.OSRM origin destination)
      as [e1|r1].
    2:{ injection Hc as <- <-. exists [], Cascade.OSRM. split; auto. }
    destruct (Js.truthyOptString GRAPHHOPPER_KEY);
    destruct (Cascade.outcome endpoint Cascade.GraphHopper origin destination)
      as [e2|r2];
    destruct (Js.truthyOptString MAPBOX_TOKEN);
    destruct (Cascade.outcome endpoint Cascade.Mapbox origin destination)
      as [e3|r3];
    cbn in Hc; try discriminate Hc; injection Hc as <- <-;
    first [ exists [Cascade.OSRM], Cascade.GraphHopper; split;
            [reflexivity|now apply P2]
          | exists [Cascade.OSRM; Cascade.GraphHopper], Cascade.Mapbox;
            split; [reflexivity|now apply P3]
          | exists [Cascade.OSRM], Cascade.Mapbox; split;
            [reflexivity|now apply P3] ]. }
  destruct Hlast as (front & p & Hcalled & Hname).
  exists cps, front, p. split; [|split; [exact Hcps|split; [exact Hcalled|]]].
  { unfold getRouteForecast. now rewrite Hdate, Hmiss, Ho, Hd, Hc, Hcps. }
  split; [exact Hname|].
  intros ->. unfold _processCheckpoints in Hcps.
  destruct (path routeData) as [[|q qs]|] eqn:Hpath; try discriminate Hcps.
  destruct (Qlt_le_dec (Js.numOr (duration routeData) 0) 0) as [Hneg|Hpos].
  - destruct (duration routeData) as [D|]; [|discriminate Hneg].
    exists D, q, qs. split; [reflexivity|]. split; [|reflexivity].
    unfold Js.numOr in Hneg.
    destruct (Qeq_bool D 0); [discriminate Hneg|exact Hneg].
  - exfalso.
    destruct (offsets_from (Js.numOr (duration routeData) 0)
                (loopFuel (Js.numOr (duration routeData) 0)) 0 Hpos
                (loopFuel_enough _ Hpos)) as (rest & Hoffs & _).
    rewrite (whileLoop_map _ _
               (checkpointOf _getWeather _getCityName (q :: qs)
                  (Js.numOr (duration routeData) 0)
                  (Js.numOr (distance routeData) 0) date)) in Hcps.
    + rewrite Hoffs in Hcps. discriminate Hcps.
    + intros t. now apply checkpointAt_checkpointOf.
Qed.

(** X15. The handler answers 400 exactly when the origin or the
    destination is missing or empty, and then nothing is called; it
    answers 200 with the forecast when the service returns one and 500
    with the message of the error otherwise; and an answer other than
    200 leaves the table as it was. *)
Theorem handler_status (db : Cache.Db ForecastResult)
    (origin destination : option Js.JsString) (date : Key.DateArg)
    (now savedAt : Z) :
  exists http,
    postForecast GRAPHHOPPER_KEY MAPBOX_TOKEN endpoint _getWeather
                 _getCityName _getCoordinates db origin destination date
                 now savedAt
    = Some http
    /\ (status http = 400%Z
        <-> truthyText origin = false \/ truthyText destination = false)
    /\ (status http = 400%Z ->
        http_calls http = []
        /\ body http = inl "Origem e destino são obrigatórios.")
    /\ (status http = 200%Z \/ status http = 400%Z \/ status http = 500%Z)
    /\ (status http = 200%Z <-> exists result, body http = inr result)
    /\ (status http <> 200%Z -> http_store http = db).
Proof.
  unfold postForecast.
  destruct origin as [[|c o]|]; destruct destination as [[|c' d]|];
    cbn [truthyText andb];
    try (eexists; split; [reflexivity|]; cbn;
         repeat split; try tauto; try (intros; discriminate);
         try (intros [r Hr]; discriminate Hr); auto; fail).
  destruct (getRouteForecast_returns db (c :: o) (c' :: d) date now savedAt)
    as (reply & -> & Herr).
  eexists. split; [reflexivity|]. cbn.
  destruct (answer reply) as [msg|r] eqn:Ea.
  - pose proof (Herr msg eq_refl) as Hstore.
    repeat split; try (intros; discriminate); auto.
    + intros [H|H]; discriminate H.
    + intros [r Hr]; discriminate Hr.
  - repeat split; try (intros; discriminate); auto.
    + intros [H|H]; discriminate H.
    + eauto.
    + intros H. now contradiction H.
Qed.

End Service.

Lemma request_errors_witness :
  let db :=
    Cache.DbRows
      [Cache.mkRow 1 [115; 112]%N [114; 105; 111]%N "2024-06-01T08"
                   (mkForecastResult None [] "OSRM" None None) 5] in
  let reply :=
    mkReply db [GeocodeCall [114; 105; 111]%N; GeocodeCall [115; 112]%N]
            (inl "Cidades não encontradas.") in
  getRouteForecast None None (fun _ _ _ => None) (fun _ _ _ => None)
                   (fun _ _ => None) (fun _ => None) db
                   [114; 105; 111]%N [115; 112]%N Key.NoDate
                   1717228800000 1717228805000
  = Some reply
  /\ store reply = db
  /\ calls reply = [GeocodeCall [114; 105; 111]%N; GeocodeCall [115; 112]%N].
Proof.
  intros db reply.
  assert (Hrun : getRouteForecast None None (fun _ _ _ => None)
                   (fun _ _ _ => None) (fun _ _ => None) (fun _ => None) db
                   [114; 105; 111]%N [115; 112]%N Key.NoDate
                   1717228800000 1717228805000
                 = Some reply) by (vm_compute; reflexivity).
  split; [exact Hrun|].
  destruct (request_errors None None (fun _ _ _ => None)
              (fun _ _ _ => None) (fun _ _ => None) (fun _ => None)
              db [114; 105; 111]%N [115; 112]%N Key.NoDate
              1717228800000 1717228805000 reply
              "Cidades não encontradas." Hrun eq_refl)
    as [Hstore [(Hmsg & _)|[(_ & _ & Hcalls)|(Hmsg & _)]]].
  - discriminate Hmsg.
  - split; [exact Hstore|exact Hcalls].
  - discriminate Hmsg.
Defined.

Lemma repeated_request_served_from_cache_witness :
  let endpoint := fun (p : Cascade.Provider) (_ _ : Coord) =>
    match p with
    | Cascade.OSRM =>
        Some [Cascade.mkRawRoute (Some 5000) (Some 9000)
                                 (Some (Some [(0, 0); (1, 1)]))]
    | _ => None
    end in
  let geocode := fun _ : Js.JsString => Some (mkCoord 0 0) in
  exists reply result,
    getRouteForecast None None endpoint (fun _ _ _ => None)
                     (fun _ _ => None) geocode (Cache.DbRows [])
                     [82; 105; 111]%N [83; 80]%N
                     (Key.GoodDate 1717228800000) 0 1717228805000
    = Some reply
    /\ getRouteForecast None None endpoint (fun _ _ _ => None)
                        (fun _ _ => None) geocode (store reply)
                        [32; 114; 105; 111]%N [115; 112; 32]%N
                        (Key.GoodDate 1717230000000) 0 1817228805000
       = Some (mkReply (store reply) [] (inr result)).
Proof.
  intros endpoint geocode.
  destruct (getRouteForecast None None endpoint (fun _ _ _ => None)
              (fun _ _ => None) geocode (Cache.DbRows [])
              [82; 105; 111]%N [83; 80]%N
              (Key.GoodDate 1717228800000) 0 1717228805000)
    as [reply|] eqn:Hrun; [|vm_compute in Hrun; discriminate Hrun].
  destruct (answer reply) as [msg|result] eqn:Hans.
  - exfalso. vm_compute in Hrun. injection Hrun as Hrun.
    rewrite <- Hrun in Hans. discriminate Hans.
  - exists reply, result. split; [reflexivity|].
    apply (repeated_request_served_from_cache None None endpoint
             (fun _ _ _ => None) (fun _ _ => None) geocode []
             [82; 105; 111]%N [83; 80]%N (Key.GoodDate 1717228800000) 0
             1717228805000 reply result [32; 114; 105; 111]%N
             [115; 112; 32]%N (Key.GoodDate 1717230000000) 0 1817228805000
             1717228800000 1717230000000 Hrun Hans);
      reflexivity.
Defined.

Lemma computed_result_witness :
  let endpoint := fun (p : Cascade.Provider) (_ _ : Coord) =>
    match p with
    | Cascade.OSRM =>
        Some [Cascade.mkRawRoute (Some 5000) (Some 9000)
                                 (Some (Some [(0, 0); (1, 1)]))]
    | _ => None
    end in
  let geocode := fun _ : Js.JsString => Some (mkCoord 0 0) in
  exists cps,
    _processCheckpoints (fun _ _ _ => None) (fun _ _ => None)
      (Some (mkRouteData (Some 5000) (Some 9000) (Some [(0, 0); (1, 1)])
                         "OSRM")) 1717228800000
    = Some cps
    /\ cps <> []
    /\ exists reply,
         getRouteForecast None None endpoint (fun _ _ _ => None)
                          (fun _ _ => None) geocode (Cache.DbRows [])
                          [82; 105; 111]%N [83; 80]%N
                          (Key.GoodDate 1717228800000) 0 1717228805000
         = Some reply
         /\ calls reply
            = [ GeocodeCall [82; 105; 111]%N; GeocodeCall [83; 80]%N;
                RouteCall Cascade.OSRM ].
Proof.
  intros endpoint geocode.
  destruct (computed_result None None endpoint (fun _ _ _ => None)
              (fun _ _ => None) geocode (Cache.DbRows [])
              [82; 105; 111]%N [83; 80]%N (Key.GoodDate 1717228800000) 0
              1717228805000 1717228800000 (mkCoord 0 0) (mkCoord 0 0)
              [Cascade.OSRM]
              (mkRouteData (Some 5000) (Some 9000) (Some [(0, 0); (1, 1)])
                           "OSRM")
              eq_refl eq_refl eq_refl eq_refl eq_refl)
    as (cps & front & p & Hrun & Hcps & _ & _ & Hempty).
  exists cps. split; [exact Hcps|]. split.
  - intros H. destruct (Hempty H) as (D & q & qs & HD & Hneg & _).
    injection HD as <-. discriminate Hneg.
  - eexists. split; [exact Hrun|reflexivity].
Defined.

Lemma handler_status_witness :
  exists http,
    postForecast None None (fun _ _ _ => None) (fun _ _ _ => None)
                 (fun _ _ => None) (fun _ => None) (Cache.DbRows [])
                 (Some [114; 105; 111]%N) (Some []) Key.NoDate 0 0
    = Some http
    /\ status http = 400%Z
    /\ http_calls http = [].
Proof.
  destruct (handler_status None None (fun _ _ _ => None)
              (fun _ _ _ => None) (fun _ _ => None) (fun _ => None)
              (Cache.DbRows []) (Some [114; 105; 111]%N) (Some [])
              Key.NoDate 0 0)
    as (http & Hrun & [_ H400] & Hquiet & _).
  exists http. split; [exact Hrun|].
  assert (Hs : status http = 400%Z) by (apply H400; now right).
  split; [exact Hs|]. now destruct (Hquiet Hs).
Defined.

End ForecastFacts.

(* ================================================================= *)
(** ** The cascade of the previous iteration *)

Module PlaceholderFacts.

Import Route Cascade CascadeFacts.
Local Open Scope string_scope.

(** A credential as [server.js] would have to be given it to behave like
    the previous iteration: absent when that iteration does not take it
    as one. *)
Lemma usable_as_configured (key : option string) :
  Js.truthyOptString (if Part001.usable key then key else None)
  = Part001.usable key.
Proof.
  destruct key as [text|]; [|reflexivity]. simpl.
  destruct (Js.truthyString text) eqn:E; simpl; [|reflexivity].
  destruct (Part001.includes "AQUI" text); simpl; [reflexivity|exact E].
Qed.

Section Service.

Variable GRAPHHOPPER_KEY : option string.
Variable MAPBOX_TOKEN : option string.
Variable endpoint : Provider -> Coord -> Coord -> option (list RawRoute).

(** X16. The cascade of the previous iteration, which also refuses a
    credential that contains "AQUI", calls the same endpoints and returns
    the same route as the cascade of [server.js] run without the refused
    credentials; when both throw, the previous iteration's message is
    "Serviços de mapas indisponíveis no momento.". With the credentials
    its constructor sets, it calls OSRM and nothing else. *)
Theorem placeholder_credentials_skipped (start end_ : Coord) :
  let old := Part001._getRouteWithFallback GRAPHHOPPER_KEY MAPBOX_TOKEN
                                           endpoint start end_ [] in
  let new := _getRouteWithFallback
               (if Part001.usable GRAPHHOPPER_KEY
                then GRAPHHOPPER_KEY else None)
               (if Part001.usable MAPBOX_TOKEN then MAPBOX_TOKEN else None)
               endpoint start end_ [] in
  fst old = fst new
  /\ match snd old, snd new with
     | inr r, inr r' => r = r'
     | inl e, inl e' =>
         e = "Serviços de mapas indisponíveis no momento."
         /\ e' = routeUnavailable
     | _, _ => False
     end
  /\ fst (Part001._getRouteWithFallback
            (Some Part001.placeholderKey) (Some Part001.placeholderToken)
            endpoint start end_ []) = [OSRM].
Proof.
  intros old new. unfold old, new. clear old new.
  pose proof (fun log => adapter_run endpoint OSRM start end_ log) as H1.
  pose proof (fun log => adapter_run endpoint GraphHopper start end_ log)
    as H2.
  pose proof (fun log => adapter_run endpoint Mapbox start end_ log) as H3.
  cbn [adapter] in H1, H2, H3.
  unfold Part001._getRouteWithFallback, _getRouteWithFallback, tryCatch.
  rewrite !usable_as_configured.
  change (Part001.usable (Some Part001.placeholderKey)) with false.
  change (Part001.usable (Some Part001.placeholderToken)) with false.
  rewrite !H1. cbn [app negb].
  destruct (outcome endpoint OSRM start end_) as [e1|r1];
    [|now repeat split].
  unfold throw.
  destruct (Part001.usable GRAPHHOPPER_KEY); cbn [negb]; rewrite ?H2;
    cbn [app];
    destruct (outcome endpoint GraphHopper start end_) as [e2|r2];
    try (now repeat split);
    destruct (Part001.usable MAPBOX_TOKEN); cbn [negb]; rewrite ?H3;
    cbn [app];
    destruct (outcome endpoint Mapbox start end_) as [e3|r3];
    try (now repeat split).
Qed.

End Service.

End PlaceholderFacts.
